(** * The universal event tracker (src/event-tracker.js)

    A shallow embedding of the tracker's capture and normalisation pipeline:
    the element classifier, the normaliser [logEvent], every listener of the
    script, the throttled and debounced sources, the idle timer and the
    intersection observer callback, driven by a list of timed signals.

    Conventions of the embedding.
    - A JavaScript number is a [jsnum]: NaN, the two infinities, or a finite
      value kept as an exact rational.  The rounding of the binary64
      mantissa is not modelled, and there is one zero (taken as [+0]; the
      source builds a zero divisor only as a difference [a - a], which is
      [+0] in IEEE arithmetic).
    - A string is a [string] of ASCII characters; [toLowerCase], [trim] and
      the whitespace class of [/\s+/] are the ASCII ones.
    - An instant ([Date], [Date.now()]) is a number of milliseconds in [Z].
    - A handler runs in the monad [M]: it threads the tracker's world and may
      throw; what it wrote to the world before throwing stays written, as in
      JavaScript, and the host goes on with the next listener.
    - The host is single-threaded.  A pending timer is called at the instant
      it is due, before any signal that arrives later; timers due at the
      same instant are called in the order they were set.
    - The sink is the console: the world keeps the list of the records that
      [logEvent] printed.  The styling of the console output and the object
      [window.EventTracker] (statistics, custom events, configuration
      updates) are not modelled. *)

From Stdlib Require Import ZArith QArith Qround Bool List Sorted Ascii String DecimalString Lia.
Import ListNotations.

#[local] Set Warnings "-register-all".

Local Open Scope string_scope.
Local Open Scope Z_scope.

(** ** JavaScript strings *)

Module JsString.

Definition lower_ascii (c : ascii) : ascii :=
  let n := nat_of_ascii c in
  if (Nat.leb 65 n && Nat.leb n 90)%bool then ascii_of_nat (n + 32) else c.

(** [String.prototype.toLowerCase]. *)
Fixpoint toLowerCase (s : string) : string :=
  match s with
  | EmptyString => EmptyString
  | String c r => String (lower_ascii c) (toLowerCase r)
  end.

(** The class [\s]: tab, line feed, vertical tab, form feed, carriage
    return and space. *)
Definition is_ws (c : ascii) : bool :=
  let n := nat_of_ascii c in
  ((Nat.leb 9 n && Nat.leb n 13) || Nat.eqb n 32)%bool.

Fixpoint trimStart (s : string) : string :=
  match s with
  | EmptyString => EmptyString
  | String c r => if is_ws c then trimStart r else s
  end.

(** Drops the trailing whitespace: a character is kept when something
    that is kept follows it, or when it is not whitespace. *)
Fixpoint trimEnd (s : string) : string :=
  match s with
  | EmptyString => EmptyString
  | String c r =>
      match trimEnd r with
      | EmptyString => if is_ws c then EmptyString else String c EmptyString
      | r' => String c r'
      end
  end.

(** [String.prototype.trim]. *)
Definition trim (s : string) : string := trimEnd (trimStart s).

(** [s.split(/\s+/)]: [cur] is the token being read, reversed; [in_ws]
    tells that the previous character was whitespace. *)
Fixpoint split_ws_aux (s : string) (cur : string) (in_ws : bool) : list string :=
  match s with
  | EmptyString => [cur]
  | String c r =>
      if is_ws c
      then if in_ws then split_ws_aux r cur true
           else cur :: split_ws_aux r EmptyString true
      else split_ws_aux r (cur ++ String c EmptyString) false
  end.

Definition split_ws (s : string) : list string := split_ws_aux s EmptyString false.

(** [Array.prototype.join]. *)
Fixpoint join (sep : string) (l : list string) : string :=
  match l with
  | [] => EmptyString
  | [x] => x
  | x :: r => x ++ sep ++ join sep r
  end.

(** [s.substring(0, n)]. *)
Definition prefix (n : nat) (s : string) : string := substring 0 n s.

(** Truthiness of a string value. *)
Definition truthy (s : string) : bool :=
  match s with EmptyString => false | _ => true end.

End JsString.

(** ** JavaScript numbers *)

Module JsNum.

Inductive jsnum : Type :=
| NaN
| PosInf
| NegInf
| Fin (q : Q).

Definition of_Z (z : Z) : jsnum := Fin (inject_Z z).

Definition zero : jsnum := of_Z 0.

Definition Qsgn (q : Q) : comparison := (q ?= 0)%Q.

(** [a - b]. *)
Definition sub (a b : jsnum) : jsnum :=
  match a, b with
  | NaN, _ | _, NaN => NaN
  | PosInf, PosInf | NegInf, NegInf => NaN
  | PosInf, _ | _, NegInf => PosInf
  | NegInf, _ | _, PosInf => NegInf
  | Fin x, Fin y => Fin (x - y)
  end.

(** [a * b]. *)
Definition mul (a b : jsnum) : jsnum :=
  match a, b with
  | NaN, _ | _, NaN => NaN
  | Fin x, Fin y => Fin (x * y)
  | Fin x, PosInf | PosInf, Fin x =>
      match Qsgn x with Eq => NaN | Gt => PosInf | Lt => NegInf end
  | Fin x, NegInf | NegInf, Fin x =>
      match Qsgn x with Eq => NaN | Gt => NegInf | Lt => PosInf end
  | PosInf, PosInf | NegInf, NegInf => PosInf
  | PosInf, NegInf | NegInf, PosInf => NegInf
  end.

(** [a / b]; a finite non-zero value over zero is an infinity of its
    sign, zero over zero is NaN. *)
Definition div (a b : jsnum) : jsnum :=
  match a, b with
  | NaN, _ | _, NaN => NaN
  | Fin x, Fin y =>
      match Qsgn y with
      | Eq => match Qsgn x with Eq => NaN | Gt => PosInf | Lt => NegInf end
      | _ => Fin (x / y)
      end
  | Fin _, (PosInf | NegInf) => zero
  | PosInf, Fin y => match Qsgn y with Lt => NegInf | _ => PosInf end
  | NegInf, Fin y => match Qsgn y with Lt => PosInf | _ => NegInf end
  | (PosInf | NegInf), (PosInf | NegInf) => NaN
  end.

(** [Math.round]: the nearest integer, a half going up. *)
Definition round (a : jsnum) : jsnum :=
  match a with
  | Fin x => of_Z (Qfloor (x + (1 # 2)))
  | other => other
  end.

(** Truthiness of a number: NaN and zero are falsy. *)
Definition truthy (a : jsnum) : bool :=
  match a with
  | NaN => false
  | Fin x => match Qsgn x with Eq => false | _ => true end
  | _ => true
  end.

(** [a || b] on numbers. *)
Definition or (a b : jsnum) : jsnum := if truthy a then a else b.

(** [a > b]; false as soon as one side is NaN. *)
Definition gt (a b : jsnum) : bool :=
  match a, b with
  | NaN, _ | _, NaN => false
  | PosInf, PosInf => false
  | PosInf, _ => true
  | _, PosInf => false
  | NegInf, _ => false
  | _, NegInf => true
  | Fin x, Fin y => match (x ?= y)%Q with Gt => true | _ => false end
  end.

(** The order of the number line, NaN being related to nothing. *)
Definition le (a b : jsnum) : Prop :=
  match a, b with
  | NaN, _ | _, NaN => False
  | NegInf, _ => True
  | _, PosInf => True
  | Fin x, Fin y => (x <= y)%Q
  | _, _ => False
  end.

Definition is_nan (a : jsnum) : bool :=
  match a with NaN => true | _ => false end.

(** The larger of two numbers, as the source computes it:
    [if (p > m) m = p]. *)
Definition max (m p : jsnum) : jsnum := if gt p m then p else m.

End JsNum.

Export JsNum(jsnum).

(** ** JavaScript values and objects *)

(** The values that travel in a record.  [VDate ms] stands for the ISO-8601
    string [new Date(ms).toISOString()] of the instant [ms]. *)
Inductive jsval : Type :=
| VUndef
| VNull
| VBool (b : bool)
| VNum (n : jsnum)
| VStr (s : string)
| VDate (ms : Z)
| VObj (fields : list (string * jsval))
| VArr (items : list jsval).

(** An object literal: its own properties, in insertion order. *)
Definition obj : Type := list (string * jsval).

Definition VInt (z : Z) : jsval := VNum (JsNum.of_Z z).

Module JsObj.

(** [o[k]]; a missing property reads as [undefined]. *)
Fixpoint get (k : string) (o : obj) : jsval :=
  match o with
  | [] => VUndef
  | (k', v) :: r => if String.eqb k k' then v else get k r
  end.

Fixpoint has (k : string) (o : obj) : bool :=
  match o with
  | [] => false
  | (k', _) :: r => if String.eqb k k' then true else has k r
  end.

(** [o[k] = v]: an existing property keeps its place, a new one goes
    last. *)
Fixpoint set (k : string) (v : jsval) (o : obj) : obj :=
  match o with
  | [] => [(k, v)]
  | (k', v') :: r =>
      if String.eqb k k' then (k', v) :: r else (k', v') :: set k v r
  end.

(** [{...o, ...extra}]: the properties of [extra] are written over [o],
    left to right. *)
Definition spread (o extra : obj) : obj :=
  fold_left (fun acc kv => set (fst kv) (snd kv) acc) extra o.

(** [o.a.b]: a property of a nested object. *)
Definition get2 (a b : string) (o : obj) : jsval :=
  match get a o with
  | VObj f => get b f
  | _ => VUndef
  end.

End JsObj.

(** ** DOM nodes *)

(** A node as the tracker reads it.  [el_ref] is the identity of the
    JavaScript object (what [Set.has] and [!==] compare).  A property that
    is [undefined] on the node is [None]: a text node or the document has
    no [tagName], an SVG element has no string [className].  [el_role] is
    [getAttribute('role')].  [el_props] holds the remaining properties
    ([value], [checked], [action], ...). *)
Inductive element : Type := mkElement {
  el_ref : nat;
  el_tagName : option string;
  el_type : option string;
  el_role : option string;
  el_contentEditable : option string;
  el_id : option string;
  el_className : option string;
  el_name : option string;
  el_textContent : option string;
  el_dataset : option (list (string * string));
  el_props : string -> jsval;
  el_parentElement : option element
}.

(** Truthiness of a property that is a string or [undefined]. *)
Definition truthy_opt (s : option string) : bool :=
  match s with
  | Some x => JsString.truthy x
  | None => false
  end.

Definition dquote : string := String (ascii_of_nat 34) EmptyString.

Section Classifier.

Import JsString.

Definition inputTypes : list (string * string) :=
  [ ("checkbox", "checkbox");
    ("radio", "radio");
    ("submit", "submit_button");
    ("button", "input_button");
    ("file", "file_upload");
    ("range", "slider");
    ("color", "color_picker");
    ("date", "date_picker");
    ("time", "time_picker");
    ("search", "search_input");
    ("tel", "phone_input");
    ("url", "url_input");
    ("email", "email_input");
    ("number", "number_input");
    ("password", "password_input") ].

Fixpoint lookup (k : string) (t : list (string * string)) : option string :=
  match t with
  | [] => None
  | (k', v) :: r => if String.eqb k k' then Some v else lookup k r
  end.

Definition headings : list string := ["h1"; "h2"; "h3"; "h4"; "h5"; "h6"].

Definition includes (l : list string) (s : string) : bool :=
  existsb (String.eqb s) l.

(** [getElementType], lines 47-96. *)
Definition getElementType (element : option element) : string :=
  match element with
  | None => "unknown"
  | Some e =>
      if negb (truthy_opt (el_tagName e)) then "unknown" else
      let tag := toLowerCase (match el_tagName e with Some t => t | None => EmptyString end) in
      let type := if truthy_opt (el_type e)
                  then toLowerCase (match el_type e with Some t => t | None => EmptyString end)
                  else EmptyString in
      let role := el_role e in
      let contentEditable :=
        match el_contentEditable e with
        | Some c => String.eqb c "true"
        | None => false
        end in
      if String.eqb tag "button" then "button" else
      if String.eqb tag "a" then "link" else
      if String.eqb tag "img" then "image" else
      if String.eqb tag "video" then "video" else
      if String.eqb tag "audio" then "audio" else
      if String.eqb tag "canvas" then "canvas" else
      if String.eqb tag "svg" then "svg" else
      if String.eqb tag "select" then "dropdown" else
      if String.eqb tag "textarea" then "textarea" else
      if contentEditable then "contenteditable" else
      if String.eqb tag "input" then
        match lookup type inputTypes with
        | Some v => v
        | None => "text_input"
        end
      else
      if includes headings tag then "heading" else
      if String.eqb tag "form" then "form" else
      if String.eqb tag "table" then "table" else
      if String.eqb tag "nav" then "navigation" else
      if String.eqb tag "iframe" then "iframe" else
      if truthy_opt role
      then tag ++ "_" ++ (match role with Some r => r | None => EmptyString end)
      else tag
  end.

(** [getElementIdentifier], lines 98-120. *)
Definition getElementIdentifier (element : option element) : string :=
  match element with
  | None => "unknown"
  | Some e =>
      let id := match el_id e with
                | Some i => if truthy i then "#" ++ i else EmptyString
                | None => EmptyString
                end in
      let classes := match el_className e with
                     | Some c => if truthy c
                                 then "." ++ join "." (split_ws (trim c))
                                 else EmptyString
                     | None => EmptyString
                     end in
      let tag := match el_tagName e with
                 | Some t => if truthy t then toLowerCase t else EmptyString
                 | None => EmptyString
                 end in
      let name := match el_name e with
                  | Some n => if truthy n
                              then "[name=" ++ dquote ++ n ++ dquote ++ "]"
                              else EmptyString
                  | None => EmptyString
                  end in
      let text := match el_textContent e with
                  | Some t =>
                      if truthy t
                      then " " ++ dquote ++ prefix 40 (trim t)
                           ++ (if Nat.ltb 40 (String.length t) then "..." else EmptyString)
                           ++ dquote
                      else EmptyString
                  | None => EmptyString
                  end in
      let dataAttrs := match el_dataset e with
                       | Some d =>
                           map (fun kv => "[data-" ++ fst kv ++ "=" ++ dquote
                                          ++ snd kv ++ dquote ++ "]") d
                       | None => []
                       end in
      let s := trim (tag ++ id ++ classes ++ name ++ join EmptyString dataAttrs ++ text) in
      if truthy s then s else "unknown"
  end.

(** One level of [getElementPath]: ["tag#id.firstClass"].  It fails where
    the source throws: [current.tagName.toLowerCase()] on a node without
    a tag name (line 127). *)
Definition pathSegment (current : element) : option string :=
  match el_tagName current with
  | None => None
  | Some t =>
      let tag := toLowerCase t in
      let id := match el_id current with
                | Some i => if truthy i then "#" ++ i else EmptyString
                | None => EmptyString
                end in
      let cls := match el_className current with
                 | Some c => if truthy c
                             then "." ++ hd EmptyString (split_ws (trim c))
                             else EmptyString
                 | None => EmptyString
                 end in
      Some (tag ++ id ++ cls)
  end.

(** [current !== document.body], on object identity. *)
Definition isBody (body : option element) (current : element) : bool :=
  match body with
  | Some b => Nat.eqb (el_ref current) (el_ref b)
  | None => false
  end.

(** The loop of [getElementPath], lines 126-134: from [current] up to,
    and without, [document.body]; every level is put in front of the
    levels below it. *)
Fixpoint pathLevels (body : option element) (current : element) : option (list string) :=
  if isBody body current then Some [] else
  match pathSegment current with
  | None => None
  | Some seg =>
      match el_parentElement current with
      | None => Some [seg]
      | Some p =>
          match pathLevels body p with
          | None => None
          | Some above => Some (above ++ [seg])%list
          end
      end
  end.

(** [getElementPath] of a node that is not [null]. *)
Definition getElementPath (body : option element) (element : element) : option string :=
  match pathLevels body element with
  | None => None
  | Some levels => Some (join " > " levels)
  end.

End Classifier.

(** ** Configuration, session state and the host page *)

(** [CONFIG], lines 10-20. *)
Record CONFIG : Type := mkCONFIG {
  scrollThrottle : Z;
  mouseMoveThrottle : Z;
  resizeThrottle : Z;
  idleTimeout : Z;
  trackMouseMovement : bool;
  trackKeyboard : bool;
  trackClipboard : bool;
  trackVisibility : bool;
  visibilityThreshold : Q
}.

Definition defaultCONFIG : CONFIG :=
  {| scrollThrottle := 300;
     mouseMoveThrottle := 500;
     resizeThrottle := 500;
     idleTimeout := 30000;
     trackMouseMovement := true;
     trackKeyboard := true;
     trackClipboard := true;
     trackVisibility := true;
     visibilityThreshold := 1 # 2 |}.

(** [STATE], lines 23-33.  [observedElements] is the [Set] of nodes, kept
    as the list of their identities in insertion order. *)
Record STATE : Type := mkSTATE {
  eventCount : Z;
  sessionStart : Z;
  lastActivity : Z;
  observedElements : list nat;
  scrollDepth : jsnum;
  maxScrollDepth : jsnum;
  timeOnPage : Z;
  isIdle : bool;
  mouseTrail : list obj
}.

(** What the tracker reads from [window], [document] and [navigator]:
    the scroll geometry, [document.body], the current selection, and the
    remaining properties by name in [h_prop]. *)
Record host : Type := mkHost {
  h_body : option element;
  h_pageXOffset : jsnum;
  h_pageYOffset : jsnum;
  h_scrollLeft : jsnum;
  h_scrollTop : jsnum;
  h_scrollHeight : jsnum;
  h_innerHeight : jsnum;
  h_selectionText : string;
  h_selectionAnchorParent : option element;
  h_prop : string -> jsval
}.

(** The function a pending timer will call. *)
Inductive callback : Type :=
| CbScroll
| CbResize
| CbIdle
| CbObserve.

(** A pending [setTimeout]: its handle, the instant it is due, and its
    function. *)
Record timer : Type := mkTimer {
  tm_id : nat;
  tm_due : Z;
  tm_cb : callback
}.

(** The listeners that the script registered when it ran; the three
    [if (CONFIG.track...)] tests of lines 348, 387, 428 and 547 are made
    once, at that time. *)
Record listeners : Type := mkListeners {
  onKeyboard : bool;
  onMouseMovement : bool;
  onClipboard : bool;
  onVisibility : bool
}.

(** A call of [logEvent] that reached the sink: the node it was called
    with and the record it printed. *)
Record emission : Type := mkEmission {
  em_element : option element;
  em_data : obj
}.

(** The closure of the script: [STATE], [CONFIG], the variables
    [scrollTimeout], [resizeTimeout], [idleTimer] and [lastMouseLog], the
    host page with its clock and timer queue, and what the sink received,
    the latest record first. *)
Record world : Type := mkWorld {
  st : STATE;
  cfg : CONFIG;
  page : host;
  now : Z;
  timers : list timer;
  nextTimer : nat;
  scrollTimeout : option nat;
  resizeTimeout : option nat;
  idleTimer : option nat;
  lastMouseLog : Z;
  observing : bool;
  registered : listeners;
  emitted : list emission
}.

Section Setters.

Definition set_st (f : STATE -> STATE) (w : world) : world :=
  mkWorld (f (st w)) (cfg w) (page w) (now w) (timers w) (nextTimer w)
          (scrollTimeout w) (resizeTimeout w) (idleTimer w) (lastMouseLog w)
          (observing w) (registered w) (emitted w).

Definition set_page (h : host) (w : world) : world :=
  mkWorld (st w) (cfg w) h (now w) (timers w) (nextTimer w)
          (scrollTimeout w) (resizeTimeout w) (idleTimer w) (lastMouseLog w)
          (observing w) (registered w) (emitted w).

Definition set_now (t : Z) (w : world) : world :=
  mkWorld (st w) (cfg w) (page w) t (timers w) (nextTimer w)
          (scrollTimeout w) (resizeTimeout w) (idleTimer w) (lastMouseLog w)
          (observing w) (registered w) (emitted w).

Definition set_timers (l : list timer) (n : nat) (w : world) : world :=
  mkWorld (st w) (cfg w) (page w) (now w) l n
          (scrollTimeout w) (resizeTimeout w) (idleTimer w) (lastMouseLog w)
          (observing w) (registered w) (emitted w).

Definition set_scrollTimeout (h : option nat) (w : world) : world :=
  mkWorld (st w) (cfg w) (page w) (now w) (timers w) (nextTimer w)
          h (resizeTimeout w) (idleTimer w) (lastMouseLog w)
          (observing w) (registered w) (emitted w).

Definition set_resizeTimeout (h : option nat) (w : world) : world :=
  mkWorld (st w) (cfg w) (page w) (now w) (timers w) (nextTimer w)
          (scrollTimeout w) h (idleTimer w) (lastMouseLog w)
          (observing w) (registered w) (emitted w).

Definition set_idleTimer (h : option nat) (w : world) : world :=
  mkWorld (st w) (cfg w) (page w) (now w) (timers w) (nextTimer w)
          (scrollTimeout w) (resizeTimeout w) h (lastMouseLog w)
          (observing w) (registered w) (emitted w).

Definition set_lastMouseLog (t : Z) (w : world) : world :=
  mkWorld (st w) (cfg w) (page w) (now w) (timers w) (nextTimer w)
          (scrollTimeout w) (resizeTimeout w) (idleTimer w) t
          (observing w) (registered w) (emitted w).

Definition set_observing (b : bool) (w : world) : world :=
  mkWorld (st w) (cfg w) (page w) (now w) (timers w) (nextTimer w)
          (scrollTimeout w) (resizeTimeout w) (idleTimer w) (lastMouseLog w)
          b (registered w) (emitted w).

Definition push_emitted (e : emission) (w : world) : world :=
  mkWorld (st w) (cfg w) (page w) (now w) (timers w) (nextTimer w)
          (scrollTimeout w) (resizeTimeout w) (idleTimer w) (lastMouseLog w)
          (observing w) (registered w) (e :: emitted w).

(** The three writes that open [logEvent], lines 177-179. *)
Definition touch (t : Z) (s : STATE) : STATE :=
  mkSTATE (eventCount s + 1) (sessionStart s) t (observedElements s)
          (scrollDepth s) (maxScrollDepth s) (timeOnPage s) false (mouseTrail s).

Definition with_isIdle (b : bool) (s : STATE) : STATE :=
  mkSTATE (eventCount s) (sessionStart s) (lastActivity s) (observedElements s)
          (scrollDepth s) (maxScrollDepth s) (timeOnPage s) b (mouseTrail s).

Definition with_observed (l : list nat) (s : STATE) : STATE :=
  mkSTATE (eventCount s) (sessionStart s) (lastActivity s) l
          (scrollDepth s) (maxScrollDepth s) (timeOnPage s) (isIdle s) (mouseTrail s).

Definition with_scrollDepth (p : jsnum) (s : STATE) : STATE :=
  mkSTATE (eventCount s) (sessionStart s) (lastActivity s) (observedElements s)
          p (maxScrollDepth s) (timeOnPage s) (isIdle s) (mouseTrail s).

Definition with_maxScrollDepth (p : jsnum) (s : STATE) : STATE :=
  mkSTATE (eventCount s) (sessionStart s) (lastActivity s) (observedElements s)
          (scrollDepth s) p (timeOnPage s) (isIdle s) (mouseTrail s).

Definition with_mouseTrail (l : list obj) (s : STATE) : STATE :=
  mkSTATE (eventCount s) (sessionStart s) (lastActivity s) (observedElements s)
          (scrollDepth s) (maxScrollDepth s) (timeOnPage s) (isIdle s) l.

End Setters.

(** ** The monad of handlers *)

(** A computation reads and writes the world and either returns a value or
    throws ([None]); the world it leaves behind is kept in both cases. *)
Definition M (A : Type) : Type := world -> option A * world.

Definition ret {A : Type} (a : A) : M A := fun w => (Some a, w).

Definition throw {A : Type} : M A := fun w => (None, w).

Definition bind {A B : Type} (m : M A) (k : A -> M B) : M B :=
  fun w =>
    match m w with
    | (Some a, w') => k a w'
    | (None, w') => (None, w')
    end.

Definition gets {A : Type} (f : world -> A) : M A := fun w => (Some (f w), w).

Definition modify (f : world -> world) : M unit := fun w => (Some tt, f w).

(** A value that must be defined, as the receiver of a method call. *)
Definition defined {A : Type} (o : option A) : M A :=
  match o with
  | Some a => ret a
  | None => throw
  end.

Declare Scope tracker_scope.
Delimit Scope tracker_scope with tracker.

Notation "x <- m ;; k" := (bind m (fun x => k))
  (at level 61, m at next level, right associativity) : tracker_scope.
Notation "m ;;; k" := (bind m (fun _ => k))
  (at level 61, right associativity) : tracker_scope.

Local Open Scope tracker_scope.

(** The world a listener leaves, whether it returned or threw: the host
    reports the exception and goes on with the next listener. *)
Definition settle {A : Type} (m : M A) (w : world) : world := snd (m w).

(** ** Utility functions of the script *)

(** [getPageMetadata], lines 139-155. *)
Definition getPageMetadata (h : host) : obj :=
  [ ("url", h_prop h "location.href");
    ("title", h_prop h "document.title");
    ("referrer", h_prop h "document.referrer");
    ("viewport", VObj [ ("width", h_prop h "innerWidth");
                        ("height", VNum (h_innerHeight h)) ]);
    ("screen", VObj [ ("width", h_prop h "screen.width");
                      ("height", h_prop h "screen.height") ]);
    ("userAgent", h_prop h "navigator.userAgent");
    ("language", h_prop h "navigator.language") ].

(** The object that [getScrollInfo] returns. *)
Record scrollInfo : Type := mkScrollInfo {
  scroll_x : jsnum;
  scroll_y : jsnum;
  scroll_percentage : jsnum;
  scroll_height : jsnum;
  viewport_height : jsnum
}.

(** [getScrollInfo], lines 157-170. *)
Definition getScrollInfo (h : host) : scrollInfo :=
  let scrollTop := JsNum.or (h_pageYOffset h) (h_scrollTop h) in
  let scrollHeight := h_scrollHeight h in
  let clientHeight := h_innerHeight h in
  let scrollPercentage :=
    JsNum.or
      (JsNum.round
         (JsNum.mul (JsNum.div scrollTop (JsNum.sub scrollHeight clientHeight))
                    (JsNum.of_Z 100)))
      JsNum.zero in
  {| scroll_x := JsNum.or (h_pageXOffset h) (h_scrollLeft h);
     scroll_y := scrollTop;
     scroll_percentage := scrollPercentage;
     scroll_height := scrollHeight;
     viewport_height := clientHeight |}.

(** The same object as the property list that [logEvent] spreads. *)
Definition scrollInfoObj (i : scrollInfo) : obj :=
  [ ("scroll_x", VNum (scroll_x i));
    ("scroll_y", VNum (scroll_y i));
    ("scroll_percentage", VNum (scroll_percentage i));
    ("scroll_height", VNum (scroll_height i));
    ("viewport_height", VNum (viewport_height i)) ].

(** ** The logging function *)

(** [logEvent], lines 176-236.  The counter, [lastActivity] and [isIdle]
    are written first; the record is then built property by property, and
    [element.tagName.toLowerCase()] (line 188) and [getElementPath] (line
    189) throw on a node without a tag name; the console calls that follow
    are the sink. *)
Definition logEvent (eventType eventObject : string) (element : option element)
    (additionalInfo : obj) : M obj :=
  modify (fun w => set_st (touch (now w)) w) ;;;
  w <- gets (fun w => w) ;;
  let element_identifier :=
    match element with
    | Some _ => getElementIdentifier element
    | None => "N/A"
    end in
  element_tag <- match element with
                 | Some e => t <- defined (el_tagName e) ;; ret (JsString.toLowerCase t)
                 | None => ret "N/A"
                 end ;;
  element_path <- match element with
                  | Some e => defined (getElementPath (h_body (page w)) e)
                  | None => ret "N/A"
                  end ;;
  let logData :=
    JsObj.spread
      [ ("event_number", VInt (eventCount (st w)));
        ("timestamp", VDate (now w));
        ("relative_time_ms", VInt (now w - sessionStart (st w)));
        ("type_of_event", VStr eventType);
        ("event_object", VStr eventObject);
        ("element_identifier", VStr element_identifier);
        ("element_tag", VStr element_tag);
        ("element_path", VStr element_path);
        ("session_info",
          VObj [ ("time_on_page_ms", VInt (now w - sessionStart (st w)));
                 ("total_events", VInt (eventCount (st w)));
                 ("max_scroll_depth", VNum (maxScrollDepth (st w))) ]) ]
      additionalInfo in
  modify (push_emitted (mkEmission element logData)) ;;;
  ret logData.

(** ** Timers *)

(** [setTimeout(cb, delay)]: a new handle, due [delay] ms from now (a
    negative delay counts as zero). *)
Definition setTimeout (cb : callback) (delay : Z) : M nat :=
  fun w =>
    let id := nextTimer w in
    (Some id,
     set_timers (timers w ++ [mkTimer id (now w + Z.max 0 delay) cb]) (S id) w).

(** [clearTimeout(h)]; a handle that is [undefined] or no longer pending
    changes nothing. *)
Definition clearTimeout (h : option nat) : M unit :=
  modify (fun w =>
    match h with
    | Some id =>
        set_timers (filter (fun t => negb (Nat.eqb (tm_id t) id)) (timers w))
                   (nextTimer w) w
    | None => w
    end).

(** ** Idle detection, lines 571-595 *)

(** The function given to [setTimeout] at line 582. *)
Definition idleCallback : M unit :=
  modify (set_st (with_isIdle true)) ;;;
  w <- gets (fun w => w) ;;
  logEvent "user_idle" "session" (h_body (page w))
    [ ("idle_timeout_ms", VInt (idleTimeout (cfg w)));
      ("last_activity", VDate (lastActivity (st w))) ] ;;;
  ret tt.

Definition resetIdleTimer : M unit :=
  h <- gets idleTimer ;;
  clearTimeout h ;;;
  idle <- gets (fun w => isIdle (st w)) ;;
  (if idle
   then
     modify (set_st (with_isIdle false)) ;;;
     w <- gets (fun w => w) ;;
     logEvent "user_active" "session" (h_body (page w))
       [ ("idle_duration_ms", VInt (now w - lastActivity (st w))) ] ;;;
     ret tt
   else ret tt) ;;;
  delay <- gets (fun w => idleTimeout (cfg w)) ;;
  id <- setTimeout CbIdle delay ;;
  modify (set_idleTimer (Some id)).

(** ** Event listeners *)

(** A DOM event: its target node and its other properties by name. *)
Record event : Type := mkEvent {
  ev_target : element;
  ev_prop : string -> jsval
}.

(** An [IntersectionObserverEntry]. *)
Record entry : Type := mkEntry {
  en_target : element;
  en_isIntersecting : bool;
  en_intersectionRatio : jsnum;
  en_boundingClientRect : jsval
}.

(** Truthiness of a value. *)
Definition truthyVal (v : jsval) : bool :=
  match v with
  | VUndef | VNull => false
  | VBool b => b
  | VNum n => JsNum.truthy n
  | VStr s => JsString.truthy s
  | VDate _ | VObj _ | VArr _ => true
  end.

(** The decimal string of a number that [Math.round] returned. *)
Definition roundedToString (n : jsnum) : string :=
  match n with
  | JsNum.NaN => "NaN"
  | JsNum.PosInf => "Infinity"
  | JsNum.NegInf => "-Infinity"
  | JsNum.Fin q => NilZero.string_of_int (Z.to_int (Qfloor q))
  end.

Definition lowerTag (e : element) : M string :=
  t <- defined (el_tagName e) ;; ret (JsString.toLowerCase t).

Definition isContentEditable (e : element) : bool :=
  match el_contentEditable e with
  | Some c => String.eqb c "true"
  | None => false
  end.

Section Handlers.

Variable e : event.

Let elem : element := ev_target e.
Let elementType : string := getElementType (Some (ev_target e)).

(** Line 243. *)
Definition onLoad : M unit :=
  w <- gets (fun w => w) ;;
  logEvent "page_view" "page" (h_body (page w)) (getPageMetadata (page w)) ;;;
  ret tt.

(** Line 248. *)
Definition onClick : M unit :=
  logEvent "click" elementType (Some elem)
    [ ("coordinates", VObj [ ("x", ev_prop e "clientX");
                             ("y", ev_prop e "clientY");
                             ("pageX", ev_prop e "pageX");
                             ("pageY", ev_prop e "pageY") ]);
      ("button", ev_prop e "button");
      ("buttons", ev_prop e "buttons");
      ("ctrl_key", ev_prop e "ctrlKey");
      ("shift_key", ev_prop e "shiftKey");
      ("alt_key", ev_prop e "altKey");
      ("meta_key", ev_prop e "metaKey");
      ("detail", ev_prop e "detail") ] ;;;
  ret tt.

(** Line 270. *)
Definition onDblClick : M unit :=
  logEvent "double_click" elementType (Some elem)
    [ ("coordinates", VObj [ ("x", ev_prop e "clientX");
                             ("y", ev_prop e "clientY") ]) ] ;;;
  ret tt.

(** Line 280. *)
Definition onContextMenu : M unit :=
  logEvent "right_click" elementType (Some elem)
    [ ("coordinates", VObj [ ("x", ev_prop e "clientX");
                             ("y", ev_prop e "clientY") ]) ] ;;;
  ret tt.

(** The mask of line 295. *)
Definition redactedValue (el : element) : jsval :=
  match el_type el with
  | Some t => if String.eqb t "password" then VStr "***" else el_props el "value"
  | None => el_props el "value"
  end.

(** Line 290.  [el_props el "selectedOptions"] is the array of the
    selected options' values, or [undefined]. *)
Definition onChange : M unit :=
  logEvent "change" elementType (Some elem)
    [ ("value", redactedValue elem);
      ("checked", el_props elem "checked");
      ("selected_index", el_props elem "selectedIndex");
      ("selected_options",
        if truthyVal (el_props elem "selectedOptions")
        then el_props elem "selectedOptions"
        else VUndef) ] ;;;
  ret tt.

(** Line 304. *)
Definition onInput : M unit :=
  logEvent "input" elementType (Some elem)
    [ ("value_length",
        if truthyVal (el_props elem "value")
        then match el_props elem "value" with
             | VStr s => VInt (Z.of_nat (String.length s))
             | VArr l => VInt (Z.of_nat (List.length l))
             | _ => VUndef
             end
        else VInt 0);
      ("input_type", ev_prop e "inputType") ] ;;;
  ret tt.

(** Lines 315 and 326: [element.tagName.toLowerCase()] is evaluated
    before the test. *)
Definition onFocusLike (kind : string) : M unit :=
  tag <- lowerTag elem ;;
  if (includes ["input"; "select"; "textarea"; "button"] tag
      || isContentEditable elem)%bool
  then logEvent kind elementType (Some elem) [] ;;; ret tt
  else ret tt.

Definition onFocus : M unit := onFocusLike "focus".
Definition onBlur : M unit := onFocusLike "blur".

(** Line 337.  [new FormData(element).entries()] is an iterator, whose
    [length] is [undefined]. *)
Definition onSubmit : M unit :=
  logEvent "submit" "form" (Some elem)
    [ ("action", el_props elem "action");
      ("method", el_props elem "method");
      ("form_data_count", VUndef) ] ;;;
  ret tt.

(** Line 349. *)
Definition onKeyDown : M unit :=
  logEvent "keyboard" "keydown" (Some elem)
    [ ("key", ev_prop e "key");
      ("code", ev_prop e "code");
      ("key_code", ev_prop e "keyCode");
      ("ctrl_key", ev_prop e "ctrlKey");
      ("shift_key", ev_prop e "shiftKey");
      ("alt_key", ev_prop e "altKey");
      ("meta_key", ev_prop e "metaKey");
      ("repeat", ev_prop e "repeat") ] ;;;
  ret tt.

(** Line 362. *)
Definition onKeyUp : M unit :=
  logEvent "keyboard" "keyup" (Some elem)
    [ ("key", ev_prop e "key");
      ("code", ev_prop e "code") ] ;;;
  ret tt.

(** Line 391: the trail keeps the last ten positions; a record is
    logged when more than [mouseMoveThrottle] ms have passed since the
    last logged one, otherwise the signal is dropped. *)
Definition onMouseMove : M unit :=
  modify (fun w =>
    set_st (fun s =>
      let trail := (mouseTrail s ++ [[ ("x", ev_prop e "clientX");
                                       ("y", ev_prop e "clientY");
                                       ("time", VInt (now w)) ]])%list in
      with_mouseTrail
        (if Nat.ltb 10 (List.length trail) then tl trail else trail) s) w) ;;;
  w <- gets (fun w => w) ;;
  if (mouseMoveThrottle (cfg w) <? now w - lastMouseLog w)
  then
    modify (set_lastMouseLog (now w)) ;;;
    logEvent "mouse_move" "cursor" (Some elem)
      [ ("coordinates", VObj [ ("x", ev_prop e "clientX");
                               ("y", ev_prop e "clientY") ]);
        ("movement", VObj [ ("x", ev_prop e "movementX");
                            ("y", ev_prop e "movementY") ]);
        ("buttons", ev_prop e "buttons") ] ;;;
    ret tt
  else ret tt.

(** Lines 409 and 418. *)
Definition onMouseEnterLike (kind : string) : M unit :=
  if (truthy_opt (el_tagName elem)
      && includes ["button"; "a"; "img"]
           (JsString.toLowerCase
              (match el_tagName elem with Some t => t | None => EmptyString end)))%bool
  then logEvent kind elementType (Some elem) [] ;;; ret tt
  else ret tt.

Definition onMouseEnter : M unit := onMouseEnterLike "mouse_enter".
Definition onMouseLeave : M unit := onMouseEnterLike "mouse_leave".

(** Lines 429 and 437. *)
Definition onCopyLike (kind : string) : M unit :=
  selection <- gets (fun w => h_selectionText (page w)) ;;
  logEvent kind "text" (Some elem)
    [ ("text_length", VInt (Z.of_nat (String.length selection)));
      ("text_preview", VStr (JsString.prefix 50 selection)) ] ;;;
  ret tt.

Definition onCopy : M unit := onCopyLike "copy".
Definition onCut : M unit := onCopyLike "cut".

(** Line 445. *)
Definition onPaste : M unit :=
  logEvent "paste" "text" (Some elem)
    [ ("element_type", VStr (getElementType (Some elem))) ] ;;;
  ret tt.

(** The test of lines 495, 505 and 514. *)
Definition isMedia (el : element) : bool :=
  (truthy_opt (el_tagName el)
   && includes ["video"; "audio"]
        (JsString.toLowerCase
           (match el_tagName el with Some t => t | None => EmptyString end)))%bool.

Definition onMedia (kind : string) (info : obj) : M unit :=
  if isMedia elem
  then
    tag <- lowerTag elem ;;
    logEvent kind tag (Some elem) info ;;;
    ret tt
  else ret tt.

(** Line 494. *)
Definition onPlay : M unit :=
  onMedia "media_play"
    [ ("current_time", el_props elem "currentTime");
      ("duration", el_props elem "duration");
      ("src", el_props elem "src") ].

(** Line 504. *)
Definition onPause : M unit :=
  onMedia "media_pause"
    [ ("current_time", el_props elem "currentTime");
      ("duration", el_props elem "duration") ].

(** Line 513. *)
Definition onEnded : M unit := onMedia "media_ended" [].

(** Lines 531 and 535. *)
Definition onDragStart : M unit :=
  logEvent "drag_start" (getElementType (Some elem)) (Some elem) [] ;;; ret tt.

Definition onDragEnd : M unit :=
  logEvent "drag_end" (getElementType (Some elem)) (Some elem) [] ;;; ret tt.

(** Line 539. *)
Definition onDrop : M unit :=
  logEvent "drop" (getElementType (Some elem)) (Some elem)
    [ ("files_count", ev_prop e "dataTransfer.files.length");
      ("types", ev_prop e "dataTransfer.types") ] ;;;
  ret tt.

End Handlers.

(** Line 372: every scroll signal cancels the pending callback and starts
    the delay again. *)
Definition onScroll : M unit :=
  h <- gets scrollTimeout ;;
  clearTimeout h ;;;
  delay <- gets (fun w => scrollThrottle (cfg w)) ;;
  id <- setTimeout CbScroll delay ;;
  modify (set_scrollTimeout (Some id)).

(** The function given to [setTimeout] at line 374. *)
Definition scrollCallback : M unit :=
  w <- gets (fun w => w) ;;
  let scrollInfo := getScrollInfo (page w) in
  modify (set_st (with_scrollDepth (scroll_percentage scrollInfo))) ;;;
  (if JsNum.gt (scroll_percentage scrollInfo) (maxScrollDepth (st w))
   then modify (set_st (with_maxScrollDepth (scroll_percentage scrollInfo)))
   else ret tt) ;;;
  logEvent "scroll" "page" (h_body (page w)) (scrollInfoObj scrollInfo) ;;;
  ret tt.

(** Line 454. *)
Definition onResize : M unit :=
  h <- gets resizeTimeout ;;
  clearTimeout h ;;;
  delay <- gets (fun w => resizeThrottle (cfg w)) ;;
  id <- setTimeout CbResize delay ;;
  modify (set_resizeTimeout (Some id)).

(** The function given to [setTimeout] at line 456. *)
Definition resizeCallback : M unit :=
  w <- gets (fun w => w) ;;
  logEvent "resize" "window" (h_body (page w))
    [ ("viewport", VObj [ ("width", h_prop (page w) "innerWidth");
                          ("height", VNum (h_innerHeight (page w))) ]);
      ("orientation",
        if truthyVal (h_prop (page w) "screen.orientation")
        then h_prop (page w) "screen.orientation.type"
        else VStr "unknown") ] ;;;
  ret tt.

(** Line 468. *)
Definition onVisibilityChange : M unit :=
  w <- gets (fun w => w) ;;
  logEvent "visibility_change" "page" (h_body (page w))
    [ ("visibility_state", h_prop (page w) "document.visibilityState");
      ("hidden", h_prop (page w) "document.hidden") ] ;;;
  ret tt.

(** Lines 476 and 480. *)
Definition onConnection (which : string) : M unit :=
  w <- gets (fun w => w) ;;
  logEvent "connection" which (h_body (page w)) [] ;;;
  ret tt.

(** Line 485. *)
Definition onBeforeUnload : M unit :=
  w <- gets (fun w => w) ;;
  logEvent "page_exit" "page" (h_body (page w))
    [ ("time_on_page", VInt (now w - sessionStart (st w)));
      ("total_events", VInt (eventCount (st w)));
      ("max_scroll_depth", VNum (maxScrollDepth (st w))) ] ;;;
  ret tt.

(** Line 520. *)
Definition onSelectionChange : M unit :=
  w <- gets (fun w => w) ;;
  let selection := h_selectionText (page w) in
  if Nat.ltb 0 (String.length selection)
  then
    logEvent "text_selection" "text" (h_selectionAnchorParent (page w))
      [ ("selected_text", VStr (JsString.prefix 100 selection));
        ("selection_length", VInt (Z.of_nat (String.length selection))) ] ;;;
    ret tt
  else ret tt.

(** ** Element visibility tracking, lines 547-569 *)

(** [l.forEach(f)]: an exception in [f] ends the loop. *)
Fixpoint forEach {A : Type} (f : A -> M unit) (l : list A) : M unit :=
  match l with
  | [] => ret tt
  | x :: r => f x ;;; forEach f r
  end.

(** [STATE.observedElements.has(node)]. *)
Definition observed (s : STATE) (node : element) : bool :=
  existsb (Nat.eqb (el_ref node)) (observedElements s).

(** The body of the [forEach] at line 549. *)
Definition observerEntry (en : entry) : M unit :=
  seen <- gets (fun w => observed (st w) (en_target en)) ;;
  if (en_isIntersecting en && negb seen)%bool
  then
    modify (set_st (fun s =>
      with_observed (observedElements s ++ [el_ref (en_target en)])%list s)) ;;;
    let elementType := getElementType (Some (en_target en)) in
    logEvent "view" elementType (Some (en_target en))
      [ ("visibility_ratio",
          VStr (roundedToString
                  (JsNum.round (JsNum.mul (en_intersectionRatio en) (JsNum.of_Z 100)))
                ++ "%"));
        ("bounding_rect", en_boundingClientRect en) ] ;;;
    ret tt
  else ret tt.

(** The callback given to [IntersectionObserver] at line 548. *)
Definition observerCallback (entries : list entry) : M unit :=
  forEach observerEntry entries.

(** The function given to [setTimeout] at line 562: from then on the
    observer has targets and the host delivers entries. *)
Definition observeCallback : M unit := modify (set_observing true).

(** ** Signals and their dispatch *)

(** What the host delivers.  [SPage h] is a change of the page itself
    (layout, scroll position, selection) that calls no listener; the other
    signals are DOM events.  [SScroll] is a scroll of the viewport, whose
    event reaches [window]; [SScrollElement] is a scroll inside an
    element, seen by the capturing listeners of [document] only. *)
Inductive signal : Type :=
| SPage (h : host)
| SLoad
| SClick (e : event)
| SDblClick (e : event)
| SContextMenu (e : event)
| SChange (e : event)
| SInput (e : event)
| SFocus (e : event)
| SBlur (e : event)
| SSubmit (e : event)
| SKeyDown (e : event)
| SKeyUp (e : event)
| SKeyPress (e : event)
| SScroll
| SScrollElement (e : event)
| SMouseMove (e : event)
| SMouseDown (e : event)
| STouchStart (e : event)
| SMouseEnter (e : event)
| SMouseLeave (e : event)
| SCopy (e : event)
| SCut (e : event)
| SPaste (e : event)
| SResize
| SVisibilityChange
| SOnline
| SOffline
| SBeforeUnload
| SPlay (e : event)
| SPause (e : event)
| SEnded (e : event)
| SSelectionChange
| SDragStart (e : event)
| SDragEnd (e : event)
| SDrop (e : event)
| SIntersection (entries : list entry).

Definition when (b : bool) (l : list (M unit)) : list (M unit) :=
  if b then l else [].

(** The listeners a signal reaches, in the order the host calls them: the
    capturing listeners of [document] in the order of their registration,
    then the bubbling ones, then those of [window]. *)
Definition listenersOf (r : listeners) (observes : bool) (s : signal) : list (M unit) :=
  match s with
  | SPage h => [modify (set_page h)]
  | SLoad => [onLoad]
  | SClick e => [onClick e; resetIdleTimer]
  | SDblClick e => [onDblClick e]
  | SContextMenu e => [onContextMenu e]
  | SChange e => [onChange e]
  | SInput e => [onInput e]
  | SFocus e => [onFocus e]
  | SBlur e => [onBlur e]
  | SSubmit e => [onSubmit e]
  | SKeyDown e => when (onKeyboard r) [onKeyDown e]
  | SKeyUp e => when (onKeyboard r) [onKeyUp e]
  | SKeyPress _ => [resetIdleTimer]
  | SScroll => [resetIdleTimer; onScroll]
  | SScrollElement _ => [resetIdleTimer]
  | SMouseMove e => resetIdleTimer :: when (onMouseMovement r) [onMouseMove e]
  | SMouseDown _ => [resetIdleTimer]
  | STouchStart _ => [resetIdleTimer]
  | SMouseEnter e => [onMouseEnter e]
  | SMouseLeave e => [onMouseLeave e]
  | SCopy e => when (onClipboard r) [onCopy e]
  | SCut e => when (onClipboard r) [onCut e]
  | SPaste e => when (onClipboard r) [onPaste e]
  | SResize => [onResize]
  | SVisibilityChange => [onVisibilityChange]
  | SOnline => [onConnection "online"]
  | SOffline => [onConnection "offline"]
  | SBeforeUnload => [onBeforeUnload]
  | SPlay e => [onPlay e]
  | SPause e => [onPause e]
  | SEnded e => [onEnded e]
  | SSelectionChange => [onSelectionChange]
  | SDragStart e => [onDragStart e]
  | SDragEnd e => [onDragEnd e]
  | SDrop e => [onDrop e]
  | SIntersection entries =>
      when (onVisibility r && observes)%bool [observerCallback entries]
  end.

(** Runs listeners one after the other, each from the world the previous
    one left. *)
Definition runListeners (l : list (M unit)) (w : world) : world :=
  fold_left (fun w' h => settle h w') l w.

Definition dispatch (s : signal) (w : world) : world :=
  runListeners (listenersOf (registered w) (observing w) s) w.

(** ** The timer queue *)

Definition callbackOf (cb : callback) : M unit :=
  match cb with
  | CbScroll => scrollCallback
  | CbResize => resizeCallback
  | CbIdle => idleCallback
  | CbObserve => observeCallback
  end.

(** [a] is called before [b]: it is due earlier, or at the same instant
    and was set earlier. *)
Definition firesBefore (a b : timer) : bool :=
  ((tm_due a <? tm_due b)
   || ((tm_due a =? tm_due b) && Nat.leb (tm_id a) (tm_id b)))%bool.

(** The pending timer that is called first among those due by [t]. *)
Fixpoint nextDue (t : Z) (l : list timer) : option timer :=
  match l with
  | [] => None
  | x :: r =>
      match nextDue t r with
      | Some y => if (tm_due x <=? t) && firesBefore x y then Some x else Some y
      | None => if tm_due x <=? t then Some x else None
      end
  end%bool.

(** Calls one timer: it leaves the queue, the clock moves to its due
    instant (never backwards), and its function runs. *)
Definition fire (x : timer) (w : world) : world :=
  let w1 := set_timers (filter (fun y => negb (Nat.eqb (tm_id y) (tm_id x))) (timers w))
                       (nextTimer w) w in
  let w2 := set_now (Z.max (now w1) (tm_due x)) w1 in
  settle (callbackOf (tm_cb x)) w2.

(** Calls, in order, the timers due by [t]; [fuel] bounds the number of
    calls. *)
Fixpoint advanceFuel (fuel : nat) (t : Z) (w : world) : world :=
  match fuel with
  | O => w
  | S n =>
      match nextDue t (timers w) with
      | Some x => advanceFuel n t (fire x w)
      | None => w
      end
  end.

(** No callback of the script sets a timer, so each call shortens the
    queue and its length is fuel enough (see [advance_complete]). *)
Definition advance (t : Z) (w : world) : world :=
  advanceFuel (List.length (timers w)) t w.

(** ** Runs *)

(** A signal and the instant the host delivers it. *)
Record timed : Type := At {
  at_time : Z;
  at_signal : signal
}.

(** One delivery: the timers due by then are called first, then the clock
    is at the instant of the signal and its listeners run. *)
Definition deliver (x : timed) (w : world) : world :=
  let w1 := advance (at_time x) w in
  dispatch (at_signal x) (set_now (Z.max (now w1) (at_time x)) w1).

Definition run (l : list timed) (w : world) : world :=
  fold_left (fun w' x => deliver x w') l w.

(** The world once the script has run at instant [t0] on page [h] with the
    configuration [c]: [STATE] of lines 23-33, the listeners registered
    according to [c], the timer of line 562 when visibility is tracked,
    and the first [resetIdleTimer()] of line 595. *)
Definition boot (c : CONFIG) (h : host) (t0 : Z) : world :=
  let s := {| eventCount := 0;
              sessionStart := t0;
              lastActivity := t0;
              observedElements := [];
              scrollDepth := JsNum.zero;
              maxScrollDepth := JsNum.zero;
              timeOnPage := 0;
              isIdle := false;
              mouseTrail := [] |} in
  let r := {| onKeyboard := trackKeyboard c;
              onMouseMovement := trackMouseMovement c;
              onClipboard := trackClipboard c;
              onVisibility := trackVisibility c |} in
  let w0 := {| st := s; cfg := c; page := h; now := t0;
               timers := []; nextTimer := 1;
               scrollTimeout := None; resizeTimeout := None; idleTimer := None;
               lastMouseLog := 0; observing := false; registered := r;
               emitted := [] |} in
  let w1 := if trackVisibility c
            then settle (setTimeout CbObserve 1000) w0
            else w0 in
  settle resetIdleTimer w1.

(** The script as it is shipped. *)
Definition start (h : host) (t0 : Z) : world := boot defaultCONFIG h t0.

(** The records the sink received, the earliest first. *)
Definition records (w : world) : list emission := rev (emitted w).

(** * Derived definitions *)

(** ** The record of a call *)

(** The properties that [logEvent] writes itself, before the spread of
    [additionalInfo]; [w] is the world after the three opening writes. *)
Definition baseRecord (w : world) (eventType eventObject : string)
    (identifier tag path : string) : obj :=
  [ ("event_number", VInt (eventCount (st w)));
    ("timestamp", VDate (now w));
    ("relative_time_ms", VInt (now w - sessionStart (st w)));
    ("type_of_event", VStr eventType);
    ("event_object", VStr eventObject);
    ("element_identifier", VStr identifier);
    ("element_tag", VStr tag);
    ("element_path", VStr path);
    ("session_info",
      VObj [ ("time_on_page_ms", VInt (now w - sessionStart (st w)));
             ("total_events", VInt (eventCount (st w)));
             ("max_scroll_depth", VNum (maxScrollDepth (st w))) ]) ].

(** A node on which [logEvent] does not throw: it has a tag name, and so
    has every ancestor that [getElementPath] visits. *)
Definition loggable (body : option element) (el : element) : bool :=
  match el_tagName el, getElementPath body el with
  | Some _, Some _ => true
  | _, _ => false
  end.

Definition loggableOpt (body : option element) (el : option element) : bool :=
  match el with
  | Some e => loggable body e
  | None => true
  end.

(** The record that [logEvent] builds in the world [w] it has written to,
    or [None] where it throws. *)
Definition recordOf (eventType eventObject : string) (element : option element)
    (additionalInfo : obj) (w : world) : option obj :=
  match element with
  | None =>
      Some (JsObj.spread (baseRecord w eventType eventObject "N/A" "N/A" "N/A")
                         additionalInfo)
  | Some e =>
      match el_tagName e, getElementPath (h_body (page w)) e with
      | Some t, Some p =>
          Some (JsObj.spread
                  (baseRecord w eventType eventObject (getElementIdentifier element)
                              (JsString.toLowerCase t) p)
                  additionalInfo)
      | _, _ => None
      end
  end.

(** The world after the three opening writes of [logEvent]. *)
Definition touched (w : world) : world := set_st (touch (now w)) w.

(** The last value written under [k] by a spread of [extra] over an object
    that held [d] there. *)
Fixpoint override (k : string) (extra : obj) (d : jsval) : jsval :=
  match extra with
  | [] => d
  | (k', v) :: r => override k r (if String.eqb k k' then v else d)
  end.

(** ** Reading records *)

Definition typeOf (d : obj) : jsval := JsObj.get "type_of_event" d.

Definition numberOf (d : obj) : jsval := JsObj.get "event_number" d.

Definition hasType (ty : string) (m : emission) : bool :=
  match typeOf (em_data m) with
  | VStr s => String.eqb s ty
  | _ => false
  end.

(** The records of type [ty], the earliest first. *)
Definition recordsOfType (ty : string) (w : world) : list emission :=
  filter (hasType ty) (records w).

(** ** Kinds of listeners *)

(** The names under which [logEvent] writes its own properties. *)
Definition baseKeys : list string :=
  [ "event_number"; "timestamp"; "relative_time_ms"; "type_of_event";
    "event_object"; "element_identifier"; "element_tag"; "element_path";
    "session_info" ].

(** An [additionalInfo] that overwrites none of them. *)
Definition plainInfo (info : obj) : bool :=
  forallb (fun kv => negb (includes baseKeys (fst kv))) info.

(** The event types of the listeners that do nothing but call [logEvent]
    at most once. *)
Definition rawTypes : list string :=
  [ "page_view"; "click"; "double_click"; "right_click"; "change"; "input";
    "focus"; "blur"; "submit"; "keyboard"; "mouse_enter"; "mouse_leave";
    "copy"; "cut"; "paste"; "resize"; "visibility_change"; "connection";
    "page_exit"; "media_play"; "media_pause"; "media_ended";
    "text_selection"; "drag_start"; "drag_end"; "drop" ].

(** Such a listener: from every world it either changes nothing or has the
    effect of one call of [logEvent] with a raw type and a plain
    [additionalInfo]. *)
Definition logsOnly (m : M unit) : Prop :=
  forall w,
    settle m w = w \/
    exists ty ob el info,
      In ty rawTypes /\ plainInfo info = true /\
      settle m w = settle (logEvent ty ob el info) w.

(** ** The classifier in the order of the specification *)

(** The explicit tag-to-type table of the specification, heading levels,
    form, table, nav and iframe included. *)
Definition tagTable : list (string * string) :=
  [ ("button", "button"); ("a", "link"); ("img", "image"); ("video", "video");
    ("audio", "audio"); ("canvas", "canvas"); ("svg", "svg");
    ("select", "dropdown"); ("textarea", "textarea");
    ("h1", "heading"); ("h2", "heading"); ("h3", "heading");
    ("h4", "heading"); ("h5", "heading"); ("h6", "heading");
    ("form", "form"); ("table", "table"); ("nav", "navigation");
    ("iframe", "iframe") ].

(** The classifier as the specification words it: the whole tag table
    first, then the content-editable flag, then the input sub-table with
    its default, then the role, then the tag. *)
Definition classifyInSpecOrder (element : option element) : string :=
  match element with
  | None => "unknown"
  | Some e =>
      if negb (truthy_opt (el_tagName e)) then "unknown" else
      let tag := JsString.toLowerCase
                   (match el_tagName e with Some t => t | None => EmptyString end) in
      let type := if truthy_opt (el_type e)
                  then JsString.toLowerCase
                         (match el_type e with Some t => t | None => EmptyString end)
                  else EmptyString in
      match lookup tag tagTable with
      | Some v => v
      | None =>
          if isContentEditable e then "contenteditable" else
          if String.eqb tag "input" then
            match lookup type inputTypes with
            | Some v => v
            | None => "text_input"
            end
          else
          if truthy_opt (el_role e)
          then tag ++ "_" ++ (match el_role e with Some r => r | None => EmptyString end)
          else tag
      end
  end.

(** The tags that the source tests after the content-editable flag. *)
Definition lateTags : list string :=
  [ "h1"; "h2"; "h3"; "h4"; "h5"; "h6"; "form"; "table"; "nav"; "iframe" ].

(** A node whose tag the source looks up only after the content-editable
    flag, and whose flag is set. *)
Definition editableLateTag (element : option element) : bool :=
  match element with
  | None => false
  | Some e =>
      (isContentEditable e
       && includes lateTags
            (JsString.toLowerCase
               (match el_tagName e with Some t => t | None => EmptyString end)))%bool
  end.

(** ** Sample nodes and pages *)

Definition noProps : string -> jsval := fun _ => VUndef.

(** A node with a tag name and nothing else. *)
Definition plainNode (ref : nat) (tagName : string) (parent : option element) : element :=
  {| el_ref := ref; el_tagName := Some tagName; el_type := None; el_role := None;
     el_contentEditable := Some "inherit"; el_id := None; el_className := None;
     el_name := None; el_textContent := None; el_dataset := None;
     el_props := noProps; el_parentElement := parent |}.

Definition bodyNode : element := plainNode 1 "BODY" None.

(** [<form contenteditable="true">]. *)
Definition editableForm : element :=
  {| el_ref := 2; el_tagName := Some "FORM"; el_type := None; el_role := None;
     el_contentEditable := Some "true"; el_id := None; el_className := Some EmptyString;
     el_name := Some EmptyString; el_textContent := None; el_dataset := Some [];
     el_props := noProps; el_parentElement := Some bodyNode |}.

(** A text node holding [hello]: no tag name, no attributes. *)
Definition textNode : element :=
  {| el_ref := 3; el_tagName := None; el_type := None; el_role := None;
     el_contentEditable := None; el_id := None; el_className := None;
     el_name := None; el_textContent := Some "hello"; el_dataset := None;
     el_props := noProps; el_parentElement := Some bodyNode |}.

(** [<button>] under the body. *)
Definition buttonNode : element := plainNode 4 "BUTTON" (Some bodyNode).

(** [<input type="password" value=v>]. *)
Definition passwordInput (v : string) : element :=
  {| el_ref := 5; el_tagName := Some "INPUT"; el_type := Some "password";
     el_role := None; el_contentEditable := Some "inherit"; el_id := Some "pw";
     el_className := Some EmptyString; el_name := Some "password";
     el_textContent := Some EmptyString; el_dataset := Some [];
     el_props := fun k => if String.eqb k "value" then VStr v else VUndef;
     el_parentElement := Some bodyNode |}.

(** A page of scroll height [scrollHeight] shown in a window of height
    [innerHeight] and scrolled down by [scrollTop]. *)
Definition pageAt (scrollTop scrollHeight innerHeight : Z) : host :=
  {| h_body := Some bodyNode;
     h_pageXOffset := JsNum.zero;
     h_pageYOffset := JsNum.of_Z scrollTop;
     h_scrollLeft := JsNum.zero;
     h_scrollTop := JsNum.of_Z scrollTop;
     h_scrollHeight := JsNum.of_Z scrollHeight;
     h_innerHeight := JsNum.of_Z innerHeight;
     h_selectionText := EmptyString;
     h_selectionAnchorParent := None;
     h_prop := noProps |}.

Definition somePage : host := pageAt 0 1000 500.

(** An event on [target] whose named properties are those of [props]. *)
Definition eventOn (target : element) (props : obj) : event :=
  {| ev_target := target; ev_prop := fun k => JsObj.get k props |}.

(** The node [el] with its [value] property set to [v]. *)
Definition withValue (v : jsval) (el : element) : element :=
  {| el_ref := el_ref el; el_tagName := el_tagName el; el_type := el_type el;
     el_role := el_role el; el_contentEditable := el_contentEditable el;
     el_id := el_id el; el_className := el_className el; el_name := el_name el;
     el_textContent := el_textContent el; el_dataset := el_dataset el;
     el_props := fun k => if String.eqb k "value" then v else el_props el k;
     el_parentElement := el_parentElement el |}.

(** A record that has every property [logEvent] writes. *)
Definition validRecord (d : obj) : bool :=
  forallb (fun k => JsObj.has k d) baseKeys.

(** A node none of whose identifying fields holds anything. *)
Definition anonymous (e : element) : bool :=
  (negb (truthy_opt (el_tagName e))
   && negb (truthy_opt (el_id e))
   && negb (truthy_opt (el_className e))
   && negb (truthy_opt (el_name e))
   && negb (truthy_opt (el_textContent e))
   && match el_dataset e with Some (_ :: _) => false | _ => true end)%bool.

(** ** Runs over admissible pages *)

(** The signals of a run change the page to admissible pages only. *)
Definition pagesIn (okPage : host -> Prop) (l : list timed) : Prop :=
  Forall (fun x => match at_signal x with
                   | SPage h => okPage h
                   | _ => True
                   end) l.

Definition anyPage (h : host) : Prop := True.

(** ** The special listeners, step by step *)

(** The end of [resetIdleTimer]: a new idle timer is set and its handle
    kept. *)
Definition rearmed (w : world) : world :=
  set_idleTimer (Some (nextTimer w))
    (settle (setTimeout CbIdle (idleTimeout (cfg w))) w).

(** The [additionalInfo] of the three session records. *)
Definition activeInfo (w : world) : obj :=
  [ ("idle_duration_ms", VInt (now w - lastActivity (st w))) ].

Definition idleInfo (w : world) : obj :=
  [ ("idle_timeout_ms", VInt (idleTimeout (cfg w)));
    ("last_activity", VDate (lastActivity (st w))) ].

Definition viewInfo (en : entry) : obj :=
  [ ("visibility_ratio",
      VStr (roundedToString
              (JsNum.round (JsNum.mul (en_intersectionRatio en) (JsNum.of_Z 100)))
            ++ "%"));
    ("bounding_rect", en_boundingClientRect en) ].

Definition mouseMoveInfo (e : event) : obj :=
  [ ("coordinates", VObj [ ("x", ev_prop e "clientX");
                           ("y", ev_prop e "clientY") ]);
    ("movement", VObj [ ("x", ev_prop e "movementX");
                        ("y", ev_prop e "movementY") ]);
    ("buttons", ev_prop e "buttons") ].

(** The first statement of the mouse-move listener: the trail. *)
Definition trailed (e : event) (w : world) : world :=
  set_st (fun s =>
    let trail := (mouseTrail s ++ [[ ("x", ev_prop e "clientX");
                                     ("y", ev_prop e "clientY");
                                     ("time", VInt (now w)) ]])%list in
    with_mouseTrail
      (if Nat.ltb 10 (List.length trail) then tl trail else trail) s) w.

(** The writes of the scroll callback before it logs. *)
Definition scrolled (w : world) : world :=
  let p := scroll_percentage (getScrollInfo (page w)) in
  let w1 := set_st (with_scrollDepth p) w in
  if JsNum.gt p (maxScrollDepth (st w))
  then set_st (with_maxScrollDepth p) w1
  else w1.

(** The node is put in [observedElements]. *)
Definition noted (en : entry) (w : world) : world :=
  set_st (fun s =>
    with_observed (observedElements s ++ [el_ref (en_target en)])%list s) w.

(** The event types of the listeners that only log and of the idle
    detection. *)
Definition sessionTypes : list string :=
  (rawTypes ++ ["user_idle"; "user_active"])%list.

(** ** Properties of worlds *)

(** No record of type [ty] has been emitted. *)
Definition noneOfType (ty : string) (w : world) : Prop :=
  filter (hasType ty) (emitted w) = [].

(** The idle flag is down and no [user_active] record exists. *)
Definition neverActive (w : world) : Prop :=
  isIdle (st w) = false /\ noneOfType "user_active" w.




(** The numbers [1], ..., [n] as they stand in records. *)
Definition firstNumbers (n : nat) : list jsval :=
  map (fun k => VInt (Z.of_nat k)) (seq 1 n).

(** The sequence numbers of the records, the earliest first. *)
Definition numbers (w : world) : list jsval :=
  map (fun m => numberOf (em_data m)) (records w).

(** The counter is never behind the number of records, and when no call
    was lost the records are numbered from 1 without a gap. *)
Definition numberedInOrder (w : world) : Prop :=
  Z.of_nat (List.length (emitted w)) <= eventCount (st w)
  /\ (Z.of_nat (List.length (emitted w)) = eventCount (st w) ->
      numbers w = firstNumbers (List.length (emitted w))).

(** ** Scroll depth *)

(** [document.body] is absent or has a tag name, so that the page-level
    listeners reach the sink. *)
Definition bodyOk (h : host) : Prop :=
  loggableOpt (h_body h) (h_body h) = true.

(** The [scroll_percentage] of a scroll record. *)
Definition pctOf (m : emission) : jsnum :=
  match JsObj.get "scroll_percentage" (em_data m) with
  | VNum p => p
  | _ => JsNum.NaN
  end.

(** The [session_info.max_scroll_depth] of a record. *)
Definition snapshotOf (m : emission) : jsnum :=
  match JsObj.get2 "session_info" "max_scroll_depth" (em_data m) with
  | VNum p => p
  | _ => JsNum.NaN
  end.

(** The maximum of the numbers of [l] and of [m], one step at a time. *)
Fixpoint runningMax (m : jsnum) (l : list jsnum) : list jsnum :=
  match l with
  | [] => []
  | p :: r => JsNum.max m p :: runningMax (JsNum.max m p) r
  end.

(** The maximum of the percentages of [l], over the initial depth 0. *)
Definition maximumOf (l : list jsnum) : jsnum :=
  fold_left JsNum.max l JsNum.zero.

(** The percentages of the scroll records, the earliest first. *)
Definition percentagesSeen (w : world) : list jsnum :=
  map pctOf (recordsOfType "scroll" w).

(** [maxScrollDepth] is the maximum of the percentages seen so far, and
    the snapshot in every scroll record is the maximum up to and with
    that record. *)
Definition tracksMaximum (w : world) : Prop :=
  bodyOk (page w)
  /\ Forall (fun p => JsNum.is_nan p = false) (percentagesSeen w)
  /\ maxScrollDepth (st w) = maximumOf (percentagesSeen w)
  /\ map snapshotOf (recordsOfType "scroll" w)
       = runningMax JsNum.zero (percentagesSeen w).

(** [maxScrollDepth] is a number, at least [m0]. *)
Definition depthAtLeast (m0 : jsnum) (w : world) : Prop :=
  JsNum.is_nan (maxScrollDepth (st w)) = false
  /\ JsNum.le m0 (maxScrollDepth (st w)).

(** ** Mouse moves *)

(** The instant in the [timestamp] of a record. *)
Definition timestampOf (m : emission) : Z :=
  match JsObj.get "timestamp" (em_data m) with
  | VDate t => t
  | _ => 0
  end.

(** The [coordinates] that the mouse-move listener writes for [e]. *)
Definition coordinatesOf (e : event) : jsval :=
  VObj [ ("x", ev_prop e "clientX"); ("y", ev_prop e "clientY") ].

(** The instants of [l], the latest first, lie more than [th] apart. *)
Fixpoint spaced (th : Z) (l : list Z) : Prop :=
  match l with
  | [] => True
  | a :: r =>
      match r with
      | b :: _ => th < a - b
      | [] => True
      end /\ spaced th r
  end.

(** The instants of the [mouse_move] records, the latest first. *)
Definition mouseMoveTimes (w : world) : list Z :=
  map timestampOf (filter (hasType "mouse_move") (emitted w)).

(** Under the configuration [c], consecutive [mouse_move] records lie
    more than [mouseMoveThrottle] ms apart and none is later than
    [lastMouseLog]. *)
Definition throttled (c : CONFIG) (w : world) : Prop :=
  cfg w = c
  /\ spaced (mouseMoveThrottle c) (mouseMoveTimes w)
  /\ Forall (fun t => t <= lastMouseLog w) (mouseMoveTimes w).

(** A mouse move at the position [(x, y)] over [target]. *)
Definition mouseMoveAt (target : element) (x y : Z) : event :=
  eventOn target [ ("clientX", VInt x); ("clientY", VInt y);
                   ("movementX", VInt 0); ("movementY", VInt 0);
                   ("buttons", VInt 0) ].

(** ** Sample runs *)

(** A drag that starts on a text node (a dragged selection), then a click
    on a button. *)
Definition dragThenClick : list timed :=
  [ At 1000 (SDragStart (eventOn textNode []));
    At 2000 (SClick (eventOn buttonNode [])) ].

(** 31 seconds of silence, then a click. *)
Definition silenceThenClick : list timed :=
  [ At 31000 (SClick (eventOn buttonNode [])) ].

(** The same, then 31 more seconds of silence and a press of a mouse
    button. *)
Definition twoSilences : list timed :=
  [ At 31000 (SClick (eventOn buttonNode []));
    At 62000 (SMouseDown (eventOn buttonNode [])) ].

(** Two mouse moves 100 ms apart, at [(10, 10)] and then at [(20, 20)]. *)
Definition twoMoves : list timed :=
  [ At 1000000 (SMouseMove (mouseMoveAt buttonNode 10 10));
    At 1000100 (SMouseMove (mouseMoveAt buttonNode 20 20)) ].

(** Two identical mouse moves 100 ms apart. *)
Definition twoSameMoves : list timed :=
  [ At 1000000 (SMouseMove (mouseMoveAt buttonNode 10 10));
    At 1000100 (SMouseMove (mouseMoveAt buttonNode 10 10)) ].

(** A scroll down to the middle of the page, then back up to a tenth. *)
Definition downThenUp : list timed :=
  [ At 100 (SPage (pageAt 250 1000 500));
    At 100 SScroll;
    At 1000 (SPage (pageAt 50 1000 500));
    At 1000 SScroll;
    At 2000 SLoad ].

(** A page that a horizontal scroll bar makes 15 px scrollable although
    its scroll height is the height of the window. *)
Definition pageUnderScrollBar : host := pageAt 15 500 500.

(** A page shorter than the window, displaced by 50 px. *)
Definition shortPage : host := pageAt 50 400 500.


(** A key press of [h] in the password field. *)
Definition keyInPassword : event :=
  eventOn (passwordInput "hunter2") [ ("key", VStr "h"); ("code", VStr "KeyH") ].

(** * The rest of the script *)

(** ** The control surface, lines 601-639 *)

(** The argument of [updateConfig]: an object that has some of the nine
    settings.  ([Object.assign] would also copy other keys and values of
    other types; they are left out.) *)
Record configPatch : Type := mkPatch {
  p_scrollThrottle : option Z;
  p_mouseMoveThrottle : option Z;
  p_resizeThrottle : option Z;
  p_idleTimeout : option Z;
  p_trackMouseMovement : option bool;
  p_trackKeyboard : option bool;
  p_trackClipboard : option bool;
  p_trackVisibility : option bool;
  p_visibilityThreshold : option Q
}.

Definition orKeep {A : Type} (new : option A) (old : A) : A :=
  match new with
  | Some a => a
  | None => old
  end.

(** [Object.assign(CONFIG, newConfig)]. *)
Definition assignCONFIG (c : CONFIG) (p : configPatch) : CONFIG :=
  {| scrollThrottle := orKeep (p_scrollThrottle p) (scrollThrottle c);
     mouseMoveThrottle := orKeep (p_mouseMoveThrottle p) (mouseMoveThrottle c);
     resizeThrottle := orKeep (p_resizeThrottle p) (resizeThrottle c);
     idleTimeout := orKeep (p_idleTimeout p) (idleTimeout c);
     trackMouseMovement := orKeep (p_trackMouseMovement p) (trackMouseMovement c);
     trackKeyboard := orKeep (p_trackKeyboard p) (trackKeyboard c);
     trackClipboard := orKeep (p_trackClipboard p) (trackClipboard c);
     trackVisibility := orKeep (p_trackVisibility p) (trackVisibility c);
     visibilityThreshold := orKeep (p_visibilityThreshold p) (visibilityThreshold c) |}.

Definition set_cfg (c : CONFIG) (w : world) : world :=
  mkWorld (st w) c (page w) (now w) (timers w) (nextTimer w)
          (scrollTimeout w) (resizeTimeout w) (idleTimer w) (lastMouseLog w)
          (observing w) (registered w) (emitted w).

(** [updateConfig], line 621. *)
Definition updateConfig (newConfig : configPatch) : M unit :=
  modify (fun w => set_cfg (assignCONFIG (cfg w) newConfig) w).

(** [getStats], line 602. *)
Definition getStats (w : world) : obj :=
  [ ("total_events", VInt (eventCount (st w)));
    ("session_duration_ms", VInt (now w - sessionStart (st w)));
    ("max_scroll_depth", VNum (maxScrollDepth (st w)));
    ("current_scroll", VNum (scroll_percentage (getScrollInfo (page w))));
    ("is_idle", VBool (isIdle (st w)));
    ("last_activity", VDate (lastActivity (st w))) ].

(** [logCustomEvent], line 613.  [activeElement] is what
    [document.activeElement] holds at the call; an [additionalInfo] that is
    [undefined] ([None]) takes the default of [logEvent], the empty
    object. *)
Definition logCustomEvent (activeElement : option element)
    (eventName eventObject : string) (additionalInfo : option obj) : M unit :=
  logEvent eventName eventObject activeElement
    (match additionalInfo with Some info => info | None => [] end) ;;;
  ret tt.

(** ** Reading further fields *)

(** The integer in the [event_number] of a record. *)
Definition eventNumberOf (m : emission) : Z :=
  match numberOf (em_data m) with
  | VNum (JsNum.Fin q) => Qfloor q
  | _ => 0
  end.

(** The sequence numbers grow with every record and stay within the
    counter. *)
Definition numbersIncrease (w : world) : Prop :=
  0 <= eventCount (st w)
  /\ StronglySorted Z.lt (map eventNumberOf (records w))
  /\ Forall (fun n => 1 <= n <= eventCount (st w)) (map eventNumberOf (records w)).

(** The node and every ancestor that [getElementPath] can reach have a tag
    name. *)
Fixpoint allTagged (e : element) : bool :=
  match el_tagName e with
  | None => false
  | Some _ =>
      match el_parentElement e with
      | None => true
      | Some p => allTagged p
      end
  end.

(** ** Pending timers *)

Definition sameCallback (a b : callback) : bool :=
  match a, b with
  | CbScroll, CbScroll | CbResize, CbResize | CbIdle, CbIdle
  | CbObserve, CbObserve => true
  | _, _ => false
  end.

(** The pending timers that will call [cb]. *)
Definition pendingFor (cb : callback) (w : world) : list timer :=
  filter (fun t => sameCallback (tm_cb t) cb) (timers w).

(** The handle that the script keeps for the timers calling [cb], among
    [scrollTimeout], [resizeTimeout] and [idleTimer]; the timer of line 562
    is kept by none. *)
Definition handleIn (cb : callback) (hs hr hi : option nat) : option nat :=
  match cb with
  | CbScroll => hs
  | CbResize => hr
  | CbIdle => hi
  | CbObserve => None
  end.

Definition below (n : nat) (h : option nat) : Prop :=
  match h with
  | Some i => (i < n)%nat
  | None => True
  end.

(** Two handles that are set differ. *)
Definition apart (a b : option nat) : Prop :=
  match a, b with
  | Some i, Some j => i <> j
  | _, _ => True
  end.

(** A timer queue [ts] with next handle [n] and the three handles of the
    script in order: handles are never reused, every pending timer of a
    debounced source or of the idle detection is the one whose handle the
    script holds, and the three handles differ. *)
Definition ordered (ts : list timer) (n : nat) (hs hr hi : option nat) : Prop :=
  Forall (fun t => (tm_id t < n)%nat) ts
  /\ NoDup (map tm_id ts)
  /\ (forall t, In t ts -> tm_cb t <> CbObserve ->
        handleIn (tm_cb t) hs hr hi = Some (tm_id t))
  /\ below n hs /\ below n hr /\ below n hi
  /\ apart hs hr /\ apart hs hi /\ apart hr hi.

Definition hygienic (w : world) : Prop :=
  ordered (timers w) (nextTimer w) (scrollTimeout w) (resizeTimeout w) (idleTimer w).

(** [clearTimeout(h)] on a queue. *)
Definition cleared (h : option nat) (ts : list timer) : list timer :=
  match h with
  | Some i => filter (fun t => negb (Nat.eqb (tm_id t) i)) ts
  | None => ts
  end.

(** The signals on which [resetIdleTimer] is registered, line 591. *)
Definition resetsIdle (s : signal) : bool :=
  match s with
  | SClick _ | SKeyPress _ | SScroll | SScrollElement _ | SMouseMove _
  | SMouseDown _ | STouchStart _ => true
  | _ => false
  end.

(** The entry that the mouse-move listener pushes on the trail. *)
Definition trailEntry (e : event) (t : Z) : obj :=
  [ ("x", ev_prop e "clientX"); ("y", ev_prop e "clientY"); ("time", VInt t) ].

(** The idle flag is down and the timer queue is in order. *)
Definition calm (w : world) : Prop := hygienic w /\ isIdle (st w) = false.

(** The signals that come with a scroll of the viewport, whose listener
    (line 372) sets the scroll timer. *)
Definition isViewportScroll (s : signal) : bool :=
  match s with
  | SScroll => true
  | _ => false
  end.

(** The signals of a run on which [resetIdleTimer] is called, and those
    that set the scroll timer. *)
Definition resets (l : list timed) : nat :=
  List.length (filter (fun x => resetsIdle (at_signal x)) l).

Definition viewportScrolls (l : list timed) : nat :=
  List.length (filter (fun x => isViewportScroll (at_signal x)) l).

(** What a signal may spend when a call of [resetIdleTimer] costs [kr] and
    a call of the scroll listener costs [ks]. *)
Definition cost (kr ks : nat) (s : signal) : nat :=
  match s with
  | SScroll => kr + ks
  | SClick _ | SKeyPress _ | SScrollElement _ | SMouseMove _
  | SMouseDown _ | STouchStart _ => kr
  | _ => 0
  end.

Definition budget (kr ks : nat) (l : list timed) : nat :=
  fold_right (fun x n => cost kr ks (at_signal x) + n)%nat 0%nat l.

(** The records of type [ty] together with the pending timers that will
    call [cb]. *)
Definition owed (cb : callback) (ty : string) (w : world) : nat :=
  (List.length (recordsOfType ty w) + List.length (pendingFor cb w))%nat.

(** ** The types of the records *)

(** The record has one of the types [tys]. *)
Definition typedIn (tys : list string) (m : emission) : bool :=
  existsb (fun ty => hasType ty m) tys.

(** Since the emissions were [E0], only records with types among [tys]
    have been emitted. *)
Definition grows (tys : list string) (E0 : list emission) (w : world) : Prop :=
  exists new, emitted w = (new ++ E0)%list /\ forallb (typedIn tys) new = true.

(** A listener that changes nothing or has the effect of one call of
    [logEvent] with a type among [tys] and a plain [additionalInfo]. *)
Definition logsAs (tys : list string) (m : M unit) : Prop :=
  forall w,
    settle m w = w \/
    exists ty ob el info,
      In ty tys /\ plainInfo info = true /\
      settle m w = settle (logEvent ty ob el info) w.

(** The first argument of the calls of [logEvent] in the listeners that a
    signal reaches, [resetIdleTimer] apart: the literal of each listener,
    for the listeners that are registered. *)
Definition ownTypes (r : listeners) (observes : bool) (s : signal) : list string :=
  match s with
  | SPage _ => []
  | SLoad => ["page_view"]
  | SClick _ => ["click"]
  | SDblClick _ => ["double_click"]
  | SContextMenu _ => ["right_click"]
  | SChange _ => ["change"]
  | SInput _ => ["input"]
  | SFocus _ => ["focus"]
  | SBlur _ => ["blur"]
  | SSubmit _ => ["submit"]
  | SKeyDown _ | SKeyUp _ => if onKeyboard r then ["keyboard"] else []
  | SKeyPress _ | SScroll | SScrollElement _ | SMouseDown _ | STouchStart _ => []
  | SMouseMove _ => if onMouseMovement r then ["mouse_move"] else []
  | SMouseEnter _ => ["mouse_enter"]
  | SMouseLeave _ => ["mouse_leave"]
  | SCopy _ => if onClipboard r then ["copy"] else []
  | SCut _ => if onClipboard r then ["cut"] else []
  | SPaste _ => if onClipboard r then ["paste"] else []
  | SResize => []
  | SVisibilityChange => ["visibility_change"]
  | SOnline | SOffline => ["connection"]
  | SBeforeUnload => ["page_exit"]
  | SPlay _ => ["media_play"]
  | SPause _ => ["media_pause"]
  | SEnded _ => ["media_ended"]
  | SSelectionChange => ["text_selection"]
  | SDragStart _ => ["drag_start"]
  | SDragEnd _ => ["drag_end"]
  | SDrop _ => ["drop"]
  | SIntersection _ => if (onVisibility r && observes)%bool then ["view"] else []
  end.

(** The types of the records that the timers emit. *)
Definition timerTypes : list string := ["scroll"; "resize"; "user_idle"].

(** The types that a session started with the configuration [c] can emit:
    those of the listeners registered whatever the configuration, those of
    the timers, and those of the listeners that the four switches
    register.  [user_active] is not among them: the idle flag is never up
    when [resetIdleTimer] runs, so line 577 is never reached. *)
Definition vocabulary (c : CONFIG) : list string :=
  ([ "page_view"; "click"; "double_click"; "right_click"; "change"; "input";
     "focus"; "blur"; "submit"; "mouse_enter"; "mouse_leave";
     "visibility_change"; "connection"; "page_exit"; "media_play";
     "media_pause"; "media_ended"; "text_selection"; "drag_start"; "drag_end";
     "drop" ]
   ++ timerTypes
   ++ (if trackKeyboard c then ["keyboard"] else [])
   ++ (if trackMouseMovement c then ["mouse_move"] else [])
   ++ (if trackClipboard c then ["copy"; "cut"; "paste"] else [])
   ++ (if trackVisibility c then ["view"] else []))%list.

(** The default configuration with the four switches set. *)
Definition withSwitches (mouse keyboard clipboard visibility : bool) : CONFIG :=
  {| scrollThrottle := scrollThrottle defaultCONFIG;
     mouseMoveThrottle := mouseMoveThrottle defaultCONFIG;
     resizeThrottle := resizeThrottle defaultCONFIG;
     idleTimeout := idleTimeout defaultCONFIG;
     trackMouseMovement := mouse;
     trackKeyboard := keyboard;
     trackClipboard := clipboard;
     trackVisibility := visibility;
     visibilityThreshold := visibilityThreshold defaultCONFIG |}.

(** The idle flag is down and only records with types among [tys] have
    been emitted since [E0]. *)
Definition typedSince (tys : list string) (E0 : list emission) (w : world) : Prop :=
  isIdle (st w) = false /\ grows tys E0 w.

(** The listeners that the configuration registers at the start. *)
Definition flagsOf (c : CONFIG) : listeners :=
  {| onKeyboard := trackKeyboard c;
     onMouseMovement := trackMouseMovement c;
     onClipboard := trackClipboard c;
     onVisibility := trackVisibility c |}.

(** What setting a timer of [set] adds to the pending timers of [cb]. *)
Definition armCost (set cb : callback) : nat :=
  if sameCallback set cb then 1%nat else 0%nat.

(** The queue is in order and, while the budget is 0, the pending idle
    timers are [P]. *)
Definition idleKept (P : list timer) (n : nat) (w : world) : Prop :=
  hygienic w /\ (n = 0%nat -> pendingFor CbIdle w = P).

(** [<span>] inside the button of [buttonNode]. *)
Definition spanInButton : element := plainNode 9 "SPAN" (Some buttonNode).

(** [somePage] with the text [sel] selected inside the button. *)
Definition pageSelecting (sel : string) : host :=
  {| h_body := Some bodyNode;
     h_pageXOffset := JsNum.zero;
     h_pageYOffset := JsNum.zero;
     h_scrollLeft := JsNum.zero;
     h_scrollTop := JsNum.zero;
     h_scrollHeight := JsNum.of_Z 1000;
     h_innerHeight := JsNum.of_Z 500;
     h_selectionText := sel;
     h_selectionAnchorParent := Some buttonNode;
     h_prop := noProps |}.

(** A selection of 61 characters, longer than the preview of a clipboard
    record. *)
Definition longSelection : string :=
  "The quick brown fox jumps over the lazy dog, again and again.".

(** ** The maximum as the specification words it *)

(** The maximum of the percentages of [l] alone, with no initial depth:
    none while no percentage has been seen. *)
Definition maximumSeen (l : list jsnum) : option jsnum :=
  match l with
  | [] => None
  | p :: r => Some (fold_left JsNum.max r p)
  end.

(** A scroll of the viewport, then 900 ms of silence and the load of the
    page. *)
Definition scrollThenLoad : list timed :=
  [ At 100 SScroll; At 1000 SLoad ].

(** * Properties *)

(** ** Objects *)

Module JsObjFacts.

Import JsObj.

Lemma get_set (k k' : string) (v : jsval) (o : obj) :
  get k (set k' v o) = if String.eqb k k' then v else get k o.
Proof.
  induction o as [|[k0 v0] o IH]; simpl.
  - destruct (String.eqb k k'); reflexivity.
  - destruct (String.eqb_spec k' k0) as [->|Hne]; simpl.
    + destruct (String.eqb k k0); reflexivity.
    + destruct (String.eqb_spec k k0) as [->|Hne'].
      * destruct (String.eqb_spec k0 k') as [E|_]; [congruence | reflexivity].
      * exact IH.
Qed.

Lemma get_spread (k : string) (extra o : obj) :
  get k (spread o extra) = override k extra (get k o).
Proof.
  unfold spread. revert o.
  induction extra as [|[k' v] r IH]; intro o; simpl.
  - reflexivity.
  - rewrite IH, get_set. reflexivity.
Qed.

End JsObjFacts.

(** ** The monad *)

Lemma settle_bind {A B : Type} (m : M A) (k : A -> M B) (w : world) :
  settle (bind m k) w =
    match fst (m w) with
    | Some a => settle (k a) (snd (m w))
    | None => snd (m w)
    end.
Proof. unfold settle, bind. destruct (m w) as [[a|] w']; reflexivity. Qed.

Lemma settle_then_ret {A : Type} (m : M A) (w : world) :
  settle (m ;;; ret tt) w = settle m w.
Proof. unfold settle, bind, ret. destruct (m w) as [[a|] w']; reflexivity. Qed.

Lemma settle_gets {A B : Type} (f : world -> A) (k : A -> M B) (w : world) :
  settle (x <- gets f ;; k x) w = settle (k (f w)) w.
Proof. reflexivity. Qed.

Lemma settle_modify {B : Type} (f : world -> world) (k : M B) (w : world) :
  settle (modify f ;;; k) w = settle k (f w).
Proof. reflexivity. Qed.

Lemma settle_ret_then {A B : Type} (a : A) (k : A -> M B) (w : world) :
  settle (x <- ret a ;; k x) w = settle (k a) w.
Proof. reflexivity. Qed.

Lemma settle_ret {A : Type} (a : A) (w : world) : settle (ret a) w = w.
Proof. reflexivity. Qed.

Lemma settle_throw {A B : Type} (k : A -> M B) (w : world) :
  settle (x <- throw ;; k x) w = w.
Proof. reflexivity. Qed.

Lemma settle_lowerTag {B : Type} (e : element) (k : string -> M B) (w : world) :
  settle (x <- lowerTag e ;; k x) w =
    match el_tagName e with
    | Some t => settle (k (JsString.toLowerCase t)) w
    | None => w
    end.
Proof. unfold lowerTag. destruct (el_tagName e); reflexivity. Qed.

(** ** [logEvent] *)

Lemma logEvent_eq (ty ob : string) (el : option element) (info : obj) (w : world) :
  logEvent ty ob el info w =
    match recordOf ty ob el info (touched w) with
    | Some d => (Some d, push_emitted (mkEmission el d) (touched w))
    | None => (None, touched w)
    end.
Proof.
  unfold logEvent, recordOf, bind, modify, gets, defined, ret, throw, touched.
  destruct el as [e|]; simpl; [|reflexivity].
  destruct (el_tagName e) as [t|]; simpl; [|reflexivity].
  destruct (getElementPath (h_body (page w)) e) as [p|]; reflexivity.
Qed.

Lemma settle_logEvent (ty ob : string) (el : option element) (info : obj) (w : world) :
  settle (logEvent ty ob el info) w =
    match recordOf ty ob el info (touched w) with
    | Some d => push_emitted (mkEmission el d) (touched w)
    | None => touched w
    end.
Proof.
  unfold settle. rewrite logEvent_eq.
  destruct (recordOf ty ob el info (touched w)); reflexivity.
Qed.

(** [logEvent] returns a record exactly on the nodes that are absent or
    loggable. *)
Lemma recordOf_loggable (ty ob : string) (el : option element) (info : obj) (w : world) :
  loggableOpt (h_body (page w)) el = true ->
  exists d, recordOf ty ob el info w = Some d.
Proof.
  unfold loggableOpt, loggable, recordOf.
  destruct el as [e|]; [|eauto].
  destruct (el_tagName e), (getElementPath (h_body (page w)) e); eauto; discriminate.
Qed.


(** Reading a property of the record that no key of [additionalInfo]
    overwrites. *)
Lemma override_plain (k : string) (info : obj) (d : jsval) :
  plainInfo info = true -> includes baseKeys k = true -> override k info d = d.
Proof.
  revert d. induction info as [|[k' v] r IH]; intros d Hp Hk; simpl; [reflexivity|].
  cbn [plainInfo forallb fst] in Hp. apply andb_prop in Hp. destruct Hp as [Hk' Hr].
  destruct (String.eqb_spec k k') as [->|_].
  - rewrite Hk in Hk'. discriminate.
  - apply IH; assumption.
Qed.

Lemma recordOf_get (k : string) {ty ob : string} {el : option element} {info : obj}
    {w : world} {d : obj} :
  recordOf ty ob el info w = Some d ->
  exists i t p,
    JsObj.get k d = override k info (JsObj.get k (baseRecord w ty ob i t p)).
Proof.
  unfold recordOf. intro H.
  destruct el as [e|].
  - destruct (el_tagName e) as [t|]; [|discriminate].
    destruct (getElementPath (h_body (page w)) e) as [p|]; [|discriminate].
    injection H as <-. eexists _, _, _. apply JsObjFacts.get_spread.
  - injection H as <-. eexists _, _, _. apply JsObjFacts.get_spread.
Qed.

Lemma recordOf_typeOf {ty ob : string} {el : option element} {info : obj}
    {w : world} {d : obj} :
  plainInfo info = true ->
  recordOf ty ob el info w = Some d ->
  typeOf d = VStr ty.
Proof.
  intros Hp H. unfold typeOf.
  destruct (recordOf_get "type_of_event" H) as (i & t & p & ->).
  rewrite override_plain by (assumption || reflexivity). reflexivity.
Qed.

Lemma recordOf_numberOf {ty ob : string} {el : option element} {info : obj}
    {w : world} {d : obj} :
  plainInfo info = true ->
  recordOf ty ob el info w = Some d ->
  numberOf d = VInt (eventCount (st w)).
Proof.
  intros Hp H. unfold numberOf.
  destruct (recordOf_get "event_number" H) as (i & t & p & ->).
  rewrite override_plain by (assumption || reflexivity). reflexivity.
Qed.

Lemma recordOf_snapshot {ty ob : string} {el : option element} {info : obj}
    {w : world} {d : obj} :
  plainInfo info = true ->
  recordOf ty ob el info w = Some d ->
  JsObj.get2 "session_info" "max_scroll_depth" d = VNum (maxScrollDepth (st w)).
Proof.
  intros Hp H. unfold JsObj.get2.
  destruct (recordOf_get "session_info" H) as (i & t & p & ->).
  rewrite override_plain by (assumption || reflexivity). reflexivity.
Qed.

#[global] Arguments logEvent : simpl never.

(** ** The classifier *)

Section ClassifierFacts.

Local Ltac split_tag tag lit :=
  destruct (String.eqb_spec tag lit) as [->|?]; [reflexivity|].

(** The source and the specification's order differ on the nodes of
    [editableLateTag] only, which the source calls content-editable. *)
Lemma getElementType_vs_spec_order (element : option element) :
  getElementType element =
    if editableLateTag element then "contenteditable"
    else classifyInSpecOrder element.
Proof.
  destruct element as [e|]; [|reflexivity].
  unfold getElementType, classifyInSpecOrder, editableLateTag, isContentEditable.
  destruct (truthy_opt (el_tagName e)) eqn:Ht.
  2:{ simpl. destruct (el_contentEditable e) as [c|]; [|reflexivity].
      destruct (String.eqb c "true"); [|reflexivity]. simpl.
      destruct (el_tagName e) as [t|]; simpl; [|reflexivity].
      destruct t; [reflexivity | discriminate]. }
  cbn [negb].
  generalize (JsString.toLowerCase
                (match el_tagName e with Some t => t | None => EmptyString end)).
  intro tag.
  generalize (if truthy_opt (el_type e)
              then JsString.toLowerCase
                     (match el_type e with Some t => t | None => EmptyString end)
              else EmptyString).
  intro type.
  destruct (match el_contentEditable e with
            | Some c => String.eqb c "true"
            | None => false
            end) eqn:Hc.
  - (* content-editable *)
    cbn [andb].
    destruct (String.eqb_spec tag "button") as [->|?]; [reflexivity|].
    destruct (String.eqb_spec tag "a") as [->|?]; [reflexivity|].
    destruct (String.eqb_spec tag "img") as [->|?]; [reflexivity|].
    destruct (String.eqb_spec tag "video") as [->|?]; [reflexivity|].
    destruct (String.eqb_spec tag "audio") as [->|?]; [reflexivity|].
    destruct (String.eqb_spec tag "canvas") as [->|?]; [reflexivity|].
    destruct (String.eqb_spec tag "svg") as [->|?]; [reflexivity|].
    destruct (String.eqb_spec tag "select") as [->|?]; [reflexivity|].
    destruct (String.eqb_spec tag "textarea") as [->|?]; [reflexivity|].
    destruct (includes lateTags tag) eqn:Hl; [reflexivity|].
    unfold includes, lateTags in Hl. cbn [existsb] in Hl.
    repeat (apply orb_false_elim in Hl; destruct Hl as [? Hl]).
    unfold lookup, tagTable.
    repeat match goal with
           | H : String.eqb tag ?l = true |- _ => fail 1
           | H : String.eqb tag ?l = false |- context [String.eqb tag ?l] =>
               rewrite H
           | H : tag <> ?l |- context [String.eqb tag ?l] =>
               rewrite (proj2 (String.eqb_neq tag l) H)
           end.
    reflexivity.
  - (* not content-editable *)
    cbn [andb].
    split_tag tag "button". split_tag tag "a". split_tag tag "img".
    split_tag tag "video". split_tag tag "audio". split_tag tag "canvas".
    split_tag tag "svg". split_tag tag "select". split_tag tag "textarea".
    destruct (String.eqb_spec tag "input") as [->|?]; [reflexivity|].
    split_tag tag "h1". split_tag tag "h2". split_tag tag "h3".
    split_tag tag "h4". split_tag tag "h5". split_tag tag "h6".
    split_tag tag "form". split_tag tag "table". split_tag tag "nav".
    split_tag tag "iframe".
    unfold includes, headings, lookup, tagTable. cbn [existsb].
    repeat match goal with
           | H : tag <> ?l |- context [String.eqb tag ?l] =>
               rewrite (proj2 (String.eqb_neq tag l) H)
           end.
    reflexivity.
Qed.

End ClassifierFacts.

(** ** Degraded nodes *)

Lemma getElementType_no_tag (e : element) :
  el_tagName e = None -> getElementType (Some e) = "unknown".
Proof. intro H. unfold getElementType. rewrite H. reflexivity. Qed.

Lemma getElementIdentifier_anonymous (e : element) :
  anonymous e = true -> getElementIdentifier (Some e) = "unknown".
Proof.
  unfold anonymous, getElementIdentifier, truthy_opt. intro H.
  repeat (apply andb_prop in H; destruct H as [H ?]).
  destruct (el_id e) as [i|];
    [destruct (JsString.truthy i); [discriminate|]|];
  (destruct (el_className e) as [c|];
    [destruct (JsString.truthy c); [discriminate|]|]);
  (destruct (el_tagName e) as [t|];
    [destruct (JsString.truthy t); [discriminate|]|]);
  (destruct (el_name e) as [n|];
    [destruct (JsString.truthy n); [discriminate|]|]);
  (destruct (el_textContent e) as [x|];
    [destruct (JsString.truthy x); [discriminate|]|]);
  (destruct (el_dataset e) as [[|? ?]|]; [|discriminate|]);
  reflexivity.
Qed.

Module JsObjMore.

Import JsObj.

Lemma has_set (k k' : string) (v : jsval) (o : obj) :
  has k (set k' v o) = (String.eqb k k' || has k o)%bool.
Proof.
  induction o as [|[k0 v0] o IH]; simpl.
  - destruct (String.eqb k k'); reflexivity.
  - destruct (String.eqb_spec k' k0) as [->|Hne]; simpl.
    + destruct (String.eqb k k0); reflexivity.
    + rewrite IH. destruct (String.eqb k k0), (String.eqb k k'); reflexivity.
Qed.

Lemma has_spread_base (k : string) (extra o : obj) :
  has k o = true -> has k (spread o extra) = true.
Proof.
  unfold spread. revert o.
  induction extra as [|[k' v] r IH]; intros o H; simpl; [assumption|].
  apply IH. rewrite has_set, H. apply orb_true_r.
Qed.

End JsObjMore.

Lemma recordOf_valid (ty ob : string) (el : option element) (info : obj)
    (w : world) (d : obj) :
  recordOf ty ob el info w = Some d -> validRecord d = true.
Proof.
  unfold recordOf, validRecord. intro H.
  assert (V : forall i t p k, In k baseKeys ->
            JsObj.has k (JsObj.spread (baseRecord w ty ob i t p) info) = true).
  { intros i t p k Hk. apply JsObjMore.has_spread_base.
    simpl in Hk.
    repeat (destruct Hk as [<-|Hk]; [reflexivity|]). contradiction. }
  destruct el as [e|].
  - destruct (el_tagName e); [|discriminate].
    destruct (getElementPath (h_body (page w)) e); [|discriminate].
    injection H as <-. apply forallb_forall. intros k Hk. apply V, Hk.
  - injection H as <-. apply forallb_forall. intros k Hk. apply V, Hk.
Qed.

(** On an absent node [logEvent] always returns and emits a record, whose
    element fields read N/A. *)
Lemma logEvent_absent_node (ty ob : string) (info : obj) (w : world) :
  exists d,
    logEvent ty ob None info w = (Some d, push_emitted (mkEmission None d) (touched w))
    /\ validRecord d = true
    /\ (plainInfo info = true ->
        JsObj.get "element_identifier" d = VStr "N/A"
        /\ JsObj.get "element_tag" d = VStr "N/A"
        /\ JsObj.get "element_path" d = VStr "N/A").
Proof.
  rewrite logEvent_eq.
  destruct (recordOf ty ob None info (touched w)) as [d|] eqn:H; [|discriminate].
  exists d. split; [reflexivity|]. split; [eapply recordOf_valid; eassumption|].
  intro Hp. injection H as <-.
  rewrite !JsObjFacts.get_spread.
  rewrite !override_plain by (assumption || reflexivity).
  repeat split; reflexivity.
Qed.

(** ** Scroll percentage *)

Section ScrollFacts.

Import JsNum.

Lemma Qsgn_inject_Z (z : Z) : Qsgn (inject_Z z) = (z ?= 0)%Z.
Proof. unfold Qsgn, Qcompare. simpl. rewrite Z.mul_1_r. reflexivity. Qed.

Lemma or_round_zero (a : jsnum) :
  is_nan a = false -> or (round a) zero = round a.
Proof.
  destruct a as [| | |q]; intro H; try reflexivity; try discriminate.
  unfold round, or, truthy, of_Z. rewrite Qsgn_inject_Z.
  destruct (Z.compare_spec (Qfloor (q + (1 # 2))) 0) as [->|_|_]; reflexivity.
Qed.

(** Over a positive denominator the percentage is the rounded quotient. *)
Lemma scroll_percentage_positive_denominator (h : host) (top height inner : Q) :
  or (h_pageYOffset h) (h_scrollTop h) = Fin top ->
  h_scrollHeight h = Fin height ->
  h_innerHeight h = Fin inner ->
  (0 < height - inner)%Q ->
  scroll_percentage (getScrollInfo h)
    = of_Z (Qfloor (top / (height - inner) * inject_Z 100 + (1 # 2))).
Proof.
  intros Ht Hh Hi Hd. unfold getScrollInfo. cbn [scroll_percentage].
  rewrite Ht, Hh, Hi. cbn [sub div].
  assert (E : Qsgn (height - inner) = Gt) by (apply Qgt_alt; exact Hd).
  rewrite E. cbn [mul of_Z]. rewrite or_round_zero by reflexivity. reflexivity.
Qed.

(** The percentage is never NaN. *)
Lemma scroll_percentage_not_nan (h : host) :
  is_nan (scroll_percentage (getScrollInfo h)) = false.
Proof.
  unfold getScrollInfo. cbn [scroll_percentage].
  match goal with |- is_nan (or (round ?x) zero) = false => destruct x as [| | |q] end;
    try reflexivity.
  unfold round, or, truthy, of_Z. rewrite Qsgn_inject_Z.
  destruct (Qfloor (q + (1 # 2)) ?= 0)%Z; reflexivity.
Qed.

Example scroll_percentage_half :
  scroll_percentage (getScrollInfo (pageAt 250 1000 500)) = of_Z 50.
Proof. reflexivity. Qed.

Example scroll_percentage_no_scrollable_area :
  scroll_percentage (getScrollInfo (pageAt 0 500 500)) = of_Z 0.
Proof. reflexivity. Qed.

End ScrollFacts.

(** ** Form changes and key presses *)

Lemma getElementPath_withValue (body : option element) (v : jsval) (el : element) :
  getElementPath body (withValue v el) = getElementPath body el.
Proof. destruct el; reflexivity. Qed.

Lemma loggable_withValue (body : option element) (v : jsval) (el : element) :
  loggable body (withValue v el) = loggable body el.
Proof. unfold loggable. rewrite getElementPath_withValue. reflexivity. Qed.

(** The record of a change on a loggable node. *)
Lemma onChange_emits (w : world) (e : event) :
  loggable (h_body (page w)) (ev_target e) = true ->
  exists d,
    recordOf "change" (getElementType (Some (ev_target e))) (Some (ev_target e))
      [ ("value", redactedValue (ev_target e));
        ("checked", el_props (ev_target e) "checked");
        ("selected_index", el_props (ev_target e) "selectedIndex");
        ("selected_options",
          if truthyVal (el_props (ev_target e) "selectedOptions")
          then el_props (ev_target e) "selectedOptions"
          else VUndef) ] (touched w) = Some d
    /\ emitted (dispatch (SChange e) w) = mkEmission (Some (ev_target e)) d :: emitted w.
Proof.
  intro L.
  edestruct (recordOf_loggable "change") as [d Hd];
    [exact (L : loggableOpt (h_body (page (touched w))) (Some (ev_target e)) = true)|].
  exists d. split; [exact Hd|].
  unfold dispatch, listenersOf, runListeners, fold_left, onChange.
  rewrite settle_then_ret, settle_logEvent, Hd. reflexivity.
Qed.

(** The record of a key press on a loggable node. *)
Lemma onKeyDown_emits (w : world) (e : event) :
  onKeyboard (registered w) = true ->
  loggable (h_body (page w)) (ev_target e) = true ->
  exists d,
    emitted (dispatch (SKeyDown e) w) = mkEmission (Some (ev_target e)) d :: emitted w
    /\ typeOf d = VStr "keyboard"
    /\ JsObj.get "event_object" d = VStr "keydown"
    /\ JsObj.get "key" d = ev_prop e "key"
    /\ JsObj.get "code" d = ev_prop e "code".
Proof.
  intros K L.
  edestruct (recordOf_loggable "keyboard") as [d Hd];
    [exact (L : loggableOpt (h_body (page (touched w))) (Some (ev_target e)) = true)|].
  exists d. split.
  - unfold dispatch, listenersOf, runListeners. rewrite K.
    unfold when, fold_left, onKeyDown.
    rewrite settle_then_ret, settle_logEvent, Hd. reflexivity.
  - split; [eapply recordOf_typeOf; [|exact Hd]; reflexivity|].
    destruct (recordOf_get "event_object" Hd) as (i1 & t1 & p1 & ->).
    destruct (recordOf_get "key" Hd) as (i2 & t2 & p2 & ->).
    destruct (recordOf_get "code" Hd) as (i3 & t3 & p3 & ->).
    repeat split; reflexivity.
Qed.

(** ** Listeners that only log *)

Section LogsOnly.

Local Ltac in_raw := simpl; repeat (first [left; reflexivity | right]).

Local Ltac one_call :=
  right; eexists _, _, _, _;
  split; [|split; [|first [reflexivity | apply settle_then_ret]]];
  [in_raw | reflexivity].

Local Ltac logs_only :=
  intro w; cbv zeta; rewrite ?settle_gets; cbv beta;
  first [one_call | left; reflexivity].

Lemma logsOnly_onLoad : logsOnly onLoad.
Proof. unfold onLoad. logs_only. Qed.

Lemma logsOnly_onClick e : logsOnly (onClick e).
Proof. unfold onClick. logs_only. Qed.

Lemma logsOnly_onDblClick e : logsOnly (onDblClick e).
Proof. unfold onDblClick. logs_only. Qed.

Lemma logsOnly_onContextMenu e : logsOnly (onContextMenu e).
Proof. unfold onContextMenu. logs_only. Qed.

Lemma logsOnly_onChange e : logsOnly (onChange e).
Proof. unfold onChange. logs_only. Qed.

Lemma logsOnly_onInput e : logsOnly (onInput e).
Proof. unfold onInput. logs_only. Qed.

Lemma logsOnly_onFocusLike e kind :
  In kind rawTypes -> logsOnly (onFocusLike e kind).
Proof.
  intros Hk w. unfold onFocusLike. cbv zeta. rewrite settle_lowerTag.
  destruct (el_tagName (ev_target e)) as [t|]; [|left; reflexivity].
  match goal with |- context [if ?c then _ else _] => destruct c end;
    [|left; reflexivity].
  right. eexists _, _, _, _. split; [exact Hk|].
  split; [|apply settle_then_ret]. reflexivity.
Qed.

Lemma logsOnly_onFocus e : logsOnly (onFocus e).
Proof. apply logsOnly_onFocusLike. in_raw. Qed.

Lemma logsOnly_onBlur e : logsOnly (onBlur e).
Proof. apply logsOnly_onFocusLike. in_raw. Qed.

Lemma logsOnly_onSubmit e : logsOnly (onSubmit e).
Proof. unfold onSubmit. logs_only. Qed.

Lemma logsOnly_onKeyDown e : logsOnly (onKeyDown e).
Proof. unfold onKeyDown. logs_only. Qed.

Lemma logsOnly_onKeyUp e : logsOnly (onKeyUp e).
Proof. unfold onKeyUp. logs_only. Qed.

Lemma logsOnly_onMouseEnterLike e kind :
  In kind rawTypes -> logsOnly (onMouseEnterLike e kind).
Proof.
  intros Hk w. unfold onMouseEnterLike. cbv zeta.
  match goal with |- context [if ?c then _ else _] => destruct c end;
    [|left; reflexivity].
  right. eexists _, _, _, _. split; [exact Hk|].
  split; [|apply settle_then_ret]. reflexivity.
Qed.

Lemma logsOnly_onMouseEnter e : logsOnly (onMouseEnter e).
Proof. apply logsOnly_onMouseEnterLike. in_raw. Qed.

Lemma logsOnly_onMouseLeave e : logsOnly (onMouseLeave e).
Proof. apply logsOnly_onMouseEnterLike. in_raw. Qed.

Lemma logsOnly_onCopyLike e kind :
  In kind rawTypes -> logsOnly (onCopyLike e kind).
Proof.
  intros Hk w. unfold onCopyLike. cbv zeta. rewrite settle_gets.
  right. eexists _, _, _, _. split; [exact Hk|].
  split; [|apply settle_then_ret]. reflexivity.
Qed.

Lemma logsOnly_onCopy e : logsOnly (onCopy e).
Proof. apply logsOnly_onCopyLike. in_raw. Qed.

Lemma logsOnly_onCut e : logsOnly (onCut e).
Proof. apply logsOnly_onCopyLike. in_raw. Qed.

Lemma logsOnly_onPaste e : logsOnly (onPaste e).
Proof. unfold onPaste. logs_only. Qed.

Lemma logsOnly_resizeCallback : logsOnly resizeCallback.
Proof. unfold resizeCallback. logs_only. Qed.

Lemma logsOnly_onVisibilityChange : logsOnly onVisibilityChange.
Proof. unfold onVisibilityChange. logs_only. Qed.

Lemma logsOnly_onConnection which : logsOnly (onConnection which).
Proof. unfold onConnection. logs_only. Qed.

Lemma logsOnly_onBeforeUnload : logsOnly onBeforeUnload.
Proof. unfold onBeforeUnload. logs_only. Qed.

Lemma logsOnly_onMedia e kind info :
  In kind rawTypes -> plainInfo info = true -> logsOnly (onMedia e kind info).
Proof.
  intros Hk Hp w. unfold onMedia. cbv zeta.
  destruct (isMedia (ev_target e)); [|left; reflexivity].
  rewrite settle_lowerTag.
  destruct (el_tagName (ev_target e)) as [t|]; [|left; reflexivity].
  right. eexists _, _, _, _. split; [exact Hk|].
  split; [|apply settle_then_ret]. exact Hp.
Qed.

Lemma logsOnly_onPlay e : logsOnly (onPlay e).
Proof. apply logsOnly_onMedia; [in_raw | reflexivity]. Qed.

Lemma logsOnly_onPause e : logsOnly (onPause e).
Proof. apply logsOnly_onMedia; [in_raw | reflexivity]. Qed.

Lemma logsOnly_onEnded e : logsOnly (onEnded e).
Proof. apply logsOnly_onMedia; [in_raw | reflexivity]. Qed.

Lemma logsOnly_onSelectionChange : logsOnly onSelectionChange.
Proof.
  intro w. unfold onSelectionChange. rewrite settle_gets. cbv zeta.
  destruct (Nat.ltb 0 (String.length (h_selectionText (page w))));
    [|left; reflexivity].
  one_call.
Qed.

Lemma logsOnly_onDragStart e : logsOnly (onDragStart e).
Proof. unfold onDragStart. logs_only. Qed.

Lemma logsOnly_onDragEnd e : logsOnly (onDragEnd e).
Proof. unfold onDragEnd. logs_only. Qed.

Lemma logsOnly_onDrop e : logsOnly (onDrop e).
Proof. unfold onDrop. logs_only. Qed.

End LogsOnly.

(** ** Invariants of runs *)

(** A property of the world that every listener, every timer callback and
    the host's own steps keep is kept by every run.  The listeners that
    only log are covered by the one premise on [logEvent]. *)
Section RunInvariant.

Variable I : world -> Prop.
Variable okPage : host -> Prop.

Hypothesis I_log : forall w ty ob el info,
  In ty rawTypes -> plainInfo info = true ->
  I w -> I (settle (logEvent ty ob el info) w).
Hypothesis I_resetIdleTimer : forall w, I w -> I (settle resetIdleTimer w).
Hypothesis I_idleCallback : forall w, I w -> I (settle idleCallback w).
Hypothesis I_onScroll : forall w, I w -> I (settle onScroll w).
Hypothesis I_scrollCallback : forall w, I w -> I (settle scrollCallback w).
Hypothesis I_onResize : forall w, I w -> I (settle onResize w).
Hypothesis I_onMouseMove : forall e w, I w -> I (settle (onMouseMove e) w).
Hypothesis I_observerCallback : forall entries w,
  I w -> I (settle (observerCallback entries) w).
Hypothesis I_observeCallback : forall w, I w -> I (settle observeCallback w).
Hypothesis I_page : forall h w, okPage h -> I w -> I (set_page h w).
Hypothesis I_clock : forall t w, I w -> I (set_now (Z.max (now w) t) w).
Hypothesis I_unqueue : forall f w,
  I w -> I (set_timers (filter f (timers w)) (nextTimer w) w).

Lemma logsOnly_keeps (m : M unit) (w : world) :
  logsOnly m -> I w -> I (settle m w).
Proof.
  intros L H. destruct (L w) as [->|(ty & ob & el & info & Ht & Hp & ->)].
  - exact H.
  - apply I_log; assumption.
Qed.

Lemma runListeners_keeps (l : list (M unit)) :
  (forall m, In m l -> forall w, I w -> I (settle m w)) ->
  forall w, I w -> I (runListeners l w).
Proof.
  unfold runListeners. induction l as [|m l IH]; intros K w H; simpl.
  - exact H.
  - apply IH.
    + intros m' Hm'. apply K. right. exact Hm'.
    + apply K; [left; reflexivity | exact H].
Qed.

Local Ltac by_logs L := apply logsOnly_keeps; [apply L | assumption].

Local Ltac one_listener :=
  lazymatch goal with
  | |- I (settle resetIdleTimer _) => apply I_resetIdleTimer; assumption
  | |- I (settle onScroll _) => apply I_onScroll; assumption
  | |- I (settle onResize _) => apply I_onResize; assumption
  | |- I (settle (onMouseMove _) _) => apply I_onMouseMove; assumption
  | |- I (settle (observerCallback _) _) => apply I_observerCallback; assumption
  | |- I (settle onLoad _) => by_logs logsOnly_onLoad
  | |- I (settle (onClick _) _) => by_logs logsOnly_onClick
  | |- I (settle (onDblClick _) _) => by_logs logsOnly_onDblClick
  | |- I (settle (onContextMenu _) _) => by_logs logsOnly_onContextMenu
  | |- I (settle (onChange _) _) => by_logs logsOnly_onChange
  | |- I (settle (onInput _) _) => by_logs logsOnly_onInput
  | |- I (settle (onFocus _) _) => by_logs logsOnly_onFocus
  | |- I (settle (onBlur _) _) => by_logs logsOnly_onBlur
  | |- I (settle (onSubmit _) _) => by_logs logsOnly_onSubmit
  | |- I (settle (onKeyDown _) _) => by_logs logsOnly_onKeyDown
  | |- I (settle (onKeyUp _) _) => by_logs logsOnly_onKeyUp
  | |- I (settle (onMouseEnter _) _) => by_logs logsOnly_onMouseEnter
  | |- I (settle (onMouseLeave _) _) => by_logs logsOnly_onMouseLeave
  | |- I (settle (onCopy _) _) => by_logs logsOnly_onCopy
  | |- I (settle (onCut _) _) => by_logs logsOnly_onCut
  | |- I (settle (onPaste _) _) => by_logs logsOnly_onPaste
  | |- I (settle onVisibilityChange _) => by_logs logsOnly_onVisibilityChange
  | |- I (settle (onConnection _) _) => by_logs logsOnly_onConnection
  | |- I (settle onBeforeUnload _) => by_logs logsOnly_onBeforeUnload
  | |- I (settle (onPlay _) _) => by_logs logsOnly_onPlay
  | |- I (settle (onPause _) _) => by_logs logsOnly_onPause
  | |- I (settle (onEnded _) _) => by_logs logsOnly_onEnded
  | |- I (settle onSelectionChange _) => by_logs logsOnly_onSelectionChange
  | |- I (settle (onDragStart _) _) => by_logs logsOnly_onDragStart
  | |- I (settle (onDragEnd _) _) => by_logs logsOnly_onDragEnd
  | |- I (settle (onDrop _) _) => by_logs logsOnly_onDrop
  end.

(** One listener, then two, as [listenersOf] lists them. *)
Lemma runListeners_nil (w : world) : runListeners [] w = w.
Proof. reflexivity. Qed.

Lemma runListeners_one (m : M unit) (w : world) :
  runListeners [m] w = settle m w.
Proof. reflexivity. Qed.

Lemma runListeners_two (m m' : M unit) (w : world) :
  runListeners [m; m'] w = settle m' (settle m w).
Proof. reflexivity. Qed.

Lemma dispatch_keeps (s : signal) (w : world) :
  match s with SPage h => okPage h | _ => True end ->
  I w -> I (dispatch s w).
Proof.
  intros Hs H. unfold dispatch.
  destruct s; cbn [listenersOf];
    repeat match goal with
           | |- context [when ?b _] => destruct b; unfold when
           end;
    rewrite ?runListeners_two, ?runListeners_one, ?runListeners_nil;
    try assumption;
    try one_listener.
  - (* the page itself changes *)
    apply I_page; assumption.
  - (* a click: the click listener, then the idle timer *)
    apply I_resetIdleTimer. one_listener.
  - (* a scroll of the viewport *)
    apply I_onScroll, I_resetIdleTimer, H.
  - (* a mouse move with its listener *)
    apply I_onMouseMove, I_resetIdleTimer, H.
Qed.

Lemma fire_keeps (x : timer) (w : world) : I w -> I (fire x w).
Proof.
  intro H. unfold fire.
  set (w1 := set_timers _ _ w).
  assert (H1 : I w1) by (apply I_unqueue; exact H).
  assert (H2 : I (set_now (Z.max (now w1) (tm_due x)) w1)) by (apply I_clock; exact H1).
  destruct (tm_cb x); simpl.
  - apply I_scrollCallback; exact H2.
  - apply logsOnly_keeps; [apply logsOnly_resizeCallback | exact H2].
  - apply I_idleCallback; exact H2.
  - apply I_observeCallback; exact H2.
Qed.

Lemma advanceFuel_keeps (n : nat) (t : Z) (w : world) :
  I w -> I (advanceFuel n t w).
Proof.
  revert w. induction n as [|n IH]; intros w H; simpl; [exact H|].
  destruct (nextDue t (timers w)) as [x|]; [|exact H].
  apply IH, fire_keeps, H.
Qed.

Lemma deliver_keeps (x : timed) (w : world) :
  match at_signal x with SPage h => okPage h | _ => True end ->
  I w -> I (deliver x w).
Proof.
  intros Hs H. unfold deliver. apply dispatch_keeps; [exact Hs|].
  apply I_clock. unfold advance. apply advanceFuel_keeps, H.
Qed.

Theorem run_keeps (l : list timed) (w : world) :
  pagesIn okPage l -> I w -> I (run l w).
Proof.
  unfold run. revert w. induction l as [|x l IH]; intros w Hl H; simpl.
  - exact H.
  - inversion Hl; subst. apply IH; [assumption|].
    apply deliver_keeps; assumption.
Qed.

End RunInvariant.

Lemma pagesIn_any (l : list timed) : pagesIn anyPage l.
Proof.
  unfold pagesIn. apply Forall_forall. intros x _.
  destruct (at_signal x); exact Logic.I.
Qed.

(** ** The special listeners, step by step *)

Lemma settle_resetIdleTimer (w : world) :
  settle resetIdleTimer w =
    let w1 := settle (clearTimeout (idleTimer w)) w in
    if isIdle (st w1)
    then
      let w2 := set_st (with_isIdle false) w1 in
      settle (logEvent "user_active" "session" (h_body (page w2)) (activeInfo w2) ;;;
              modify rearmed) w2
    else rearmed w1.
Proof.
  unfold resetIdleTimer. rewrite settle_gets.
  rewrite settle_bind.
  change (fst (clearTimeout (idleTimer w) w)) with (Some tt).
  change (snd (clearTimeout (idleTimer w) w)) with (settle (clearTimeout (idleTimer w)) w).
  cbv iota zeta.
  set (w1 := settle (clearTimeout (idleTimer w)) w).
  rewrite settle_gets.
  destruct (isIdle (st w1)) eqn:Hi.
  - unfold settle, bind, modify, gets, ret, rearmed, activeInfo, settle, setTimeout.
    simpl.
    destruct (logEvent _ _ _ _ _) as [[d|] w']; reflexivity.
  - reflexivity.
Qed.

Lemma settle_idleCallback (w : world) :
  settle idleCallback w =
    let w1 := set_st (with_isIdle true) w in
    settle (logEvent "user_idle" "session" (h_body (page w1)) (idleInfo w1)) w1.
Proof.
  unfold idleCallback. rewrite settle_modify, settle_gets, settle_then_ret.
  reflexivity.
Qed.

Lemma settle_onScroll (w : world) :
  settle onScroll w =
    let w1 := settle (clearTimeout (scrollTimeout w)) w in
    set_scrollTimeout (Some (nextTimer w1))
      (settle (setTimeout CbScroll (scrollThrottle (cfg w1))) w1).
Proof. reflexivity. Qed.

Lemma settle_onResize (w : world) :
  settle onResize w =
    let w1 := settle (clearTimeout (resizeTimeout w)) w in
    set_resizeTimeout (Some (nextTimer w1))
      (settle (setTimeout CbResize (resizeThrottle (cfg w1))) w1).
Proof. reflexivity. Qed.

Lemma settle_scrollCallback (w : world) :
  settle scrollCallback w =
    settle (logEvent "scroll" "page" (h_body (page w))
              (scrollInfoObj (getScrollInfo (page w)))) (scrolled w).
Proof.
  unfold scrollCallback. rewrite settle_gets. cbv zeta.
  rewrite settle_modify. unfold scrolled. cbv zeta.
  change (maxScrollDepth (st (set_st (with_scrollDepth
            (scroll_percentage (getScrollInfo (page w)))) w)))
    with (maxScrollDepth (st w)).
  destruct (JsNum.gt _ _);
    [rewrite settle_modify | rewrite settle_ret_then];
    rewrite settle_then_ret; reflexivity.
Qed.

Lemma settle_onMouseMove (e : event) (w : world) :
  settle (onMouseMove e) w =
    let w1 := trailed e w in
    if mouseMoveThrottle (cfg w1) <? now w1 - lastMouseLog w1
    then settle (logEvent "mouse_move" "cursor" (Some (ev_target e)) (mouseMoveInfo e))
                (set_lastMouseLog (now w1) w1)
    else w1.
Proof.
  unfold onMouseMove. cbv zeta. rewrite settle_modify, settle_gets.
  fold (trailed e w). cbv zeta.
  destruct (_ <? _); [|reflexivity].
  rewrite settle_modify, settle_then_ret. reflexivity.
Qed.

Lemma settle_observerEntry (en : entry) (w : world) :
  settle (observerEntry en) w =
    if (en_isIntersecting en && negb (observed (st w) (en_target en)))%bool
    then settle (logEvent "view" (getElementType (Some (en_target en)))
                   (Some (en_target en)) (viewInfo en)) (noted en w)
    else w.
Proof.
  unfold observerEntry. rewrite settle_gets.
  destruct (_ && _)%bool; [|reflexivity].
  rewrite settle_modify. cbv zeta. rewrite settle_then_ret. reflexivity.
Qed.

(** An entry leaves the loop running exactly when its [logEvent] did not
    throw. *)
Lemma observerEntry_returns (en : entry) (w : world) :
  fst (observerEntry en w) = None ->
  (en_isIntersecting en && negb (observed (st w) (en_target en)))%bool = true
  /\ loggable (h_body (page w)) (en_target en) = false.
Proof.
  unfold observerEntry, bind, gets, modify, ret.
  destruct (_ && _)%bool; [|discriminate].
  intro H. split; [reflexivity|].
  rewrite logEvent_eq in H.
  destruct (recordOf _ _ _ _ _) as [d|] eqn:Hr; [discriminate|].
  destruct (loggable (h_body (page w)) (en_target en)) eqn:L; [|reflexivity].
  edestruct recordOf_loggable as [d Hd]; [|rewrite Hd in Hr; discriminate].
  exact L.
Qed.

Lemma settle_forEach_cons {A : Type} (f : A -> M unit) (x : A) (r : list A) (w : world) :
  settle (forEach f (x :: r)) w =
    match fst (f x w) with
    | Some _ => settle (forEach f r) (settle (f x) w)
    | None => settle (f x) w
    end.
Proof. simpl. rewrite settle_bind. reflexivity. Qed.

Lemma settle_then_modify {A : Type} (m : M A) (f : world -> world) (w : world) :
  settle (m ;;; modify f) w =
    match fst (m w) with
    | Some _ => f (settle m w)
    | None => settle m w
    end.
Proof. unfold settle, bind, modify. destruct (m w) as [[a|] w']; reflexivity. Qed.

(** ** Invariants that the timers and the idle flag do not touch *)

(** For a property that does not read the timer queue, the handles or the
    idle flag, it is enough to look at [logEvent] and at the three
    listeners that write other parts of the state. *)
Section FramedInvariant.

Variable J : world -> Prop.
Variable okPage : host -> Prop.

Hypothesis J_log : forall w ty ob el info,
  In ty sessionTypes -> plainInfo info = true ->
  J w -> J (settle (logEvent ty ob el info) w).
Hypothesis J_isIdle : forall b w, J w -> J (set_st (with_isIdle b) w).
Hypothesis J_timers : forall l n w, J w -> J (set_timers l n w).
Hypothesis J_idleTimer : forall h w, J w -> J (set_idleTimer h w).
Hypothesis J_scrollTimeout : forall h w, J w -> J (set_scrollTimeout h w).
Hypothesis J_resizeTimeout : forall h w, J w -> J (set_resizeTimeout h w).
Hypothesis J_observing : forall b w, J w -> J (set_observing b w).
Hypothesis J_page : forall h w, okPage h -> J w -> J (set_page h w).
Hypothesis J_clock : forall t w, J w -> J (set_now (Z.max (now w) t) w).
Hypothesis J_scrollCallback : forall w, J w -> J (settle scrollCallback w).
Hypothesis J_onMouseMove : forall e w, J w -> J (settle (onMouseMove e) w).
Hypothesis J_observerCallback : forall entries w,
  J w -> J (settle (observerCallback entries) w).

Lemma framed_clearTimeout (h : option nat) (w : world) :
  J w -> J (settle (clearTimeout h) w).
Proof.
  intro H. unfold clearTimeout, settle, modify. simpl.
  destruct h; [apply J_timers|]; exact H.
Qed.

Lemma framed_setTimeout (cb : callback) (d : Z) (w : world) :
  J w -> J (settle (setTimeout cb d) w).
Proof. intro H. unfold setTimeout, settle. simpl. apply J_timers, H. Qed.

Lemma framed_rearmed (w : world) : J w -> J (rearmed w).
Proof. intro H. unfold rearmed. apply J_idleTimer, framed_setTimeout, H. Qed.

Lemma framed_resetIdleTimer (w : world) : J w -> J (settle resetIdleTimer w).
Proof.
  intro H. rewrite settle_resetIdleTimer. cbv zeta.
  assert (H1 : J (settle (clearTimeout (idleTimer w)) w))
    by (apply framed_clearTimeout, H).
  destruct (isIdle _).
  - rewrite settle_then_modify.
    assert (H2 : J (settle
              (logEvent "user_active" "session"
                 (h_body (page (set_st (with_isIdle false)
                                  (settle (clearTimeout (idleTimer w)) w))))
                 (activeInfo (set_st (with_isIdle false)
                                  (settle (clearTimeout (idleTimer w)) w))))
              (set_st (with_isIdle false) (settle (clearTimeout (idleTimer w)) w)))).
    { apply J_log; [| reflexivity | apply J_isIdle, H1].
      unfold sessionTypes. apply in_or_app. right. right. left. reflexivity. }
    destruct (fst _); [apply framed_rearmed|]; exact H2.
  - apply framed_rearmed, H1.
Qed.

Lemma framed_idleCallback (w : world) : J w -> J (settle idleCallback w).
Proof.
  intro H. rewrite settle_idleCallback. cbv zeta.
  apply J_log; [| reflexivity | apply J_isIdle, H].
  unfold sessionTypes. apply in_or_app. right. left. reflexivity.
Qed.

Lemma framed_onScroll (w : world) : J w -> J (settle onScroll w).
Proof.
  intro H. rewrite settle_onScroll. cbv zeta.
  apply J_scrollTimeout, framed_setTimeout, framed_clearTimeout, H.
Qed.

Lemma framed_onResize (w : world) : J w -> J (settle onResize w).
Proof.
  intro H. rewrite settle_onResize. cbv zeta.
  apply J_resizeTimeout, framed_setTimeout, framed_clearTimeout, H.
Qed.

Theorem framed_run_keeps (l : list timed) (w : world) :
  pagesIn okPage l -> J w -> J (run l w).
Proof.
  apply run_keeps.
  - intros w0 ty ob el info Ht Hp H. apply J_log; try assumption.
    unfold sessionTypes. apply in_or_app. left. exact Ht.
  - exact framed_resetIdleTimer.
  - exact framed_idleCallback.
  - exact framed_onScroll.
  - exact J_scrollCallback.
  - exact framed_onResize.
  - exact J_onMouseMove.
  - exact J_observerCallback.
  - intros w0 H. apply (J_observing true), H.
  - exact J_page.
  - exact J_clock.
  - intros f w0 H. apply J_timers, H.
Qed.

End FramedInvariant.

(** ** What [logEvent] writes *)

Lemma settle_logEvent_cases (ty ob : string) (el : option element) (info : obj) (w : world) :
  (recordOf ty ob el info (touched w) = None
   /\ settle (logEvent ty ob el info) w = touched w)
  \/ (exists d, recordOf ty ob el info (touched w) = Some d
      /\ settle (logEvent ty ob el info) w = push_emitted (mkEmission el d) (touched w)).
Proof.
  rewrite settle_logEvent.
  destruct (recordOf ty ob el info (touched w)) as [d|]; [right; eauto | left; auto].
Qed.

Lemma logEvent_st (ty ob : string) (el : option element) (info : obj) (w : world) :
  st (settle (logEvent ty ob el info) w) = touch (now w) (st w).
Proof.
  destruct (settle_logEvent_cases ty ob el info w) as [[_ ->]|(d & _ & ->)]; reflexivity.
Qed.

Lemma logEvent_frame (ty ob : string) (el : option element) (info : obj) (w : world) :
  let w' := settle (logEvent ty ob el info) w in
  cfg w' = cfg w /\ page w' = page w /\ now w' = now w /\ timers w' = timers w
  /\ nextTimer w' = nextTimer w /\ lastMouseLog w' = lastMouseLog w
  /\ observing w' = observing w /\ registered w' = registered w
  /\ idleTimer w' = idleTimer w /\ scrollTimeout w' = scrollTimeout w
  /\ resizeTimeout w' = resizeTimeout w.
Proof.
  cbv zeta.
  destruct (settle_logEvent_cases ty ob el info w) as [[_ ->]|(d & _ & ->)];
    repeat split; reflexivity.
Qed.

Lemma hasType_record (ty' : string) {ty ob : string} {el : option element}
    {info : obj} {w : world} {d : obj} :
  plainInfo info = true ->
  recordOf ty ob el info w = Some d ->
  hasType ty' (mkEmission el d) = String.eqb ty ty'.
Proof.
  intros Hp Hd. unfold hasType. simpl.
  rewrite (recordOf_typeOf Hp Hd). reflexivity.
Qed.

(** The records of another type are left as they were. *)
Lemma logEvent_other_type (ty' ty ob : string) (el : option element) (info : obj)
    (w : world) :
  plainInfo info = true -> ty <> ty' ->
  filter (hasType ty') (emitted (settle (logEvent ty ob el info) w))
    = filter (hasType ty') (emitted w).
Proof.
  intros Hp Hne.
  destruct (settle_logEvent_cases ty ob el info w) as [[_ ->]|(d & Hd & ->)];
    [reflexivity|].
  simpl. rewrite (hasType_record ty' Hp Hd).
  apply String.eqb_neq in Hne. rewrite Hne. reflexivity.
Qed.

Lemma rawTypes_not (ty ty' : string) :
  In ty rawTypes -> includes rawTypes ty' = false -> ty <> ty'.
Proof.
  intros Hin Hn <-. unfold includes in Hn.
  assert (E : existsb (String.eqb ty) rawTypes = true).
  { apply existsb_exists. exists ty. split; [exact Hin | apply String.eqb_refl]. }
  rewrite E in Hn. discriminate.
Qed.

Lemma sessionTypes_not (ty ty' : string) :
  In ty sessionTypes -> includes sessionTypes ty' = false -> ty <> ty'.
Proof.
  intros Hin Hn <-. unfold includes in Hn.
  assert (E : existsb (String.eqb ty) sessionTypes = true).
  { apply existsb_exists. exists ty. split; [exact Hin | apply String.eqb_refl]. }
  rewrite E in Hn. discriminate.
Qed.

(** ** The idle flag never stays up *)

Section NeverActive.

Lemma neverActive_logEvent (ty ob : string) (el : option element) (info : obj)
    (w : world) :
  plainInfo info = true -> ty <> "user_active" ->
  noneOfType "user_active" w ->
  neverActive (settle (logEvent ty ob el info) w).
Proof.
  intros Hp Hne Hn. split.
  - rewrite logEvent_st. reflexivity.
  - unfold noneOfType. rewrite logEvent_other_type by assumption. exact Hn.
Qed.

Lemma neverActive_resetIdleTimer (w : world) :
  neverActive w -> neverActive (settle resetIdleTimer w).
Proof.
  intros [Hi Hn]. rewrite settle_resetIdleTimer. cbv zeta.
  replace (isIdle (st (settle (clearTimeout (idleTimer w)) w))) with false
    by (destruct (idleTimer w); symmetry; exact Hi).
  split.
  - destruct (idleTimer w); exact Hi.
  - unfold noneOfType. destruct (idleTimer w); exact Hn.
Qed.

Lemma neverActive_observerCallback (entries : list entry) (w : world) :
  neverActive w -> neverActive (settle (observerCallback entries) w).
Proof.
  unfold observerCallback. revert w.
  induction entries as [|en r IH]; intros w H; [exact H|].
  rewrite settle_forEach_cons.
  assert (H1 : neverActive (settle (observerEntry en) w)).
  { rewrite settle_observerEntry. destruct (_ && _)%bool; [|exact H].
    apply neverActive_logEvent; [reflexivity | discriminate | apply H]. }
  destruct (fst _); [apply IH|]; exact H1.
Qed.

Theorem neverActive_run (l : list timed) (w : world) :
  neverActive w -> neverActive (run l w).
Proof.
  apply (run_keeps neverActive anyPage); [ | | | | | | | | | | | | apply pagesIn_any ].
  - intros w0 ty ob el info Ht Hp [_ H].
    apply neverActive_logEvent; [exact Hp | | exact H].
    apply rawTypes_not; [exact Ht | reflexivity].
  - exact neverActive_resetIdleTimer.
  - intros w0 [_ H]. rewrite settle_idleCallback. cbv zeta.
    apply neverActive_logEvent; [reflexivity | discriminate | exact H].
  - intros w0 H. rewrite settle_onScroll. cbv zeta.
    destruct (scrollTimeout w0); exact H.
  - intros w0 [_ H]. rewrite settle_scrollCallback.
    apply neverActive_logEvent; [reflexivity | discriminate |].
    unfold scrolled. cbv zeta. destruct (JsNum.gt _ _); exact H.
  - intros w0 H. rewrite settle_onResize. cbv zeta.
    destruct (resizeTimeout w0); exact H.
  - intros e w0 [Hi H]. rewrite settle_onMouseMove. cbv zeta.
    destruct (_ <? _); [|split; assumption].
    apply neverActive_logEvent; [reflexivity | discriminate | exact H].
  - exact neverActive_observerCallback.
  - intros w0 H. exact H.
  - intros h w0 _ H. exact H.
  - intros t w0 H. exact H.
  - intros f w0 H. exact H.
Qed.

Lemma neverActive_boot (c : CONFIG) (h : host) (t0 : Z) : neverActive (boot c h t0).
Proof.
  unfold boot. cbv zeta. apply neverActive_resetIdleTimer.
  destruct (trackVisibility c); split; reflexivity.
Qed.

End NeverActive.

(** ** One view record per node *)

Section ViewedOnce.









End ViewedOnce.

Lemma run_app (l l' : list timed) (w : world) :
  run (l ++ l') w = run l' (run l w).
Proof. unfold run. apply fold_left_app. Qed.


(** ** Sequence numbers *)

Section Numbers.

Lemma records_push (m : emission) (w : world) :
  records (push_emitted m w) = (records w ++ [m])%list.
Proof. reflexivity. Qed.

Lemma firstNumbers_S (n : nat) :
  firstNumbers (S n) = (firstNumbers n ++ [VInt (Z.of_nat (S n))])%list.
Proof. unfold firstNumbers. rewrite seq_S, map_app. reflexivity. Qed.

Lemma numberedInOrder_logEvent (ty ob : string) (el : option element) (info : obj)
    (w : world) :
  plainInfo info = true ->
  numberedInOrder w -> numberedInOrder (settle (logEvent ty ob el info) w).
Proof.
  intros Hp [Hle Heq]. unfold numberedInOrder.
  destruct (settle_logEvent_cases ty ob el info w) as [[_ ->]|(d & Hd & ->)].
  - change (emitted (touched w)) with (emitted w).
    change (eventCount (st (touched w))) with (eventCount (st w) + 1).
    split; [lia|]. intro Habs. lia.
  - change (emitted (push_emitted (mkEmission el d) (touched w)))
      with (mkEmission el d :: emitted w).
    change (eventCount (st (push_emitted (mkEmission el d) (touched w))))
      with (eventCount (st w) + 1).
    cbn [List.length]. split; [lia|].
    intro E. unfold numbers. rewrite records_push, map_app, firstNumbers_S.
    f_equal.
    + apply Heq. lia.
    + cbn [map em_data]. rewrite (recordOf_numberOf Hp Hd).
      change (eventCount (st (touched w))) with (eventCount (st w) + 1).
      do 2 f_equal. lia.
Qed.

Theorem numberedInOrder_run (l : list timed) (w : world) :
  numberedInOrder w -> numberedInOrder (run l w).
Proof.
  apply (framed_run_keeps numberedInOrder anyPage);
    [ | | | | | | | | | | | | apply pagesIn_any ];
    try (intros; assumption).
  - intros w0 ty ob el info _ Hp H. apply numberedInOrder_logEvent; assumption.
  - intros w0 H. rewrite settle_scrollCallback.
    apply numberedInOrder_logEvent; [reflexivity|].
    unfold scrolled. cbv zeta. destruct (JsNum.gt _ _); exact H.
  - intros e w0 H. rewrite settle_onMouseMove. cbv zeta.
    destruct (_ <? _); [|exact H].
    apply numberedInOrder_logEvent; [reflexivity | exact H].
  - intros entries. unfold observerCallback.
    induction entries as [|en r IH]; intros w0 H; [exact H|].
    rewrite settle_forEach_cons.
    assert (H1 : numberedInOrder (settle (observerEntry en) w0)).
    { rewrite settle_observerEntry. destruct (_ && _)%bool; [|exact H].
      apply numberedInOrder_logEvent; [reflexivity | exact H]. }
    destruct (fst _); [apply IH|]; exact H1.
Qed.

Lemma numberedInOrder_boot (c : CONFIG) (h : host) (t0 : Z) :
  numberedInOrder (boot c h t0).
Proof.
  unfold boot. cbv zeta. rewrite settle_resetIdleTimer. cbv zeta.
  destruct (trackVisibility c); simpl; split; (reflexivity || lia).
Qed.

(** X7.  In a run where no call of [logEvent] was lost to an exception (the
    counter equals the number of records) the records are numbered
    1, 2, ..., N. *)
Theorem numbers_without_gap (c : CONFIG) (h : host) (t0 : Z) (l : list timed) :
  let w := run l (boot c h t0) in
  Z.of_nat (List.length (records w)) = eventCount (st w) ->
  numbers w = firstNumbers (List.length (records w)).
Proof.
  cbv zeta. unfold records at 1 2. rewrite length_rev.
  apply (numberedInOrder_run l (boot c h t0) (numberedInOrder_boot c h t0)).
Qed.

End Numbers.

(** ** The order of numbers *)

Module JsNumFacts.

Import JsNum.

Lemma le_refl (a : jsnum) : is_nan a = false -> le a a.
Proof. destruct a; simpl; intro H; try exact Logic.I; [discriminate | apply Qle_refl]. Qed.

Lemma le_trans (a b c : jsnum) : le a b -> le b c -> le a c.
Proof.
  destruct a, b, c; simpl; intros H1 H2;
    try exact Logic.I; try contradiction.
  eapply Qle_trans; eassumption.
Qed.

Lemma gt_le (p m : jsnum) : gt p m = true -> le m p.
Proof.
  destruct p as [| | |x], m as [| | |y]; simpl; intro H;
    try exact Logic.I; try discriminate.
  destruct (x ?= y)%Q eqn:E; try discriminate.
  apply Qlt_le_weak. apply Qgt_alt. exact E.
Qed.

Lemma not_gt_le (p m : jsnum) :
  is_nan p = false -> is_nan m = false -> gt p m = false -> le p m.
Proof.
  destruct p as [| | |x], m as [| | |y]; simpl; intros Hp Hm H;
    try exact Logic.I; try discriminate.
  destruct (x ?= y)%Q eqn:E; try discriminate.
  - apply Qeq_alt in E. rewrite E. apply Qle_refl.
  - apply Qlt_le_weak. apply Qlt_alt. exact E.
Qed.

Lemma max_not_nan (m p : jsnum) :
  is_nan m = false -> is_nan p = false -> is_nan (max m p) = false.
Proof. unfold max. destruct (gt p m); auto. Qed.

Lemma le_max_l (m p : jsnum) : is_nan m = false -> le m (max m p).
Proof.
  intro H. unfold max. destruct (gt p m) eqn:E.
  - apply gt_le, E.
  - apply le_refl, H.
Qed.

Lemma le_max_r (m p : jsnum) :
  is_nan m = false -> is_nan p = false -> le p (max m p).
Proof.
  intros Hm Hp. unfold max. destruct (gt p m) eqn:E.
  - apply le_refl, Hp.
  - apply not_gt_le; assumption.
Qed.

Lemma max_either (m p : jsnum) : max m p = m \/ max m p = p.
Proof. unfold max. destruct (gt p m); auto. Qed.

End JsNumFacts.

(** ** The maximum of a list of percentages *)

Section Maximum.

Import JsNum.

Lemma fold_max_not_nan (l : list jsnum) (m : jsnum) :
  is_nan m = false -> Forall (fun p => is_nan p = false) l ->
  is_nan (fold_left max l m) = false.
Proof.
  revert m. induction l as [|p r IH]; intros m Hm Hl; simpl; [exact Hm|].
  inversion Hl; subst. apply IH; [apply JsNumFacts.max_not_nan|]; assumption.
Qed.

Lemma fold_max_above_start (l : list jsnum) (m : jsnum) :
  is_nan m = false -> Forall (fun p => is_nan p = false) l ->
  le m (fold_left max l m).
Proof.
  revert m. induction l as [|p r IH]; intros m Hm Hl; simpl.
  - apply JsNumFacts.le_refl, Hm.
  - inversion Hl; subst.
    apply (JsNumFacts.le_trans _ (max m p));
      [apply JsNumFacts.le_max_l; exact Hm|].
    apply IH; [apply JsNumFacts.max_not_nan|]; assumption.
Qed.

Lemma fold_max_upper (l : list jsnum) (m : jsnum) :
  is_nan m = false -> Forall (fun p => is_nan p = false) l ->
  forall p, In p l -> le p (fold_left max l m).
Proof.
  revert m. induction l as [|q r IH]; intros m Hm Hl p Hp; [contradiction|].
  inversion Hl; subst. simpl. destruct Hp as [->|Hp].
  - apply (JsNumFacts.le_trans _ (max m p));
      [apply JsNumFacts.le_max_r; assumption|].
    apply fold_max_above_start; [apply JsNumFacts.max_not_nan|]; assumption.
  - apply IH; [apply JsNumFacts.max_not_nan| |]; assumption.
Qed.

Lemma fold_max_attained (l : list jsnum) (m : jsnum) :
  fold_left max l m = m \/ In (fold_left max l m) l.
Proof.
  revert m. induction l as [|q r IH]; intro m; simpl; [left; reflexivity|].
  destruct (IH (max m q)) as [E|Hin].
  - rewrite E. destruct (JsNumFacts.max_either m q) as [->| ->]; auto.
  - right. right. exact Hin.
Qed.

(** [maximumOf] is the maximum: it bounds every percentage from above,
    and it is one of them or the initial 0. *)
Lemma maximumOf_is_maximum (l : list jsnum) :
  Forall (fun p => is_nan p = false) l ->
  (forall p, In p l -> le p (maximumOf l))
  /\ le zero (maximumOf l)
  /\ (maximumOf l = zero \/ In (maximumOf l) l).
Proof.
  intro Hl. unfold maximumOf. split; [|split].
  - apply fold_max_upper; [reflexivity | exact Hl].
  - apply fold_max_above_start; [reflexivity | exact Hl].
  - apply fold_max_attained.
Qed.

Lemma runningMax_snoc (l : list jsnum) (m p : jsnum) :
  runningMax m (l ++ [p]) = (runningMax m l ++ [max (fold_left max l m) p])%list.
Proof.
  revert m. induction l as [|q r IH]; intro m; simpl; [reflexivity|].
  rewrite IH. reflexivity.
Qed.

End Maximum.

(** ** Scroll depth *)

Section ScrollDepth.

Lemma recordsOfType_rev (ty : string) (w : world) :
  recordsOfType ty w = rev (filter (hasType ty) (emitted w)).
Proof. unfold recordsOfType, records. apply filter_rev. Qed.

Lemma recordsOfType_logEvent_other (ty' ty ob : string) (el : option element)
    (info : obj) (w : world) :
  plainInfo info = true -> ty <> ty' ->
  recordsOfType ty' (settle (logEvent ty ob el info) w) = recordsOfType ty' w.
Proof.
  intros Hp Hne. rewrite !recordsOfType_rev.
  rewrite logEvent_other_type by assumption. reflexivity.
Qed.

Lemma plain_scrollInfoObj (i : scrollInfo) : plainInfo (scrollInfoObj i) = true.
Proof. reflexivity. Qed.

Lemma scrolled_frame (w : world) :
  page (scrolled w) = page w
  /\ emitted (scrolled w) = emitted w
  /\ maxScrollDepth (st (scrolled w))
       = JsNum.max (maxScrollDepth (st w))
                   (scroll_percentage (getScrollInfo (page w))).
Proof.
  unfold scrolled, JsNum.max. cbv zeta.
  destruct (JsNum.gt _ _); repeat split; reflexivity.
Qed.

(** What the scroll callback does on a page whose body can be logged:
    the depth is raised first, and the record that follows carries the
    percentage and the raised depth. *)
Lemma scrollCallback_emits (w : world) :
  bodyOk (page w) ->
  exists d,
    let p := scroll_percentage (getScrollInfo (page w)) in
    settle scrollCallback w
      = push_emitted (mkEmission (h_body (page w)) d) (touched (scrolled w))
    /\ hasType "scroll" (mkEmission (h_body (page w)) d) = true
    /\ pctOf (mkEmission (h_body (page w)) d) = p
    /\ snapshotOf (mkEmission (h_body (page w)) d)
         = JsNum.max (maxScrollDepth (st w)) p
    /\ maxScrollDepth (st (settle scrollCallback w))
         = JsNum.max (maxScrollDepth (st w)) p.
Proof.
  intro Hb. rewrite settle_scrollCallback.
  destruct (scrolled_frame w) as (Hpage & Hem & Hmax).
  destruct (settle_logEvent_cases "scroll" "page" (h_body (page w))
              (scrollInfoObj (getScrollInfo (page w))) (scrolled w))
    as [[Hn _]|(d & Hd & ->)].
  - exfalso.
    edestruct (recordOf_loggable "scroll" "page" (h_body (page w))
                 (scrollInfoObj (getScrollInfo (page w))) (touched (scrolled w)))
      as [d Hd]; [|rewrite Hd in Hn; discriminate].
    change (page (touched (scrolled w))) with (page (scrolled w)).
    rewrite Hpage. exact Hb.
  - exists d. cbv zeta. split; [reflexivity|].
    split; [rewrite (hasType_record "scroll" (plain_scrollInfoObj _) Hd);
            reflexivity|].
    split; [|split].
    + unfold pctOf. cbn [em_data].
      destruct (recordOf_get "scroll_percentage" Hd) as (i & t & p & ->).
      reflexivity.
    + unfold snapshotOf. cbn [em_data].
      rewrite (recordOf_snapshot (plain_scrollInfoObj _) Hd).
      change (maxScrollDepth (st (touched (scrolled w))))
        with (maxScrollDepth (st (scrolled w))).
      exact Hmax.
    + change (maxScrollDepth (st (push_emitted (mkEmission (h_body (page w)) d)
                                    (touched (scrolled w)))))
        with (maxScrollDepth (st (scrolled w))).
      exact Hmax.
Qed.

Lemma tracksMaximum_logEvent (ty ob : string) (el : option element) (info : obj)
    (w : world) :
  plainInfo info = true -> ty <> "scroll" ->
  tracksMaximum w -> tracksMaximum (settle (logEvent ty ob el info) w).
Proof.
  intros Hp Hne (Hb & Hn & Hm & Hs). unfold tracksMaximum, percentagesSeen.
  rewrite recordsOfType_logEvent_other by assumption.
  rewrite logEvent_st.
  destruct (logEvent_frame ty ob el info w) as (_ & -> & _).
  repeat split; assumption.
Qed.

Lemma tracksMaximum_scrollCallback (w : world) :
  tracksMaximum w -> tracksMaximum (settle scrollCallback w).
Proof.
  intros (Hb & Hn & Hm & Hs).
  destruct (scrollCallback_emits w Hb) as (d & Hw & Hty & Hp & Hsnap & Hmax).
  cbv zeta in *. unfold tracksMaximum, percentagesSeen. rewrite Hmax.
  rewrite Hw.
  assert (R : recordsOfType "scroll"
                (push_emitted (mkEmission (h_body (page w)) d) (touched (scrolled w)))
              = (recordsOfType "scroll" w ++ [mkEmission (h_body (page w)) d])%list).
  { unfold recordsOfType. rewrite records_push, filter_app.
    cbn [filter]. rewrite Hty.
    change (records (touched (scrolled w))) with (rev (emitted (scrolled w))).
    destruct (scrolled_frame w) as (_ & -> & _). reflexivity. }
  rewrite R, !map_app. cbn [map]. rewrite Hp, Hsnap.
  split; [|split; [|split]].
  - change (page (push_emitted (mkEmission (h_body (page w)) d)
                    (touched (scrolled w)))) with (page (scrolled w)).
    destruct (scrolled_frame w) as (-> & _). exact Hb.
  - apply Forall_app. split; [exact Hn|].
    constructor; [apply scroll_percentage_not_nan | constructor].
  - unfold maximumOf. rewrite fold_left_app. cbn [fold_left].
    rewrite Hm. reflexivity.
  - rewrite runningMax_snoc. f_equal; [exact Hs|].
    rewrite Hm. reflexivity.
Qed.

Lemma tracksMaximum_observerCallback (entries : list entry) (w : world) :
  tracksMaximum w -> tracksMaximum (settle (observerCallback entries) w).
Proof.
  unfold observerCallback. revert w.
  induction entries as [|en r IH]; intros w H; [exact H|].
  rewrite settle_forEach_cons.
  assert (H1 : tracksMaximum (settle (observerEntry en) w)).
  { rewrite settle_observerEntry. destruct (_ && _)%bool; [|exact H].
    apply tracksMaximum_logEvent; [reflexivity | discriminate | exact H]. }
  destruct (fst _); [apply IH|]; exact H1.
Qed.

Theorem tracksMaximum_run (l : list timed) (w : world) :
  pagesIn bodyOk l -> tracksMaximum w -> tracksMaximum (run l w).
Proof.
  apply (framed_run_keeps tracksMaximum bodyOk);
    try (intros; assumption).
  - intros w0 ty ob el info Ht Hp H.
    apply tracksMaximum_logEvent; [exact Hp | | exact H].
    apply sessionTypes_not; [exact Ht | reflexivity].
  - intros h w0 Hh (_ & H). split; [exact Hh | exact H].
  - exact tracksMaximum_scrollCallback.
  - intros e w0 H. rewrite settle_onMouseMove. cbv zeta.
    destruct (_ <? _); [|exact H].
    apply tracksMaximum_logEvent; [reflexivity | discriminate | exact H].
  - exact tracksMaximum_observerCallback.
Qed.

Lemma tracksMaximum_boot (c : CONFIG) (h : host) (t0 : Z) :
  bodyOk h -> tracksMaximum (boot c h t0).
Proof.
  intro Hb. unfold boot. cbv zeta. rewrite settle_resetIdleTimer. cbv zeta.
  destruct (trackVisibility c); simpl;
    (split; [exact Hb | split; [constructor | split; reflexivity]]).
Qed.

Lemma depthAtLeast_scrollCallback (m0 : jsnum) (w : world) :
  depthAtLeast m0 w -> depthAtLeast m0 (settle scrollCallback w).
Proof.
  intros [Hn Hle]. rewrite settle_scrollCallback. unfold depthAtLeast.
  rewrite logEvent_st.
  change (maxScrollDepth (touch (now (scrolled w)) (st (scrolled w))))
    with (maxScrollDepth (st (scrolled w))).
  destruct (scrolled_frame w) as (_ & _ & ->). split.
  - apply JsNumFacts.max_not_nan; [exact Hn | apply scroll_percentage_not_nan].
  - eapply JsNumFacts.le_trans; [exact Hle | apply JsNumFacts.le_max_l, Hn].
Qed.

Theorem depthAtLeast_run (m0 : jsnum) (l : list timed) (w : world) :
  depthAtLeast m0 w -> depthAtLeast m0 (run l w).
Proof.
  apply (framed_run_keeps (depthAtLeast m0) anyPage);
    [ | | | | | | | | | | | | apply pagesIn_any ];
    try (intros; assumption).
  - intros w0 ty ob el info _ _ H. unfold depthAtLeast.
    rewrite logEvent_st. exact H.
  - apply depthAtLeast_scrollCallback.
  - intros e w0 H. rewrite settle_onMouseMove. cbv zeta.
    destruct (_ <? _); [|exact H].
    unfold depthAtLeast. rewrite logEvent_st. exact H.
  - intros entries. unfold observerCallback.
    induction entries as [|en r IH]; intros w0 H; [exact H|].
    rewrite settle_forEach_cons.
    assert (H1 : depthAtLeast m0 (settle (observerEntry en) w0)).
    { rewrite settle_observerEntry. destruct (_ && _)%bool; [|exact H].
      unfold depthAtLeast. rewrite logEvent_st. exact H. }
    destruct (fst _); [apply IH|]; exact H1.
Qed.

(** From the start of the script on, [maxScrollDepth] is a number. *)
Lemma depth_is_number (c : CONFIG) (h : host) (t0 : Z) (l : list timed) :
  JsNum.is_nan (maxScrollDepth (st (run l (boot c h t0)))) = false.
Proof.
  apply (depthAtLeast_run JsNum.zero l (boot c h t0)).
  unfold boot. cbv zeta. rewrite settle_resetIdleTimer. cbv zeta.
  destruct (trackVisibility c); simpl; split;
    first [reflexivity | apply Qle_refl].
Qed.

(** [maxScrollDepth] never decreases along a run. *)
Theorem maxScrollDepth_monotone (c : CONFIG) (h : host) (t0 : Z) (l l' : list timed) :
  JsNum.le (maxScrollDepth (st (run l (boot c h t0))))
           (maxScrollDepth (st (run (l ++ l') (boot c h t0)))).
Proof.
  rewrite run_app.
  apply (depthAtLeast_run _ l' (run l (boot c h t0))).
  split; [apply depth_is_number|].
  apply JsNumFacts.le_refl, depth_is_number.
Qed.

End ScrollDepth.

(** ** Mouse moves *)

Section MouseMoves.

Lemma plain_mouseMoveInfo (e : event) : plainInfo (mouseMoveInfo e) = true.
Proof. reflexivity. Qed.

(** A signal that comes more than [mouseMoveThrottle] ms after the last
    logged one is logged, with its own coordinates and instant. *)
Lemma onMouseMove_logs (w : world) (e : event) :
  mouseMoveThrottle (cfg w) < now w - lastMouseLog w ->
  loggable (h_body (page w)) (ev_target e) = true ->
  exists d,
    emitted (settle (onMouseMove e) w) = mkEmission (Some (ev_target e)) d :: emitted w
    /\ hasType "mouse_move" (mkEmission (Some (ev_target e)) d) = true
    /\ JsObj.get "coordinates" d = coordinatesOf e
    /\ timestampOf (mkEmission (Some (ev_target e)) d) = now w
    /\ lastMouseLog (settle (onMouseMove e) w) = now w
    /\ isIdle (st (settle (onMouseMove e) w)) = false.
Proof.
  intros Ht L. rewrite settle_onMouseMove. cbv zeta.
  change (cfg (trailed e w)) with (cfg w).
  change (now (trailed e w)) with (now w).
  change (lastMouseLog (trailed e w)) with (lastMouseLog w).
  apply Z.ltb_lt in Ht. rewrite Ht.
  set (w2 := set_lastMouseLog (now w) (trailed e w)).
  destruct (settle_logEvent_cases "mouse_move" "cursor" (Some (ev_target e))
              (mouseMoveInfo e) w2) as [[Hn _]|(d & Hd & ->)].
  - exfalso.
    edestruct (recordOf_loggable "mouse_move" "cursor" (Some (ev_target e))
                 (mouseMoveInfo e) (touched w2)) as [d Hd];
      [exact L | rewrite Hd in Hn; discriminate].
  - exists d. split; [reflexivity|].
    split; [rewrite (hasType_record "mouse_move" (plain_mouseMoveInfo e) Hd);
            reflexivity|].
    split; [|split; [|split; reflexivity]].
    + destruct (recordOf_get "coordinates" Hd) as (i & t & p & ->). reflexivity.
    + unfold timestampOf. cbn [em_data].
      destruct (recordOf_get "timestamp" Hd) as (i & t & p & ->). reflexivity.
Qed.

(** A signal that comes sooner is dropped: only the trail changes. *)
Lemma onMouseMove_drops (w : world) (e : event) :
  now w - lastMouseLog w <= mouseMoveThrottle (cfg w) ->
  settle (onMouseMove e) w = trailed e w.
Proof.
  intro Ht. rewrite settle_onMouseMove. cbv zeta.
  change (cfg (trailed e w)) with (cfg w).
  change (now (trailed e w)) with (now w).
  change (lastMouseLog (trailed e w)) with (lastMouseLog w).
  replace (mouseMoveThrottle (cfg w) <? now w - lastMouseLog w) with false
    by (symmetry; apply Z.ltb_ge; exact Ht).
  reflexivity.
Qed.

(** While the session is active [resetIdleTimer] writes to the timer
    queue and to [idleTimer] only. *)
Lemma resetIdleTimer_when_active (w : world) :
  isIdle (st w) = false ->
  let w' := settle resetIdleTimer w in
  st w' = st w /\ emitted w' = emitted w /\ cfg w' = cfg w /\ page w' = page w
  /\ now w' = now w /\ lastMouseLog w' = lastMouseLog w
  /\ registered w' = registered w.
Proof.
  intro Hi. cbv zeta. rewrite settle_resetIdleTimer. cbv zeta.
  replace (isIdle (st (settle (clearTimeout (idleTimer w)) w))) with false
    by (destruct (idleTimer w); symmetry; exact Hi).
  destruct (idleTimer w); repeat split; reflexivity.
Qed.

Lemma dispatch_mouseMove (w : world) (e : event) :
  onMouseMovement (registered w) = true ->
  dispatch (SMouseMove e) w = settle (onMouseMove e) (settle resetIdleTimer w).
Proof. intro H. unfold dispatch, listenersOf. rewrite H. reflexivity. Qed.

(** Two mouse moves [d] ms apart, [d] within the throttle, the first of
    them past the throttle: one record, made at the first signal from
    the first signal's data; the second signal leaves no record. *)
Lemma two_moves_one_record (w : world) (e1 e2 : event) (t d : Z) :
  isIdle (st w) = false ->
  onMouseMovement (registered w) = true ->
  loggable (h_body (page w)) (ev_target e1) = true ->
  mouseMoveThrottle (cfg w) < t - lastMouseLog w ->
  0 <= d <= mouseMoveThrottle (cfg w) ->
  let w1 := dispatch (SMouseMove e1) (set_now t w) in
  let w2 := dispatch (SMouseMove e2) (set_now (t + d) w1) in
  exists r,
    emitted w1 = mkEmission (Some (ev_target e1)) r :: emitted w
    /\ emitted w2 = emitted w1
    /\ hasType "mouse_move" (mkEmission (Some (ev_target e1)) r) = true
    /\ JsObj.get "coordinates" r = coordinatesOf e1
    /\ timestampOf (mkEmission (Some (ev_target e1)) r) = t.
Proof.
  intros Hi Hr L Ht Hd. cbv zeta.
  rewrite dispatch_mouseMove by exact Hr.
  destruct (resetIdleTimer_when_active (set_now t w) Hi)
    as (Hst & Hem & Hcfg & Hpage & Hn & Hlast & Hreg).
  set (wa := settle resetIdleTimer (set_now t w)) in *.
  destruct (onMouseMove_logs wa e1) as (r & Er & Ety & Eco & Ets & Elast & Eidle).
  { rewrite Hcfg, Hn, Hlast. exact Ht. }
  { rewrite Hpage. exact L. }
  set (w1 := settle (onMouseMove e1) wa) in *.
  assert (Hreg1 : onMouseMovement (registered (set_now (t + d) w1)) = true).
  { change (registered (set_now (t + d) w1)) with (registered w1).
    unfold w1. rewrite settle_onMouseMove. cbv zeta.
    destruct (_ <? _).
    - destruct (logEvent_frame "mouse_move" "cursor" (Some (ev_target e1))
                  (mouseMoveInfo e1)
                  (set_lastMouseLog (now (trailed e1 wa)) (trailed e1 wa)))
        as (_ & _ & _ & _ & _ & _ & _ & -> & _).
      change (registered (set_lastMouseLog (now (trailed e1 wa)) (trailed e1 wa)))
        with (registered wa).
      rewrite Hreg. exact Hr.
    - change (registered (trailed e1 wa)) with (registered wa).
      rewrite Hreg. exact Hr. }
  rewrite dispatch_mouseMove by exact Hreg1.
  destruct (resetIdleTimer_when_active (set_now (t + d) w1) Eidle)
    as (Hst' & Hem' & Hcfg' & Hpage' & Hn' & Hlast' & _).
  set (wb := settle resetIdleTimer (set_now (t + d) w1)) in *.
  exists r. split; [rewrite Er, Hem; reflexivity|].
  split.
  - rewrite onMouseMove_drops.
    + change (emitted (trailed e2 wb)) with (emitted wb). rewrite Hem'. reflexivity.
    + rewrite Hcfg', Hn', Hlast'.
      change (now (set_now (t + d) w1)) with (t + d).
      change (lastMouseLog (set_now (t + d) w1)) with (lastMouseLog w1).
      change (cfg (set_now (t + d) w1)) with (cfg w1).
      rewrite Elast, Hn.
      change (now (set_now t w)) with t.
      assert (Hc1 : cfg w1 = cfg w).
      { unfold w1. rewrite settle_onMouseMove. cbv zeta.
        destruct (_ <? _).
        - destruct (logEvent_frame "mouse_move" "cursor" (Some (ev_target e1))
                      (mouseMoveInfo e1)
                      (set_lastMouseLog (now (trailed e1 wa)) (trailed e1 wa)))
            as (-> & _).
          exact Hcfg.
        - exact Hcfg. }
      rewrite Hc1. lia.
  - split; [exact Ety|]. split; [exact Eco|].
    rewrite Ets, Hn. reflexivity.
Qed.

End MouseMoves.

Section Throttle.

Variable c : CONFIG.
Hypothesis throttle_nonneg : 0 <= mouseMoveThrottle c.

Lemma throttled_logEvent (ty ob : string) (el : option element) (info : obj)
    (w : world) :
  plainInfo info = true -> ty <> "mouse_move" ->
  throttled c w -> throttled c (settle (logEvent ty ob el info) w).
Proof.
  intros Hp Hne (Hc & Hs & Hf). unfold throttled, mouseMoveTimes.
  rewrite logEvent_other_type by assumption.
  destruct (logEvent_frame ty ob el info w) as (-> & _ & _ & _ & _ & -> & _).
  repeat split; assumption.
Qed.

Lemma spaced_cons (th a : Z) (l : list Z) :
  spaced th l -> Forall (fun t => th < a - t) l -> spaced th (a :: l).
Proof.
  intros Hs Hf. simpl. split; [|exact Hs].
  destruct l as [|b r]; [exact Logic.I|]. inversion Hf; assumption.
Qed.

Lemma throttled_onMouseMove (e : event) (w : world) :
  throttled c w -> throttled c (settle (onMouseMove e) w).
Proof.
  intros (Hc & Hs & Hf). rewrite settle_onMouseMove. cbv zeta.
  change (cfg (trailed e w)) with (cfg w).
  change (now (trailed e w)) with (now w).
  change (lastMouseLog (trailed e w)) with (lastMouseLog w).
  rewrite Hc.
  destruct (Z.ltb_spec (mouseMoveThrottle c) (now w - lastMouseLog w)) as [Ht|Ht];
    [|repeat split; assumption].
  set (w2 := set_lastMouseLog (now w) (trailed e w)).
  assert (Hold : Forall (fun t => t <= now w) (mouseMoveTimes w)).
  { eapply Forall_impl; [|exact Hf]. cbv beta. intros t Hle. lia. }
  assert (Hfar : Forall (fun t => mouseMoveThrottle c < now w - t) (mouseMoveTimes w)).
  { eapply Forall_impl; [|exact Hf]. cbv beta. intros t Hle. lia. }
  destruct (settle_logEvent_cases "mouse_move" "cursor" (Some (ev_target e))
              (mouseMoveInfo e) w2) as [[_ ->]|(d & Hd & ->)].
  - repeat split; assumption.
  - unfold throttled, mouseMoveTimes.
    change (emitted (push_emitted (mkEmission (Some (ev_target e)) d) (touched w2)))
      with (mkEmission (Some (ev_target e)) d :: emitted w).
    cbn [filter].
    rewrite (hasType_record "mouse_move" (plain_mouseMoveInfo e) Hd).
    cbn [String.eqb Ascii.eqb Bool.eqb andb map].
    assert (Ets : timestampOf (mkEmission (Some (ev_target e)) d) = now w).
    { unfold timestampOf. cbn [em_data].
      destruct (recordOf_get "timestamp" Hd) as (i & t & p & ->). reflexivity. }
    change (String.eqb "mouse_move" "mouse_move") with true. cbv iota.
    cbn [map]. rewrite Ets.
    split; [exact Hc|]. split.
    + apply spaced_cons; assumption.
    + constructor; [apply Z.le_refl | exact Hold].
Qed.

Theorem throttled_run (l : list timed) (w : world) :
  throttled c w -> throttled c (run l w).
Proof.
  apply (framed_run_keeps (throttled c) anyPage);
    [ | | | | | | | | | | | | apply pagesIn_any ];
    try (intros; assumption).
  - intros w0 ty ob el info Ht Hp H.
    apply throttled_logEvent; [exact Hp | | exact H].
    apply sessionTypes_not; [exact Ht | reflexivity].
  - intros w0 H. rewrite settle_scrollCallback.
    apply throttled_logEvent; [reflexivity | discriminate |].
    unfold scrolled. cbv zeta. destruct (JsNum.gt _ _); exact H.
  - exact throttled_onMouseMove.
  - intros entries. unfold observerCallback.
    induction entries as [|en r IH]; intros w0 H; [exact H|].
    rewrite settle_forEach_cons.
    assert (H1 : throttled c (settle (observerEntry en) w0)).
    { rewrite settle_observerEntry. destruct (_ && _)%bool; [|exact H].
      apply throttled_logEvent; [reflexivity | discriminate | exact H]. }
    destruct (fst _); [apply IH|]; exact H1.
Qed.

Lemma throttled_boot (h : host) (t0 : Z) : throttled c (boot c h t0).
Proof.
  unfold boot. cbv zeta. rewrite settle_resetIdleTimer. cbv zeta.
  destruct (trackVisibility c); simpl;
    (split; [reflexivity | split; [exact Logic.I | constructor]]).
Qed.

End Throttle.

(** ** The timer queue is emptied of what is due *)

Section Advance.

Lemma callback_keeps_timers (cb : callback) (w : world) :
  timers (settle (callbackOf cb) w) = timers w.
Proof.
  destruct cb; simpl.
  - rewrite settle_scrollCallback.
    destruct (logEvent_frame "scroll" "page" (h_body (page w))
                (scrollInfoObj (getScrollInfo (page w))) (scrolled w))
      as (_ & _ & _ & -> & _).
    unfold scrolled. cbv zeta. destruct (JsNum.gt _ _); reflexivity.
  - destruct (logsOnly_resizeCallback w) as [->|(ty & ob & el & info & _ & _ & ->)];
      [reflexivity|].
    destruct (logEvent_frame ty ob el info w) as (_ & _ & _ & -> & _). reflexivity.
  - rewrite settle_idleCallback. cbv zeta.
    match goal with
    | |- timers (settle (logEvent ?ty ?ob ?el ?info) ?w1) = _ =>
        destruct (logEvent_frame ty ob el info w1) as (_ & _ & _ & -> & _)
    end.
    reflexivity.
  - reflexivity.
Qed.

Lemma timers_fire (x : timer) (w : world) :
  timers (fire x w)
    = filter (fun y => negb (Nat.eqb (tm_id y) (tm_id x))) (timers w).
Proof. unfold fire. cbv zeta. rewrite callback_keeps_timers. reflexivity. Qed.

Lemma nextDue_In (t : Z) (l : list timer) (x : timer) :
  nextDue t l = Some x -> In x l /\ tm_due x <= t.
Proof.
  revert x. induction l as [|y r IH]; intros x H; simpl in H; [discriminate|].
  destruct (nextDue t r) as [z|].
  - destruct (tm_due y <=? t) eqn:E.
    + destruct (firesBefore y z); simpl in H; injection H as <-.
      * split; [left; reflexivity | apply Z.leb_le, E].
      * destruct (IH z eq_refl). split; [right|]; assumption.
    + simpl in H. injection H as <-.
      destruct (IH z eq_refl). split; [right|]; assumption.
  - destruct (tm_due y <=? t) eqn:E; [|discriminate].
    injection H as <-. split; [left; reflexivity | apply Z.leb_le, E].
Qed.

Lemma nextDue_None (t : Z) (l : list timer) :
  nextDue t l = None -> Forall (fun y => t < tm_due y) l.
Proof.
  induction l as [|y r IH]; intro H; simpl in H; [constructor|].
  destruct (nextDue t r) as [z|].
  - destruct ((tm_due y <=? t) && firesBefore y z)%bool; discriminate.
  - destruct (tm_due y <=? t) eqn:E; [discriminate|].
    constructor; [apply Z.leb_gt, E | apply IH; reflexivity].
Qed.

Lemma filter_shorter (x : timer) (l : list timer) :
  In x l ->
  (List.length (filter (fun y => negb (Nat.eqb (tm_id y) (tm_id x))) l)
   < List.length l)%nat.
Proof.
  induction l as [|y r IH]; intro H; [contradiction|]. simpl.
  destruct H as [->|H].
  - rewrite Nat.eqb_refl. simpl.
    pose proof (filter_length_le (fun y => negb (Nat.eqb (tm_id y) (tm_id x))) r).
    lia.
  - specialize (IH H).
    destruct (negb (Nat.eqb (tm_id y) (tm_id x))); simpl; lia.
Qed.

Lemma advanceFuel_complete (n : nat) (t : Z) (w : world) :
  (List.length (timers w) <= n)%nat ->
  Forall (fun y => t < tm_due y) (timers (advanceFuel n t w)).
Proof.
  revert w. induction n as [|n IH]; intros w Hn; simpl.
  - destruct (timers w); [constructor | simpl in Hn; lia].
  - destruct (nextDue t (timers w)) as [x|] eqn:E.
    + apply IH. rewrite timers_fire.
      destruct (nextDue_In _ _ _ E) as [Hin _].
      pose proof (filter_shorter x (timers w) Hin). lia.
    + apply nextDue_None, E.
Qed.

(** The fuel of [advance] is enough: once it returns, every timer still
    pending is due after [t]. *)
Theorem advance_complete (t : Z) (w : world) :
  Forall (fun y => t < tm_due y) (timers (advance t w)).
Proof. unfold advance. apply advanceFuel_complete. apply Nat.le_refl. Qed.

End Advance.

(** * The claims of the specification *)

(** ** Sequence numbers *)

(** C1.  The counter is incremented at the top of [logEvent], before the
    record is built; a call that throws while building it (line 188, on a
    node without a tag name) uses up a number without emitting a record.
    A drag that starts on a text node followed by a click on a button
    leaves one record, numbered 2: the sequence 1..N has a gap. *)
Theorem sequence_number_lost_to_thrown_call :
  let w := run dragThenClick (start somePage 0) in
  numbers w = [VInt 2]
  /\ eventCount (st w) = 2
  /\ List.length (records w) = 1%nat
  /\ numbers w <> firstNumbers (List.length (records w)).
Proof.
  cbv zeta.
  assert (E : numbers (run dragThenClick (start somePage 0)) = [VInt 2])
    by (vm_compute; reflexivity).
  rewrite E. repeat split; try (vm_compute; reflexivity).
  vm_compute. discriminate.
Qed.

(** ** Idle detection *)

(** C2.  After 31 seconds of silence the idle timer emits one [user_idle]
    record, but the [logEvent] that emits it clears the idle flag again
    (line 179), so the click that follows finds the session active and no
    [user_active] record is emitted. *)
Theorem silence_then_click_emits_no_user_active :
  let w := run silenceThenClick (start somePage 0) in
  map (fun m => typeOf (em_data m)) (records w) = [VStr "user_idle"; VStr "click"]
  /\ map timestampOf (records w) = [30000; 31000]
  /\ recordsOfType "user_active" w = []
  /\ isIdle (st w) = false
  /\ map (fun m => typeOf (em_data m)) (records (run twoSilences (start somePage 0)))
       = [VStr "user_idle"; VStr "click"; VStr "user_idle"].
Proof. cbv zeta. repeat split; vm_compute; reflexivity. Qed.

(** No run of the script, whatever the configuration, the page and the
    signals, ever emits a [user_active] record. *)
Theorem user_active_never_emitted (c : CONFIG) (h : host) (t0 : Z) (l : list timed) :
  recordsOfType "user_active" (run l (boot c h t0)) = []
  /\ isIdle (st (run l (boot c h t0))) = false.
Proof.
  destruct (neverActive_run l (boot c h t0) (neverActive_boot c h t0)) as [Hi Hn].
  split; [|exact Hi].
  rewrite recordsOfType_rev. unfold noneOfType in Hn. rewrite Hn. reflexivity.
Qed.

(** ** Redaction *)

Lemma change_record_withValue (w : world) (el : element) (p : string -> jsval) (v : jsval) :
  el_type el = Some "password" ->
  map em_data (emitted (dispatch (SChange (mkEvent (withValue v el) p)) w))
    = map em_data (emitted (dispatch (SChange (mkEvent el p)) w)).
Proof.
  intro Ht.
  unfold dispatch, listenersOf, runListeners, fold_left, onChange.
  rewrite !settle_then_ret, !settle_logEvent. cbn [ev_target].
  assert (R : forall u,
            recordOf "change" (getElementType (Some (withValue v el)))
              (Some (withValue v el))
              [ ("value", redactedValue (withValue v el));
                ("checked", el_props (withValue v el) "checked");
                ("selected_index", el_props (withValue v el) "selectedIndex");
                ("selected_options",
                  if truthyVal (el_props (withValue v el) "selectedOptions")
                  then el_props (withValue v el) "selectedOptions"
                  else VUndef) ] u
            = recordOf "change" (getElementType (Some el)) (Some el)
              [ ("value", redactedValue el);
                ("checked", el_props el "checked");
                ("selected_index", el_props el "selectedIndex");
                ("selected_options",
                  if truthyVal (el_props el "selectedOptions")
                  then el_props el "selectedOptions"
                  else VUndef) ] u).
  { intro u. unfold recordOf. rewrite getElementPath_withValue.
    unfold redactedValue. cbn [withValue el_type el_tagName el_props]. rewrite Ht.
    reflexivity. }
  rewrite R.
  destruct (recordOf _ _ _ _ _); reflexivity.
Qed.

(** C3.  A change on a password input emits one record whose [value] is
    the mask [***]; the record is the same whatever text the field holds
    (two runs that differ in the password only emit the same data). *)
Theorem password_change_is_redacted (w : world) (e : event) (v1 v2 : jsval) :
  el_type (ev_target e) = Some "password" ->
  loggable (h_body (page w)) (ev_target e) = true ->
  (exists d,
     emitted (dispatch (SChange e) w) = mkEmission (Some (ev_target e)) d :: emitted w
     /\ JsObj.get "value" d = VStr "***")
  /\ map em_data
       (emitted (dispatch (SChange (mkEvent (withValue v1 (ev_target e)) (ev_prop e))) w))
     = map em_data
         (emitted (dispatch (SChange (mkEvent (withValue v2 (ev_target e)) (ev_prop e))) w)).
Proof.
  intros Ht L. split.
  - destruct (onChange_emits w e L) as (d & Hd & He).
    exists d. split; [exact He|].
    destruct (recordOf_get "value" Hd) as (i & t & p & ->).
    cbn [override String.eqb Ascii.eqb Bool.eqb].
    unfold redactedValue. rewrite Ht. reflexivity.
  - rewrite !change_record_withValue by exact Ht. reflexivity.
Qed.

Lemma password_change_is_redacted_witness :
  el_type (ev_target keyInPassword) = Some "password"
  /\ loggable (h_body (page (start somePage 0))) (ev_target keyInPassword) = true
  /\ (exists d,
        emitted (dispatch (SChange keyInPassword) (start somePage 0))
          = mkEmission (Some (ev_target keyInPassword)) d :: emitted (start somePage 0)
        /\ JsObj.get "value" d = VStr "***").
Proof.
  split; [reflexivity|]. split; [reflexivity|].
  apply (password_change_is_redacted (start somePage 0) keyInPassword
           (VStr "hunter2") (VStr "correct horse")); reflexivity.
Defined.

(** C10.  With the keyboard listeners registered, a key press emits one
    [keyboard] record that carries [e.key] and [e.code] as they are, on
    every target: the keys typed into a password input are logged in
    clear. *)
Theorem keydown_logs_literal_key (w : world) (e : event) :
  onKeyboard (registered w) = true ->
  loggable (h_body (page w)) (ev_target e) = true ->
  exists d,
    emitted (dispatch (SKeyDown e) w) = mkEmission (Some (ev_target e)) d :: emitted w
    /\ typeOf d = VStr "keyboard"
    /\ JsObj.get "event_object" d = VStr "keydown"
    /\ JsObj.get "key" d = ev_prop e "key"
    /\ JsObj.get "code" d = ev_prop e "code".
Proof. apply onKeyDown_emits. Qed.

Lemma keydown_logs_literal_key_witness :
  el_type (ev_target keyInPassword) = Some "password"
  /\ exists d,
       emitted (dispatch (SKeyDown keyInPassword) (start somePage 0))
         = mkEmission (Some (ev_target keyInPassword)) d :: emitted (start somePage 0)
       /\ typeOf d = VStr "keyboard"
       /\ JsObj.get "event_object" d = VStr "keydown"
       /\ JsObj.get "key" d = VStr "h"
       /\ JsObj.get "code" d = VStr "KeyH".
Proof.
  split; [reflexivity|].
  apply (keydown_logs_literal_key (start somePage 0) keyInPassword); reflexivity.
Defined.

(** ** Throttled mouse moves *)

(** C4, as stated, fails: of two mouse moves 100 ms apart, at [(10, 10)]
    and then at [(20, 20)], one record is emitted and it carries the
    coordinates of the first signal, not those of the latest one. *)
Lemma mouse_move_record_is_not_the_latest :
  let w := run twoMoves (start somePage 999000) in
  exists m,
    recordsOfType "mouse_move" w = [m]
    /\ timestampOf m = 1000000
    /\ JsObj.get "coordinates" (em_data m) = coordinatesOf (mouseMoveAt buttonNode 10 10)
    /\ JsObj.get "coordinates" (em_data m) <> coordinatesOf (mouseMoveAt buttonNode 20 20).
Proof.
  cbv zeta.
  assert (E : exists m, recordsOfType "mouse_move" (run twoMoves (start somePage 999000)) = [m])
    by (vm_compute; eexists; reflexivity).
  destruct E as [m E]. exists m. split; [exact E|].
  vm_compute in E. injection E as <-.
  split; [reflexivity|]. split; [reflexivity|].
  vm_compute. discriminate.
Qed.

(** Two identical mouse moves 100 ms apart leave one record, made at the
    first of them. *)
Example two_identical_moves_one_record :
  let w := run twoSameMoves (start somePage 999000) in
  exists m,
    records w = [m]
    /\ hasType "mouse_move" m = true
    /\ timestampOf m = 1000000
    /\ JsObj.get "coordinates" (em_data m) = coordinatesOf (mouseMoveAt buttonNode 10 10).
Proof.
  cbv zeta.
  assert (E : exists m, records (run twoSameMoves (start somePage 999000)) = [m])
    by (vm_compute; eexists; reflexivity).
  destruct E as [m E]. exists m. split; [exact E|].
  vm_compute in E. injection E as <-.
  repeat split; reflexivity.
Qed.

(** C4, amended.  The mouse-move listener logs a signal when more than
    [mouseMoveThrottle] ms have passed since the last logged one and drops
    it otherwise.  So in every run consecutive [mouse_move] records lie
    more than [mouseMoveThrottle] ms apart (at most one per throttle
    interval), and of two signals [d] ms apart, [d] within the throttle,
    the record is made at the first signal from the first signal's data,
    the second signal leaving no record; it shows the second signal's
    coordinates only when the two signals carry the same ones. *)
Theorem mouse_move_throttle_keeps_first (c : CONFIG) (h : host) (t0 : Z) (l : list timed)
    (w : world) (e1 e2 : event) (t d : Z) :
  0 <= mouseMoveThrottle c ->
  isIdle (st w) = false ->
  onMouseMovement (registered w) = true ->
  loggable (h_body (page w)) (ev_target e1) = true ->
  mouseMoveThrottle (cfg w) < t - lastMouseLog w ->
  0 <= d <= mouseMoveThrottle (cfg w) ->
  spaced (mouseMoveThrottle c) (mouseMoveTimes (run l (boot c h t0)))
  /\ (let w1 := dispatch (SMouseMove e1) (set_now t w) in
      let w2 := dispatch (SMouseMove e2) (set_now (t + d) w1) in
      exists r,
        emitted w1 = mkEmission (Some (ev_target e1)) r :: emitted w
        /\ emitted w2 = emitted w1
        /\ hasType "mouse_move" (mkEmission (Some (ev_target e1)) r) = true
        /\ JsObj.get "coordinates" r = coordinatesOf e1
        /\ timestampOf (mkEmission (Some (ev_target e1)) r) = t
        /\ (coordinatesOf e2 = coordinatesOf e1 ->
            JsObj.get "coordinates" r = coordinatesOf e2)).
Proof.
  intros Hc Hi Hr L Ht Hd. split.
  - apply (throttled_run c Hc l (boot c h t0) (throttled_boot c h t0)).
  - cbv zeta.
    destruct (two_moves_one_record w e1 e2 t d Hi Hr L Ht Hd)
      as (r & E1 & E2 & Ety & Eco & Ets).
    exists r. repeat split; try assumption.
    intro Same. rewrite Same. exact Eco.
Qed.

Lemma mouse_move_throttle_keeps_first_witness :
  let w := start somePage 999000 in
  let e := mouseMoveAt buttonNode 10 10 in
  spaced 500 (mouseMoveTimes (run twoSameMoves w))
  /\ exists r,
       emitted (dispatch (SMouseMove e) (set_now 1000000 w))
         = mkEmission (Some buttonNode) r :: emitted w
       /\ emitted (dispatch (SMouseMove e)
                     (set_now (1000000 + 100) (dispatch (SMouseMove e) (set_now 1000000 w))))
          = emitted (dispatch (SMouseMove e) (set_now 1000000 w))
       /\ hasType "mouse_move" (mkEmission (Some buttonNode) r) = true
       /\ JsObj.get "coordinates" r = coordinatesOf e
       /\ timestampOf (mkEmission (Some buttonNode) r) = 1000000
       /\ (coordinatesOf e = coordinatesOf e -> JsObj.get "coordinates" r = coordinatesOf e).
Proof.
  cbv zeta.
  apply (mouse_move_throttle_keeps_first defaultCONFIG somePage 999000 twoSameMoves
           (start somePage 999000) (mouseMoveAt buttonNode 10 10)
           (mouseMoveAt buttonNode 10 10) 1000000 100);
    first [reflexivity | (simpl; lia) | (split; discriminate)].
Defined.

(** ** Scroll percentage *)

(** C5.  The fallback [|| 0] of line 161 catches NaN (zero over zero) and
    nothing else.  With the denominator zero and the page scrolled by 15 px
    the percentage is [Infinity]; with a negative denominator it is a
    negative number.  Neither is the 0 that the claim promises whenever the
    denominator is not positive. *)
Theorem scroll_percentage_is_not_defaulted_to_zero :
  scroll_percentage (getScrollInfo pageUnderScrollBar) = JsNum.PosInf
  /\ scroll_percentage (getScrollInfo shortPage) = JsNum.of_Z (-50)
  /\ maxScrollDepth (st (run [At 100 SScroll; At 1000 SLoad]
                           (start pageUnderScrollBar 0))) = JsNum.PosInf.
Proof. repeat split; vm_compute; reflexivity. Qed.

(** ** Maximum scroll depth *)

(** C6.  On a page whose body can be logged, at every point of every run
    [maxScrollDepth] is the maximum of the scroll percentages seen so far
    (over the initial depth 0): it bounds each of them and is one of them
    or 0.  The snapshot of each scroll record is the maximum up to and
    including that record's own percentage, the depth being raised before
    [logEvent] is called; and the depth never decreases as the run goes
    on. *)
Theorem max_scroll_depth_is_running_maximum (c : CONFIG) (h : host) (t0 : Z)
    (l l' : list timed) :
  bodyOk h ->
  pagesIn bodyOk l ->
  let w := run l (boot c h t0) in
  maxScrollDepth (st w) = maximumOf (percentagesSeen w)
  /\ (forall p, In p (percentagesSeen w) -> JsNum.le p (maxScrollDepth (st w)))
  /\ (maxScrollDepth (st w) = JsNum.zero \/ In (maxScrollDepth (st w)) (percentagesSeen w))
  /\ map snapshotOf (recordsOfType "scroll" w)
       = runningMax JsNum.zero (percentagesSeen w)
  /\ JsNum.le (maxScrollDepth (st w))
              (maxScrollDepth (st (run (l ++ l') (boot c h t0)))).
Proof.
  intros Hb Hl. cbv zeta.
  destruct (tracksMaximum_run l (boot c h t0) Hl (tracksMaximum_boot c h t0 Hb))
    as (_ & Hn & Hm & Hs).
  destruct (maximumOf_is_maximum _ Hn) as (Hup & _ & Hat).
  rewrite Hm. repeat split; try assumption.
  rewrite <- Hm. apply maxScrollDepth_monotone.
Qed.

Lemma max_scroll_depth_is_running_maximum_witness :
  bodyOk somePage
  /\ pagesIn bodyOk downThenUp
  /\ percentagesSeen (run downThenUp (start somePage 0)) = [JsNum.of_Z 50; JsNum.of_Z 10]
  /\ maxScrollDepth (st (run downThenUp (start somePage 0)))
       = maximumOf (percentagesSeen (run downThenUp (start somePage 0)))
  /\ map snapshotOf (recordsOfType "scroll" (run downThenUp (start somePage 0)))
       = runningMax JsNum.zero (percentagesSeen (run downThenUp (start somePage 0))).
Proof.
  assert (Hb : bodyOk somePage) by reflexivity.
  assert (Hl : pagesIn bodyOk downThenUp)
    by (repeat constructor).
  split; [exact Hb|]. split; [exact Hl|]. split; [vm_compute; reflexivity|].
  destruct (max_scroll_depth_is_running_maximum defaultCONFIG somePage 0
              downThenUp [] Hb Hl) as (Hm & _ & _ & Hs & _).
  split; [exact Hm | exact Hs].
Defined.

(** C6, as stated, fails: the depth starts at 0 (line 29) and is only
    raised (line 378), so it is the maximum of 0 and the percentages, not
    of the percentages alone.  On a page shorter than the window the one
    percentage seen is -50, which is their maximum, while the depth and
    the snapshot of the scroll record are 0. *)
Lemma max_scroll_depth_is_not_a_negative_maximum :
  let w := run scrollThenLoad (start shortPage 0) in
  bodyOk shortPage
  /\ percentagesSeen w = [JsNum.of_Z (-50)]
  /\ maximumSeen (percentagesSeen w) = Some (JsNum.of_Z (-50))
  /\ maxScrollDepth (st w) = JsNum.zero
  /\ map snapshotOf (recordsOfType "scroll" w) = [JsNum.zero]
  /\ Some (maxScrollDepth (st w)) <> maximumSeen (percentagesSeen w).
Proof.
  cbv zeta. repeat split; try (vm_compute; reflexivity).
  vm_compute. discriminate.
Qed.

(** ** Views *)





(** ** The classifier *)

(** C8, as stated, fails: a content-editable form classifies as
    [contenteditable], where the order of the claim gives [form]. *)
Lemma editable_form_classifies_as_contenteditable :
  getElementType (Some editableForm) = "contenteditable"
  /\ classifyInSpecOrder (Some editableForm) = "form"
  /\ getElementType (Some editableForm) <> classifyInSpecOrder (Some editableForm).
Proof. repeat split; vm_compute; (reflexivity || discriminate). Qed.

(** C8, amended.  [getElementType] is a function of the node alone and
    tests, in this order: the tags button, a, img, video, audio, canvas,
    svg, select, textarea; the content-editable flag; the input sub-table
    with its default [text_input]; the heading levels, form, table, nav,
    iframe; the role; the tag.  It gives what the order of the
    specification gives, except on the content-editable nodes with one of
    the tags tested late, which it calls [contenteditable]. *)
Theorem classifier_priority_order (element : option element) :
  getElementType element =
    if editableLateTag element then "contenteditable"
    else classifyInSpecOrder element.
Proof. apply getElementType_vs_spec_order. Qed.

(** ** Degraded nodes *)

(** C9, as stated, fails on a text node, which has no tag name: its
    identifier is its quoted text, not [unknown], and [logEvent] throws on
    it, emitting nothing. *)
Lemma text_node_is_identified_and_not_logged :
  el_tagName textNode = None
  /\ getElementIdentifier (Some textNode) = dquote ++ "hello" ++ dquote
  /\ getElementIdentifier (Some textNode) <> "unknown"
  /\ fst (logEvent "drag_start" (getElementType (Some textNode)) (Some textNode) []
            (start somePage 0)) = None
  /\ emitted (settle (logEvent "drag_start" (getElementType (Some textNode))
                        (Some textNode) []) (start somePage 0)) = [].
Proof. repeat split; vm_compute; (reflexivity || discriminate). Qed.

(** C9, amended.  On an absent node the classifier and the identifier
    return [unknown] and [logEvent] returns and emits a record that has
    every property of a record, its element fields reading N/A.  On a node
    without a tag name the classifier returns [unknown], and the
    identifier returns [unknown] when the node has no id, class, name,
    data attribute or text either. *)
Theorem degraded_nodes_classify_as_unknown (e : element) (ty ob : string) (info : obj)
    (w : world) :
  el_tagName e = None ->
  getElementType None = "unknown"
  /\ getElementIdentifier None = "unknown"
  /\ (exists d,
        logEvent ty ob None info w
          = (Some d, push_emitted (mkEmission None d) (touched w))
        /\ validRecord d = true
        /\ (plainInfo info = true ->
            JsObj.get "element_identifier" d = VStr "N/A"
            /\ JsObj.get "element_tag" d = VStr "N/A"
            /\ JsObj.get "element_path" d = VStr "N/A"))
  /\ getElementType (Some e) = "unknown"
  /\ (anonymous e = true -> getElementIdentifier (Some e) = "unknown").
Proof.
  intro Ht. split; [reflexivity|]. split; [reflexivity|].
  split; [apply logEvent_absent_node|].
  split; [apply getElementType_no_tag, Ht | apply getElementIdentifier_anonymous].
Qed.

Lemma degraded_nodes_classify_as_unknown_witness :
  let blank := {| el_ref := 6; el_tagName := None; el_type := None; el_role := None;
                  el_contentEditable := None; el_id := None; el_className := None;
                  el_name := None; el_textContent := None; el_dataset := None;
                  el_props := noProps; el_parentElement := None |} in
  el_tagName blank = None
  /\ getElementType (Some blank) = "unknown"
  /\ getElementIdentifier (Some blank) = "unknown"
  /\ exists d,
       logEvent "text_selection" "text" None [] (start somePage 0)
         = (Some d, push_emitted (mkEmission None d) (touched (start somePage 0)))
       /\ validRecord d = true.
Proof.
  cbv zeta. split; [reflexivity|].
  destruct (degraded_nodes_classify_as_unknown
              {| el_ref := 6; el_tagName := None; el_type := None; el_role := None;
                 el_contentEditable := None; el_id := None; el_className := None;
                 el_name := None; el_textContent := None; el_dataset := None;
                 el_props := noProps; el_parentElement := None |}
              "text_selection" "text" [] (start somePage 0) eq_refl)
    as (_ & _ & (d & Hd & Hv & _) & Hty & Hid).
  split; [exact Hty|]. split; [apply Hid; reflexivity|].
  exists d. split; [exact Hd | exact Hv].
Defined.

(** * Further properties of the script *)

(** ** The classifier and the identifier never return the empty string *)

Section NeverEmpty.

Import JsString.

Lemma toLowerCase_truthy (s : string) : truthy (toLowerCase s) = truthy s.
Proof. destruct s; reflexivity. Qed.

Lemma truthy_append_l (a b : string) : truthy a = true -> truthy (a ++ b) = true.
Proof. destruct a; [discriminate | reflexivity]. Qed.

Lemma lookup_inputTypes_truthy (k v : string) :
lookup k inputTypes = Some v -> truthy v = true.
Proof.
unfold inputTypes, lookup.
repeat match goal with
       | |- (if ?c then _ else _) = _ -> _ =>
           destruct c; [intro H; injection H as <-; reflexivity|]
       end.
discriminate.
Qed.

Lemma getElementType_truthy (element : option element) :
truthy (getElementType element) = true.
Proof.
destruct element as [e|]; [|reflexivity].
unfold getElementType.
destruct (truthy_opt (el_tagName e)) eqn:Ht; [|reflexivity].
cbn [negb].
assert (Htag : truthy (toLowerCase
                (match el_tagName e with Some t => t | None => EmptyString end)) = true).
{ rewrite toLowerCase_truthy. destruct (el_tagName e); [exact Ht | discriminate]. }
revert Htag.
generalize (toLowerCase (match el_tagName e with Some t => t | None => EmptyString end)).
intros tag Htag.
repeat match goal with
       | |- truthy (if ?c then _ else _) = true => destruct c; [reflexivity|]
       end.
match goal with
| |- truthy (if ?c then _ else _) = true => destruct c
end.
- destruct (lookup _ inputTypes) as [v|] eqn:Hl; [|reflexivity].
  apply (lookup_inputTypes_truthy _ _ Hl).
- repeat match goal with
         | |- truthy (if ?c then ?a else _) = true =>
             destruct c; [first [reflexivity | apply truthy_append_l, Htag]|]
         end.
  exact Htag.
Qed.

Lemma getElementIdentifier_truthy (element : option element) :
truthy (getElementIdentifier element) = true.
Proof.
destruct element as [e|]; [|reflexivity].
unfold getElementIdentifier. cbv zeta.
match goal with
| |- truthy (if truthy ?s then _ else _) = true => destruct (truthy s) eqn:E
end; [exact E | reflexivity].
Qed.

End NeverEmpty.

(** X1.  Whatever the node (absent, without a tag name, or any element),
    [getElementType] and [getElementIdentifier] return a string that is not
    empty, so the [event_object] and [element_identifier] of a record are
    never blank. *)
Theorem classifier_and_identifier_are_never_empty (element : option element) :
  getElementType element <> EmptyString
  /\ getElementIdentifier element <> EmptyString.
Proof.
  split; intro H.
  - pose proof (getElementType_truthy element) as T. rewrite H in T. discriminate.
  - pose proof (getElementIdentifier_truthy element) as T. rewrite H in T. discriminate.
Qed.

(** ** The scroll percentage inside the scrollable range *)

Section PercentageBounds.

Import JsNum.

Lemma rounded_percentage_bounds (top d : Q) :
(0 < d)%Q -> (0 <= top)%Q -> (top <= d)%Q ->
0 <= Qfloor (top / d * inject_Z 100 + (1 # 2)) <= 100.
Proof.
intros Hd H0 H1.
assert (L : (0 <= top / d)%Q).
{ apply Qle_shift_div_l; [exact Hd|]. rewrite Qmult_0_l. exact H0. }
assert (U : (top / d <= 1)%Q).
{ apply Qle_shift_div_r; [exact Hd|]. rewrite Qmult_1_l. exact H1. }
split.
- change 0 with (Qfloor (0 * inject_Z 100 + (1 # 2))).
  apply Qfloor_resp_le. apply Qplus_le_compat; [|apply Qle_refl].
  apply Qmult_le_compat_r; [exact L | discriminate].
- change 100 with (Qfloor (1 * inject_Z 100 + (1 # 2))).
  apply Qfloor_resp_le. apply Qplus_le_compat; [|apply Qle_refl].
  apply Qmult_le_compat_r; [exact U | discriminate].
Qed.

End PercentageBounds.

(** X3.  While the page is scrolled inside its scrollable range (the
    denominator [scrollHeight - innerHeight] positive and
    [0 <= scrollTop <= scrollHeight - innerHeight]) the percentage is a
    whole number between 0 and 100: 0 at the top, 100 at the bottom. *)
Theorem scroll_percentage_within_range (h : host) (top height inner : Q) :
  JsNum.or (h_pageYOffset h) (h_scrollTop h) = JsNum.Fin top ->
  h_scrollHeight h = JsNum.Fin height ->
  h_innerHeight h = JsNum.Fin inner ->
  (0 < height - inner)%Q ->
  (0 <= top)%Q ->
  (top <= height - inner)%Q ->
  (exists k, scroll_percentage (getScrollInfo h) = JsNum.of_Z k /\ 0 <= k <= 100)
  /\ ((top == 0)%Q -> scroll_percentage (getScrollInfo h) = JsNum.of_Z 0)
  /\ ((top == height - inner)%Q -> scroll_percentage (getScrollInfo h) = JsNum.of_Z 100).
Proof.
  intros Ht Hh Hi Hd H0 H1.
  rewrite (scroll_percentage_positive_denominator h top height inner Ht Hh Hi Hd).
  split; [|split].
  - eexists. split; [reflexivity|]. apply rounded_percentage_bounds; assumption.
  - intro E. f_equal.
    assert (R : (top / (height - inner) * inject_Z 100 + (1 # 2) == 0 * inject_Z 100 + (1 # 2))%Q).
    { rewrite E. unfold Qdiv. rewrite Qmult_0_l. reflexivity. }
    rewrite R. reflexivity.
  - intro E. f_equal.
    assert (R : (top / (height - inner) * inject_Z 100 + (1 # 2) == 1 * inject_Z 100 + (1 # 2))%Q).
    { rewrite E. unfold Qdiv. rewrite Qmult_inv_r; [reflexivity|].
      intro Z0. rewrite Z0 in Hd. discriminate. }
    rewrite R. reflexivity.
Qed.

Lemma scroll_percentage_within_range_witness :
  exists k, scroll_percentage (getScrollInfo (pageAt 125 1000 500)) = JsNum.of_Z k
            /\ 0 <= k <= 100.
Proof.
  apply (scroll_percentage_within_range (pageAt 125 1000 500)
           (inject_Z 125) (inject_Z 1000) (inject_Z 500));
    first [reflexivity | discriminate].
Defined.

(** ** Nodes on which [logEvent] returns *)

Lemma allTagged_path (body : option element) :
  forall e, allTagged e = true -> exists l, pathLevels body e = Some l.
Proof.
  fix IH 1.
  intros [ref tag ty role ce id cls name text data props parent] H.
  cbn [pathLevels].
  destruct (isBody body _); [eauto|].
  cbn [allTagged el_tagName el_parentElement] in H.
  unfold pathSegment. cbn [el_tagName el_id el_className el_parentElement].
  destruct tag as [t|]; [|discriminate].
  destruct parent as [p|]; [|eauto].
  destruct (IH p H) as [l ->]. eauto.
Qed.

Lemma allTagged_loggable (body : option element) (e : element) :
  allTagged e = true -> loggable body e = true.
Proof.
  intro H. unfold loggable, getElementPath.
  destruct (allTagged_path body e H) as [l ->].
  destruct e as [ref tag ty role ce id cls name text data props parent].
  cbn [allTagged el_tagName] in H. cbn [el_tagName].
  destruct tag; [reflexivity | discriminate].
Qed.

(** X4.  [logEvent] returns and emits exactly one record, with every
    property of a record, whenever the node it is given and all the
    ancestors of that node have a tag name, as the elements of a document
    do; the counter then advances by one and the record carries the new
    count. *)
Theorem logEvent_returns_on_tagged_nodes (ty ob : string) (e : element) (info : obj)
    (w : world) :
  allTagged e = true ->
  exists d,
    logEvent ty ob (Some e) info w
      = (Some d, push_emitted (mkEmission (Some e) d) (touched w))
    /\ validRecord d = true
    /\ eventCount (st (settle (logEvent ty ob (Some e) info) w)) = eventCount (st w) + 1
    /\ (plainInfo info = true -> numberOf d = VInt (eventCount (st w) + 1)).
Proof.
  intro H. rewrite logEvent_st, logEvent_eq.
  destruct (recordOf_loggable ty ob (Some e) info (touched w)) as [d Hd].
  { apply (allTagged_loggable (h_body (page w)) e H). }
  rewrite Hd. exists d. split; [reflexivity|].
  split; [apply (recordOf_valid _ _ _ _ _ _ Hd)|].
  split; [reflexivity|].
  intro Hp. rewrite (recordOf_numberOf Hp Hd). reflexivity.
Qed.

Lemma logEvent_returns_on_tagged_nodes_witness :
  exists d,
    logEvent "click" "button" (Some buttonNode) [] (start somePage 0)
      = (Some d, push_emitted (mkEmission (Some buttonNode) d) (touched (start somePage 0)))
    /\ validRecord d = true.
Proof.
  destruct (logEvent_returns_on_tagged_nodes "click" "button" buttonNode []
              (start somePage 0) eq_refl) as (d & E & V & _).
  exists d. split; [exact E | exact V].
Defined.

(** ** The exit record *)

(** X14.  The [page_exit] record counts the events before itself: its
    payload is built before [logEvent] is entered, so its top-level
    [total_events] is one less than its own [event_number] and than the
    [total_events] of its session snapshot, while its [max_scroll_depth]
    agrees with the snapshot. *)
Theorem page_exit_does_not_count_itself (w : world) :
  bodyOk (page w) ->
  exists d,
    emitted (dispatch SBeforeUnload w) = mkEmission (h_body (page w)) d :: emitted w
    /\ typeOf d = VStr "page_exit"
    /\ numberOf d = VInt (eventCount (st w) + 1)
    /\ JsObj.get2 "session_info" "total_events" d = VInt (eventCount (st w) + 1)
    /\ JsObj.get "total_events" d = VInt (eventCount (st w))
    /\ JsObj.get "max_scroll_depth" d = VNum (maxScrollDepth (st w))
    /\ JsObj.get2 "session_info" "max_scroll_depth" d = VNum (maxScrollDepth (st w)).
Proof.
  intro Hb.
  assert (P : plainInfo
                [ ("time_on_page", VInt (now w - sessionStart (st w)));
                  ("total_events", VInt (eventCount (st w)));
                  ("max_scroll_depth", VNum (maxScrollDepth (st w))) ] = true)
    by reflexivity.
  destruct (recordOf_loggable "page_exit" "page" (h_body (page w))
              [ ("time_on_page", VInt (now w - sessionStart (st w)));
                ("total_events", VInt (eventCount (st w)));
                ("max_scroll_depth", VNum (maxScrollDepth (st w))) ] (touched w) Hb)
    as [d Hd].
  exists d. split.
  - unfold dispatch, listenersOf, runListeners, fold_left, onBeforeUnload.
    rewrite settle_gets, settle_then_ret, settle_logEvent, Hd. reflexivity.
  - split; [apply (recordOf_typeOf P Hd)|].
    split; [rewrite (recordOf_numberOf P Hd); reflexivity|].
    split.
    { unfold JsObj.get2.
      destruct (recordOf_get "session_info" Hd) as (i & t & p & ->). reflexivity. }
    split.
    { destruct (recordOf_get "total_events" Hd) as (i & t & p & ->). reflexivity. }
    split.
    { destruct (recordOf_get "max_scroll_depth" Hd) as (i & t & p & ->). reflexivity. }
    rewrite (recordOf_snapshot P Hd). reflexivity.
Qed.

Lemma page_exit_does_not_count_itself_witness :
  exists d,
    emitted (dispatch SBeforeUnload (start somePage 0))
      = mkEmission (Some bodyNode) d :: emitted (start somePage 0)
    /\ numberOf d = VInt 1
    /\ JsObj.get "total_events" d = VInt 0.
Proof.
  destruct (page_exit_does_not_count_itself (start somePage 0) eq_refl)
    as (d & E & _ & N & _ & T & _).
  exists d. split; [exact E|]. split; [exact N | exact T].
Defined.

(** ** What the input and clipboard records show *)

Lemma input_record_withValue (w : world) (el : element) (p : string -> jsval)
    (s1 s2 : string) :
  String.length s1 = String.length s2 ->
  map em_data (emitted (dispatch (SInput (mkEvent (withValue (VStr s1) el) p)) w))
    = map em_data (emitted (dispatch (SInput (mkEvent (withValue (VStr s2) el) p)) w)).
Proof.
  intro Hl.
  unfold dispatch, listenersOf, runListeners, fold_left, onInput.
  rewrite !settle_then_ret, !settle_logEvent. cbn [ev_target ev_prop].
  assert (R : forall u,
            recordOf "input" (getElementType (Some (withValue (VStr s1) el)))
              (Some (withValue (VStr s1) el))
              [ ("value_length",
                  if truthyVal (el_props (withValue (VStr s1) el) "value")
                  then match el_props (withValue (VStr s1) el) "value" with
                       | VStr s => VInt (Z.of_nat (String.length s))
                       | VArr l => VInt (Z.of_nat (List.length l))
                       | _ => VUndef
                       end
                  else VInt 0);
                ("input_type", p "inputType") ] u
            = recordOf "input" (getElementType (Some (withValue (VStr s2) el)))
              (Some (withValue (VStr s2) el))
              [ ("value_length",
                  if truthyVal (el_props (withValue (VStr s2) el) "value")
                  then match el_props (withValue (VStr s2) el) "value" with
                       | VStr s => VInt (Z.of_nat (String.length s))
                       | VArr l => VInt (Z.of_nat (List.length l))
                       | _ => VUndef
                       end
                  else VInt 0);
                ("input_type", p "inputType") ] u).
  { intro u. unfold recordOf. rewrite !getElementPath_withValue.
    cbn [withValue el_tagName el_props String.eqb Ascii.eqb Bool.eqb truthyVal].
    rewrite Hl.
    assert (T : JsString.truthy s1 = JsString.truthy s2).
    { destruct s1, s2; try reflexivity; discriminate. }
    rewrite T. reflexivity. }
  rewrite R.
  destruct (recordOf _ _ _ _ _); reflexivity.
Qed.

(** X11.  An [input] record shows the length of the field's value and
    nothing else of it: two fields that differ only in their text, of the
    same length, produce the same record, and on a node that can be logged
    the record's [value_length] is that length. *)
Theorem input_record_shows_only_the_length (w : world) (el : element)
    (p : string -> jsval) (s1 s2 : string) :
  String.length s1 = String.length s2 ->
  loggable (h_body (page w)) el = true ->
  map em_data (emitted (dispatch (SInput (mkEvent (withValue (VStr s1) el) p)) w))
    = map em_data (emitted (dispatch (SInput (mkEvent (withValue (VStr s2) el) p)) w))
  /\ exists d,
       emitted (dispatch (SInput (mkEvent (withValue (VStr s1) el) p)) w)
         = mkEmission (Some (withValue (VStr s1) el)) d :: emitted w
       /\ JsObj.get "value_length" d = VInt (Z.of_nat (String.length s1)).
Proof.
  intros Hl L. split; [apply input_record_withValue, Hl|].
  set (e := mkEvent (withValue (VStr s1) el) p).
  set (info := [ ("value_length",
                   if truthyVal (el_props (ev_target e) "value")
                   then match el_props (ev_target e) "value" with
                        | VStr s => VInt (Z.of_nat (String.length s))
                        | VArr l => VInt (Z.of_nat (List.length l))
                        | _ => VUndef
                        end
                   else VInt 0);
                 ("input_type", ev_prop e "inputType") ]).
  destruct (recordOf_loggable "input" (getElementType (Some (ev_target e)))
              (Some (ev_target e)) info (touched w)) as [d Hd].
  { unfold e. cbn [ev_target loggableOpt]. rewrite loggable_withValue. exact L. }
  exists d. split.
  - unfold dispatch, listenersOf, runListeners, fold_left, onInput.
    rewrite settle_then_ret. fold info. rewrite settle_logEvent, Hd. reflexivity.
  - destruct (recordOf_get "value_length" Hd) as (i & t & q & ->).
    unfold info, e.
    cbn [override String.eqb Ascii.eqb Bool.eqb ev_target withValue el_props truthyVal].
    destruct s1; reflexivity.
Qed.

Lemma input_record_shows_only_the_length_witness :
  map em_data (emitted (dispatch (SInput (mkEvent (withValue (VStr "hunter2")
                          (passwordInput EmptyString)) noProps)) (start somePage 0)))
    = map em_data (emitted (dispatch (SInput (mkEvent (withValue (VStr "secret7")
                          (passwordInput EmptyString)) noProps)) (start somePage 0))).
Proof.
  apply (input_record_shows_only_the_length (start somePage 0) (passwordInput EmptyString)
           noProps "hunter2" "secret7"); reflexivity.
Defined.

Section Prefixes.

Import JsString.

Lemma prefix_length (n : nat) (s : string) :
String.length (prefix n s) = Nat.min n (String.length s).
Proof.
unfold prefix. revert s. induction n as [|n IH]; intros [|c s]; simpl;
  try reflexivity.
rewrite IH. reflexivity.
Qed.

Lemma prefix_is_prefix (n : nat) (s : string) :
String.prefix (prefix n s) s = true.
Proof.
unfold prefix. revert s. induction n as [|n IH]; intros [|c s]; simpl;
  try reflexivity.
destruct (ascii_dec c c) as [_|N]; [apply IH | contradiction].
Qed.

End Prefixes.

Lemma onCopyLike_emits (kind : string) (w : world) (e : event) :
  loggable (h_body (page w)) (ev_target e) = true ->
  exists d,
    emitted (settle (onCopyLike e kind) w) = mkEmission (Some (ev_target e)) d :: emitted w
    /\ typeOf d = VStr kind
    /\ JsObj.get "text_length" d
         = VInt (Z.of_nat (String.length (h_selectionText (page w))))
    /\ JsObj.get "text_preview" d
         = VStr (JsString.prefix 50 (h_selectionText (page w))).
Proof.
  intro L.
  set (info := [ ("text_length", VInt (Z.of_nat (String.length (h_selectionText (page w)))));
                 ("text_preview", VStr (JsString.prefix 50 (h_selectionText (page w)))) ]).
  destruct (recordOf_loggable kind "text" (Some (ev_target e)) info (touched w) L)
    as [d Hd].
  exists d. split.
  - unfold onCopyLike. rewrite settle_gets, settle_then_ret. fold info.
    rewrite settle_logEvent, Hd. reflexivity.
  - split; [apply (recordOf_typeOf (eq_refl : plainInfo info = true) Hd)|].
    destruct (recordOf_get "text_length" Hd) as (i1 & t1 & p1 & ->).
    destruct (recordOf_get "text_preview" Hd) as (i2 & t2 & p2 & ->).
    split; reflexivity.
Qed.

(** X12.  A [copy] or [cut] record tells the length of the selection and
    shows a preview that is its first 50 characters at most: the preview
    is a prefix of the selection, of length [min 50 length]. *)
Theorem clipboard_preview_is_bounded (w : world) (e : event) :
  onClipboard (registered w) = true ->
  loggable (h_body (page w)) (ev_target e) = true ->
  let selection := h_selectionText (page w) in
  (exists d preview,
     emitted (dispatch (SCopy e) w) = mkEmission (Some (ev_target e)) d :: emitted w
     /\ typeOf d = VStr "copy"
     /\ JsObj.get "text_length" d = VInt (Z.of_nat (String.length selection))
     /\ JsObj.get "text_preview" d = VStr preview
     /\ String.prefix preview selection = true
     /\ String.length preview = Nat.min 50 (String.length selection))
  /\ (exists d preview,
        emitted (dispatch (SCut e) w) = mkEmission (Some (ev_target e)) d :: emitted w
        /\ typeOf d = VStr "cut"
        /\ JsObj.get "text_length" d = VInt (Z.of_nat (String.length selection))
        /\ JsObj.get "text_preview" d = VStr preview
        /\ String.prefix preview selection = true
        /\ String.length preview = Nat.min 50 (String.length selection)).
Proof.
  intros Hc L. cbv zeta.
  unfold dispatch, listenersOf. rewrite Hc. unfold when, runListeners, fold_left.
  split.
  - destruct (onCopyLike_emits "copy" w e L) as (d & E & Ty & Tl & Tp).
    exists d, (JsString.prefix 50 (h_selectionText (page w))).
    repeat split; try assumption;
      [apply prefix_is_prefix | apply prefix_length].
  - destruct (onCopyLike_emits "cut" w e L) as (d & E & Ty & Tl & Tp).
    exists d, (JsString.prefix 50 (h_selectionText (page w))).
    repeat split; try assumption;
      [apply prefix_is_prefix | apply prefix_length].
Qed.

Lemma clipboard_preview_is_bounded_witness :
  let w := start (pageSelecting longSelection) 0 in
  String.length longSelection = 61%nat
  /\ (exists d preview,
        emitted (dispatch (SCopy (eventOn buttonNode [])) w)
          = mkEmission (Some buttonNode) d :: emitted w
        /\ typeOf d = VStr "copy"
        /\ JsObj.get "text_length" d = VInt 61
        /\ JsObj.get "text_preview" d = VStr preview
        /\ String.prefix preview longSelection = true
        /\ String.length preview = 50%nat)
  /\ (exists d preview,
        emitted (dispatch (SCut (eventOn buttonNode [])) w)
          = mkEmission (Some buttonNode) d :: emitted w
        /\ typeOf d = VStr "cut"
        /\ JsObj.get "text_length" d = VInt 61
        /\ JsObj.get "text_preview" d = VStr preview
        /\ String.prefix preview longSelection = true
        /\ String.length preview = 50%nat).
Proof.
  cbv zeta. split; [reflexivity|].
  exact (clipboard_preview_is_bounded (start (pageSelecting longSelection) 0)
           (eventOn buttonNode []) eq_refl eq_refl).
Defined.

(** ** The spread of [additionalInfo] *)

Lemma override_app (k : string) (a b : obj) (d : jsval) :
  override k (a ++ b)%list d = override k b (override k a d).
Proof.
  revert d. induction a as [|[k' v] r IH]; intro d; simpl; [reflexivity|].
  apply IH.
Qed.

Lemma override_absent (k : string) (info : obj) (d : jsval) :
  JsObj.has k info = false -> override k info d = d.
Proof.
  revert d. induction info as [|[k' v] r IH]; intros d H; simpl; [reflexivity|].
  simpl in H. destruct (String.eqb k k'); [discriminate|]. apply IH, H.
Qed.

(** X5.  What [additionalInfo] holds under a key wins over what [logEvent]
    writes itself, the last occurrence of the key counting: a custom event
    can replace any property of its record, its [event_number] included,
    while the session counter still advances by one. *)
Theorem additionalInfo_overrides_record (activeElement : option element)
    (eventName eventObject : string) (before after : obj) (k : string) (v : jsval)
    (w : world) :
  loggableOpt (h_body (page w)) activeElement = true ->
  JsObj.has k after = false ->
  let info := (before ++ (k, v) :: after)%list in
  exists d,
    emitted (settle (logCustomEvent activeElement eventName eventObject (Some info)) w)
      = mkEmission activeElement d :: emitted w
    /\ JsObj.get k d = v
    /\ eventCount (st (settle (logCustomEvent activeElement eventName eventObject
                                 (Some info)) w))
         = eventCount (st w) + 1.
Proof.
  intros L Ha. cbv zeta.
  destruct (recordOf_loggable eventName eventObject activeElement
              (before ++ (k, v) :: after)%list (touched w) L) as [d Hd].
  unfold logCustomEvent. rewrite settle_then_ret.
  exists d. split; [rewrite settle_logEvent, Hd; reflexivity|].
  split.
  - destruct (recordOf_get k Hd) as (i & t & p & ->).
    rewrite override_app. cbn [override]. rewrite String.eqb_refl.
    apply override_absent, Ha.
  - rewrite logEvent_st. reflexivity.
Qed.

Lemma additionalInfo_overrides_record_witness :
  exists d,
    emitted (settle (logCustomEvent (Some buttonNode) "signup" "form"
                       (Some [ ("plan", VStr "pro"); ("event_number", VInt 99) ]))
               (start somePage 0))
      = mkEmission (Some buttonNode) d :: emitted (start somePage 0)
    /\ numberOf d = VInt 99
    /\ eventCount (st (settle (logCustomEvent (Some buttonNode) "signup" "form"
                                 (Some [ ("plan", VStr "pro"); ("event_number", VInt 99) ]))
                         (start somePage 0))) = 1.
Proof.
  exact (additionalInfo_overrides_record (Some buttonNode) "signup" "form"
           [ ("plan", VStr "pro") ] [] "event_number" (VInt 99) (start somePage 0)
           eq_refl eq_refl).
Defined.

(** ** The configuration after the script has run *)

(** X26.  [updateConfig] replaces the settings that the listeners read at
    each signal (here the mouse-move throttle, which applies to the very
    next move), but it cannot switch a tracker off: which listeners exist
    was decided once, when the script ran, and key presses go on being
    logged whatever [trackKeyboard] is set to afterwards. *)
Theorem updateConfig_cannot_switch_tracking_off (w : world) (p : configPatch)
    (e : event) (th : Z) :
  onKeyboard (registered w) = true ->
  loggable (h_body (page w)) (ev_target e) = true ->
  p_mouseMoveThrottle p = Some th ->
  th < now w - lastMouseLog w ->
  let w' := settle (updateConfig p) w in
  cfg w' = assignCONFIG (cfg w) p
  /\ registered w' = registered w
  /\ (exists d,
        emitted (dispatch (SKeyDown e) w') = mkEmission (Some (ev_target e)) d :: emitted w
        /\ typeOf d = VStr "keyboard"
        /\ JsObj.get "key" d = ev_prop e "key")
  /\ (exists d,
        emitted (settle (onMouseMove e) w') = mkEmission (Some (ev_target e)) d :: emitted w
        /\ hasType "mouse_move" (mkEmission (Some (ev_target e)) d) = true).
Proof.
  intros Hk L Hp Ht. cbv zeta.
  split; [reflexivity|]. split; [reflexivity|]. split.
  - destruct (onKeyDown_emits (settle (updateConfig p) w) e Hk L)
      as (d & E & Ty & _ & K & _).
    exists d. repeat split; assumption.
  - destruct (onMouseMove_logs (settle (updateConfig p) w) e) as (d & E & Ty & _).
    + change (cfg (settle (updateConfig p) w)) with (assignCONFIG (cfg w) p).
      cbn [assignCONFIG mouseMoveThrottle]. rewrite Hp. exact Ht.
    + exact L.
    + exists d. split; assumption.
Qed.

Lemma updateConfig_cannot_switch_tracking_off_witness :
  let off := {| p_scrollThrottle := None; p_mouseMoveThrottle := Some 0;
                p_resizeThrottle := None; p_idleTimeout := None;
                p_trackMouseMovement := Some false; p_trackKeyboard := Some false;
                p_trackClipboard := Some false; p_trackVisibility := Some false;
                p_visibilityThreshold := None |} in
  let w' := settle (updateConfig off) (set_now 5 (start somePage 0)) in
  trackKeyboard (cfg w') = false
  /\ exists d,
       emitted (dispatch (SKeyDown keyInPassword) w')
         = mkEmission (Some (ev_target keyInPassword)) d :: emitted (start somePage 0)
       /\ typeOf d = VStr "keyboard"
       /\ JsObj.get "key" d = VStr "h".
Proof.
  cbv zeta. split; [reflexivity|].
  exact (proj1 (proj2 (proj2
    (updateConfig_cannot_switch_tracking_off (set_now 5 (start somePage 0))
       {| p_scrollThrottle := None; p_mouseMoveThrottle := Some 0;
          p_resizeThrottle := None; p_idleTimeout := None;
          p_trackMouseMovement := Some false; p_trackKeyboard := Some false;
          p_trackClipboard := Some false; p_trackVisibility := Some false;
          p_visibilityThreshold := None |}
       keyInPassword 0 eq_refl eq_refl eq_refl eq_refl)))).
Defined.

(** ** The idle flag seen from outside *)


(** ** Sequence numbers never repeat *)

Section Increasing.

Lemma sorted_snoc (l : list Z) (a : Z) :
StronglySorted Z.lt l -> Forall (fun x => x < a) l ->
StronglySorted Z.lt (l ++ [a]).
Proof.
induction l as [|x r IH]; intros Hs Hf; simpl.
- constructor; constructor.
- inversion Hs; subst. inversion Hf; subst.
  constructor; [apply IH; assumption|].
  apply Forall_app. split; [assumption | constructor; [assumption | constructor]].
Qed.

Lemma numbersIncrease_logEvent (ty ob : string) (el : option element) (info : obj)
  (w : world) :
plainInfo info = true ->
numbersIncrease w -> numbersIncrease (settle (logEvent ty ob el info) w).
Proof.
intros Hp (H0 & Hs & Hf). unfold numbersIncrease.
destruct (settle_logEvent_cases ty ob el info w) as [[_ ->]|(d & Hd & ->)].
- change (records (touched w)) with (records w).
  change (eventCount (st (touched w))) with (eventCount (st w) + 1).
  split; [lia|]. split; [exact Hs|].
  eapply Forall_impl; [|exact Hf]. cbv beta. intros n Hn. lia.
- rewrite records_push, map_app.
  change (records (touched w)) with (records w).
  change (eventCount (st (push_emitted (mkEmission el d) (touched w))))
    with (eventCount (st w) + 1).
  assert (En : eventNumberOf (mkEmission el d) = eventCount (st w) + 1).
  { unfold eventNumberOf. cbn [em_data]. rewrite (recordOf_numberOf Hp Hd).
    unfold VInt, JsNum.of_Z. apply Qfloor_Z. }
  cbn [map]. rewrite En.
  split; [lia|]. split.
  + apply sorted_snoc; [exact Hs|].
    eapply Forall_impl; [|exact Hf]. cbv beta. intros n Hn. lia.
  + apply Forall_app. split.
    * eapply Forall_impl; [|exact Hf]. cbv beta. intros n Hn. lia.
    * constructor; [lia | constructor].
Qed.

Lemma numbersIncrease_run (l : list timed) (w : world) :
numbersIncrease w -> numbersIncrease (run l w).
Proof.
apply (framed_run_keeps numbersIncrease anyPage);
  [ | | | | | | | | | | | | apply pagesIn_any ];
  try (intros; assumption).
- intros w0 ty ob el info _ Hp H. apply numbersIncrease_logEvent; assumption.
- intros w0 H. rewrite settle_scrollCallback.
  apply numbersIncrease_logEvent; [reflexivity|].
  unfold scrolled. cbv zeta. destruct (JsNum.gt _ _); exact H.
- intros e w0 H. rewrite settle_onMouseMove. cbv zeta.
  destruct (_ <? _); [|exact H].
  apply numbersIncrease_logEvent; [reflexivity | exact H].
- intros entries. unfold observerCallback.
  induction entries as [|en r IH]; intros w0 H; [exact H|].
  rewrite settle_forEach_cons.
  assert (H1 : numbersIncrease (settle (observerEntry en) w0)).
  { rewrite settle_observerEntry. destruct (_ && _)%bool; [|exact H].
    apply numbersIncrease_logEvent; [reflexivity | exact H]. }
  destruct (fst _); [apply IH|]; exact H1.
Qed.

End Increasing.

(** X6.  In every run, lost calls or not, the sequence numbers of the
    records strictly increase in the order of emission (so none is ever
    repeated), and each lies between 1 and the session counter. *)
Theorem sequence_numbers_strictly_increase (c : CONFIG) (h : host) (t0 : Z)
    (l : list timed) :
  let w := run l (boot c h t0) in
  StronglySorted Z.lt (map eventNumberOf (records w))
  /\ Forall (fun n => 1 <= n <= eventCount (st w)) (map eventNumberOf (records w)).
Proof.
  cbv zeta.
  assert (B : numbersIncrease (boot c h t0)).
  { unfold boot. cbv zeta. rewrite settle_resetIdleTimer. cbv zeta.
    unfold numbersIncrease.
    destruct (trackVisibility c); simpl;
      (split; [lia | split; constructor]). }
  destruct (numbersIncrease_run l (boot c h t0) B) as (_ & Hs & Hf).
  split; assumption.
Qed.

Lemma numbers_without_gap_witness :
  let w := run silenceThenClick (start somePage 0) in
  Z.of_nat (List.length (records w)) = eventCount (st w)
  /\ numbers w = firstNumbers (List.length (records w)).
Proof.
  cbv zeta.
  assert (E : Z.of_nat (List.length (records (run silenceThenClick (start somePage 0))))
              = eventCount (st (run silenceThenClick (start somePage 0))))
    by (vm_compute; reflexivity).
  split; [exact E|].
  exact (numbers_without_gap defaultCONFIG somePage 0 silenceThenClick E).
Defined.

(** ** The mouse trail *)

Section Trail.

Lemma rearmed_st (u : world) : st (rearmed u) = st u.
Proof. reflexivity. Qed.

Lemma rearmed_now (u : world) : now (rearmed u) = now u.
Proof. reflexivity. Qed.

Lemma resetIdleTimer_keeps_trail (w : world) :
mouseTrail (st (settle resetIdleTimer w)) = mouseTrail (st w)
/\ now (settle resetIdleTimer w) = now w.
Proof.
rewrite settle_resetIdleTimer. cbv zeta.
set (w1 := settle (clearTimeout (idleTimer w)) w).
assert (E1 : mouseTrail (st w1) = mouseTrail (st w) /\ now w1 = now w)
  by (unfold w1; destruct (idleTimer w); split; reflexivity).
destruct E1 as [Et En].
destruct (isIdle (st w1)).
- rewrite settle_then_modify.
  match goal with
  | |- context [settle (logEvent ?ty ?ob ?el ?info) ?u] =>
      pose proof (logEvent_st ty ob el info u) as Hst;
      destruct (logEvent_frame ty ob el info u) as (_ & _ & Hn & _)
  end.
  destruct (fst _); rewrite ?rearmed_st, ?rearmed_now, Hst, Hn;
    (split; [exact Et | exact En]).
- rewrite rearmed_st, rearmed_now. split; [exact Et | exact En].
Qed.

Lemma last_tl {A : Type} (l : list A) (d : A) :
(2 <= List.length l)%nat -> last (tl l) d = last l d.
Proof.
destruct l as [|a [|b r]]; simpl; intro H; try lia. reflexivity.
Qed.

Lemma trailed_eq (e : event) (w : world) :
mouseTrail (st (trailed e w))
  = if Nat.ltb 10 (List.length (mouseTrail (st w) ++ [trailEntry e (now w)])%list)
    then tl (mouseTrail (st w) ++ [trailEntry e (now w)])%list
    else (mouseTrail (st w) ++ [trailEntry e (now w)])%list.
Proof. reflexivity. Qed.

Lemma trailed_trail (e : event) (w : world) :
(List.length (mouseTrail (st w)) <= 10)%nat ->
(List.length (mouseTrail (st (trailed e w))) <= 10)%nat.
Proof.
intro H. rewrite trailed_eq.
destruct (Nat.ltb_spec 10
            (List.length (mouseTrail (st w) ++ [trailEntry e (now w)])%list))
  as [Hlt|Hge]; [|exact Hge].
rewrite length_app in Hlt. cbn [List.length] in Hlt.
destruct (mouseTrail (st w)) as [|a r]; cbn [app tl List.length] in *; [lia|].
rewrite length_app. cbn [List.length]. lia.
Qed.

Lemma trailed_last (e : event) (w : world) :
last (mouseTrail (st (trailed e w))) [] = trailEntry e (now w).
Proof.
rewrite trailed_eq.
destruct (Nat.ltb_spec 10
            (List.length (mouseTrail (st w) ++ [trailEntry e (now w)])%list))
  as [Hlt|Hge].
- rewrite last_tl by lia. apply last_last.
- apply last_last.
Qed.

Lemma onMouseMove_trail (e : event) (w : world) :
mouseTrail (st (settle (onMouseMove e) w)) = mouseTrail (st (trailed e w)).
Proof.
rewrite settle_onMouseMove. cbv zeta.
destruct (_ <? _); [|reflexivity].
rewrite logEvent_st. reflexivity.
Qed.

Lemma trail_bounded_run (l : list timed) (w : world) :
(List.length (mouseTrail (st w)) <= 10)%nat ->
(List.length (mouseTrail (st (run l w))) <= 10)%nat.
Proof.
apply (framed_run_keeps
         (fun w => (List.length (mouseTrail (st w)) <= 10)%nat) anyPage);
  [ | | | | | | | | | | | | apply pagesIn_any ];
  try (intros; assumption).
- intros w0 ty ob el info _ _ H. rewrite logEvent_st. exact H.
- intros w0 H. rewrite settle_scrollCallback, logEvent_st.
  unfold scrolled. cbv zeta. destruct (JsNum.gt _ _); exact H.
- intros e w0 H. rewrite onMouseMove_trail. apply trailed_trail, H.
- intros entries. unfold observerCallback.
  induction entries as [|en r IH]; intros w0 H; [exact H|].
  rewrite settle_forEach_cons.
  assert (H1 : (List.length (mouseTrail (st (settle (observerEntry en) w0))) <= 10)%nat).
  { rewrite settle_observerEntry. destruct (_ && _)%bool; [|exact H].
    rewrite logEvent_st. exact H. }
  destruct (fst _); [apply IH|]; exact H1.
Qed.

End Trail.

(** X15.  [STATE.mouseTrail] never holds more than ten positions, and every
    mouse move is put on it, the throttled ones too: after a mouse move,
    logged or dropped, the last entry of the trail is that move with the
    instant of the signal. *)
Theorem mouse_trail_keeps_last_ten (c : CONFIG) (h : host) (t0 : Z) (l : list timed)
    (w : world) (e : event) :
  onMouseMovement (registered w) = true ->
  (List.length (mouseTrail (st (run l (boot c h t0)))) <= 10)%nat
  /\ last (mouseTrail (st (dispatch (SMouseMove e) w))) [] = trailEntry e (now w).
Proof.
  intro Hr. split.
  - apply trail_bounded_run. unfold boot. cbv zeta.
    match goal with
    | |- context [settle resetIdleTimer ?u] =>
        destruct (resetIdleTimer_keeps_trail u) as [-> _]
    end.
    destruct (trackVisibility c); simpl; lia.
  - rewrite dispatch_mouseMove by exact Hr.
    rewrite onMouseMove_trail, trailed_last.
    destruct (resetIdleTimer_keeps_trail w) as [_ ->]. reflexivity.
Qed.

Lemma mouse_trail_keeps_last_ten_witness :
  last (mouseTrail (st (dispatch (SMouseMove (mouseMoveAt buttonNode 7 9))
                          (start somePage 0)))) []
    = trailEntry (mouseMoveAt buttonNode 7 9) 0.
Proof.
  exact (proj2 (mouse_trail_keeps_last_ten defaultCONFIG somePage 0 []
                  (start somePage 0) (mouseMoveAt buttonNode 7 9) eq_refl)).
Defined.

(** ** The timer queue stays in order *)

Section Hygiene.

Lemma NoDup_map_filter {A B : Type} (f : A -> B) (g : A -> bool) (l : list A) :
NoDup (map f l) -> NoDup (map f (filter g l)).
Proof.
induction l as [|a r IH]; intro H; simpl; [constructor|].
inversion H as [|x xs Hn Hr]; subst.
destruct (g a); [|apply IH, Hr]. simpl. constructor; [|apply IH, Hr].
intro Hin. apply Hn. apply in_map_iff in Hin. destruct Hin as (y & E & Hy).
apply in_map_iff. exists y. split; [exact E|]. apply filter_In in Hy. apply Hy.
Qed.

Lemma ordered_filter (g : timer -> bool) (ts : list timer) (n : nat)
  (hs hr hi : option nat) :
ordered ts n hs hr hi -> ordered (filter g ts) n hs hr hi.
Proof.
intros (F & N & O & B). split; [|split; [|split]].
- apply Forall_forall. intros t Ht. apply filter_In in Ht.
  eapply Forall_forall in F; [exact F | apply Ht].
- apply NoDup_map_filter, N.
- intros t Ht. apply filter_In in Ht. apply O, Ht.
- exact B.
Qed.

Lemma ordered_cleared (h : option nat) (ts : list timer) (n : nat)
  (hs hr hi : option nat) :
ordered ts n hs hr hi -> ordered (cleared h ts) n hs hr hi.
Proof. destruct h; [apply ordered_filter | trivial]. Qed.

Lemma below_S (n : nat) (h : option nat) : below n h -> below (S n) h.
Proof. destruct h; simpl; [lia | trivial]. Qed.

Lemma apart_fresh (n : nat) (h : option nat) : below n h -> apart (Some n) h.
Proof. destruct h; simpl; [lia | trivial]. Qed.

Lemma apart_fresh' (n : nat) (h : option nat) : below n h -> apart h (Some n).
Proof. destruct h; simpl; [lia | trivial]. Qed.

(** In an ordered queue, clearing the handle of a source removes every
  pending timer of that source. *)
Lemma cleared_none_left (cb : callback) (ts : list timer) (n : nat)
  (hs hr hi : option nat) :
ordered ts n hs hr hi -> cb <> CbObserve ->
forall t, In t (cleared (handleIn cb hs hr hi) ts) -> tm_cb t <> cb.
Proof.
intros (_ & _ & O & _) Hcb t Ht E.
destruct (handleIn cb hs hr hi) as [i|] eqn:Hh; cbn [cleared] in Ht.
- apply filter_In in Ht. destruct Ht as [Hin Hne].
  specialize (O t Hin). rewrite E in O. specialize (O Hcb).
  rewrite Hh in O. injection O as ->. rewrite Nat.eqb_refl in Hne. discriminate.
- specialize (O t Ht). rewrite E in O. specialize (O Hcb).
  rewrite Hh in O. discriminate.
Qed.

Lemma NoDup_snoc_fresh (ts : list timer) (n : nat) (x : timer) :
Forall (fun t => (tm_id t < n)%nat) ts -> NoDup (map tm_id ts) -> tm_id x = n ->
NoDup (map tm_id (ts ++ [x])).
Proof.
intros F N E. rewrite map_app. cbn [map].
apply NoDup_app; [exact N | constructor; [intros [] | constructor] |].
intros i Hi [<-|[]].
apply in_map_iff in Hi. destruct Hi as (t & Et & Ht).
eapply Forall_forall in F; [|exact Ht]. lia.
Qed.

Lemma Forall_snoc_fresh (ts : list timer) (n : nat) (x : timer) :
Forall (fun t => (tm_id t < n)%nat) ts -> tm_id x = n ->
Forall (fun t => (tm_id t < S n)%nat) (ts ++ [x]).
Proof.
intros F E. apply Forall_app. split.
- eapply Forall_impl; [|exact F]. cbv beta. intros. lia.
- constructor; [lia | constructor].
Qed.

(** Setting a timer anew for the scroll source. *)
Lemma ordered_rearm_scroll (ts : list timer) (n : nat) (hs hr hi : option nat) (due : Z) :
ordered ts n hs hr hi ->
ordered (cleared hs ts ++ [mkTimer n due CbScroll]) (S n) (Some n) hr hi.
Proof.
intro H.
pose proof (cleared_none_left CbScroll ts n hs hr hi H ltac:(discriminate)) as Gone.
apply (ordered_cleared hs) in H. cbn [handleIn] in Gone.
destruct H as (F & N & O & Bs & Br & Bi & Asr & Asi & Ari).
split; [apply Forall_snoc_fresh; [exact F | reflexivity]|].
split; [apply (NoDup_snoc_fresh _ n); [exact F | exact N | reflexivity]|].
split.
- intros t Ht Hc. apply in_app_or in Ht. destruct Ht as [Ht|[<-|[]]].
  + specialize (O t Ht Hc). specialize (Gone t Ht).
    destruct (tm_cb t); cbn [handleIn] in *; congruence.
  + reflexivity.
- repeat split; cbn [below]; try lia;
    first [apply below_S; assumption | apply apart_fresh; assumption | assumption].
Qed.

Lemma ordered_rearm_resize (ts : list timer) (n : nat) (hs hr hi : option nat) (due : Z) :
ordered ts n hs hr hi ->
ordered (cleared hr ts ++ [mkTimer n due CbResize]) (S n) hs (Some n) hi.
Proof.
intro H.
pose proof (cleared_none_left CbResize ts n hs hr hi H ltac:(discriminate)) as Gone.
apply (ordered_cleared hr) in H. cbn [handleIn] in Gone.
destruct H as (F & N & O & Bs & Br & Bi & Asr & Asi & Ari).
split; [apply Forall_snoc_fresh; [exact F | reflexivity]|].
split; [apply (NoDup_snoc_fresh _ n); [exact F | exact N | reflexivity]|].
split.
- intros t Ht Hc. apply in_app_or in Ht. destruct Ht as [Ht|[<-|[]]].
  + specialize (O t Ht Hc). specialize (Gone t Ht).
    destruct (tm_cb t); cbn [handleIn] in *; congruence.
  + reflexivity.
- repeat split; cbn [below]; try lia;
    first [apply below_S; assumption | apply apart_fresh; assumption
          | apply apart_fresh'; assumption | assumption].
Qed.

Lemma ordered_rearm_idle (ts : list timer) (n : nat) (hs hr hi : option nat) (due : Z) :
ordered ts n hs hr hi ->
ordered (cleared hi ts ++ [mkTimer n due CbIdle]) (S n) hs hr (Some n).
Proof.
intro H.
pose proof (cleared_none_left CbIdle ts n hs hr hi H ltac:(discriminate)) as Gone.
apply (ordered_cleared hi) in H. cbn [handleIn] in Gone.
destruct H as (F & N & O & Bs & Br & Bi & Asr & Asi & Ari).
split; [apply Forall_snoc_fresh; [exact F | reflexivity]|].
split; [apply (NoDup_snoc_fresh _ n); [exact F | exact N | reflexivity]|].
split.
- intros t Ht Hc. apply in_app_or in Ht. destruct Ht as [Ht|[<-|[]]].
  + specialize (O t Ht Hc). specialize (Gone t Ht).
    destruct (tm_cb t); cbn [handleIn] in *; congruence.
  + reflexivity.
- repeat split; cbn [below]; try lia;
    first [apply below_S; assumption | apply apart_fresh'; assumption | assumption].
Qed.

Lemma hygienic_same (w w' : world) :
timers w' = timers w -> nextTimer w' = nextTimer w ->
scrollTimeout w' = scrollTimeout w -> resizeTimeout w' = resizeTimeout w ->
idleTimer w' = idleTimer w ->
hygienic w -> hygienic w'.
Proof. unfold hygienic. intros -> -> -> -> ->. trivial. Qed.

Lemma hygienic_logEvent (ty ob : string) (el : option element) (info : obj) (w : world) :
hygienic w -> hygienic (settle (logEvent ty ob el info) w).
Proof.
destruct (logEvent_frame ty ob el info w)
  as (_ & _ & _ & Et & En & _ & _ & _ & Ei & Es & Er).
apply hygienic_same; assumption.
Qed.

Lemma timers_clearTimeout (h : option nat) (w : world) :
timers (settle (clearTimeout h) w) = cleared h (timers w).
Proof. destruct h; reflexivity. Qed.

Lemma hygienic_rearmed (w : world) :
hygienic w ->
hygienic (rearmed (settle (clearTimeout (idleTimer w)) w)).
Proof.
intro H. unfold hygienic, rearmed, setTimeout, settle.
cbn [snd set_idleTimer set_timers timers nextTimer scrollTimeout resizeTimeout
     idleTimer].
fold (settle (clearTimeout (idleTimer w)) w).
rewrite timers_clearTimeout.
replace (nextTimer (settle (clearTimeout (idleTimer w)) w)) with (nextTimer w)
  by (destruct (idleTimer w); reflexivity).
replace (scrollTimeout (settle (clearTimeout (idleTimer w)) w)) with (scrollTimeout w)
  by (destruct (idleTimer w); reflexivity).
replace (resizeTimeout (settle (clearTimeout (idleTimer w)) w)) with (resizeTimeout w)
  by (destruct (idleTimer w); reflexivity).
apply ordered_rearm_idle, H.
Qed.

Lemma hygienic_cleared (h : option nat) (w : world) :
hygienic w -> hygienic (settle (clearTimeout h) w).
Proof.
intro H. unfold hygienic. rewrite timers_clearTimeout.
replace (nextTimer (settle (clearTimeout h) w)) with (nextTimer w)
  by (destruct h; reflexivity).
replace (scrollTimeout (settle (clearTimeout h) w)) with (scrollTimeout w)
  by (destruct h; reflexivity).
replace (resizeTimeout (settle (clearTimeout h) w)) with (resizeTimeout w)
  by (destruct h; reflexivity).
replace (idleTimer (settle (clearTimeout h) w)) with (idleTimer w)
  by (destruct h; reflexivity).
apply ordered_cleared, H.
Qed.

(** [resetIdleTimer] never throws once the session is active; in general
  it leaves the queue in order. *)
Lemma hygienic_resetIdleTimer (w : world) :
hygienic w -> hygienic (settle resetIdleTimer w).
Proof.
intro H. rewrite settle_resetIdleTimer. cbv zeta.
destruct (isIdle (st (settle (clearTimeout (idleTimer w)) w))).
- rewrite settle_then_modify.
  set (w2 := set_st (with_isIdle false) (settle (clearTimeout (idleTimer w)) w)).
  destruct (logEvent_frame "user_active" "session" (h_body (page w2)) (activeInfo w2) w2)
    as (Ec & _ & En & Et & Ex & _ & _ & _ & Ei & Es & Er).
  destruct (fst _).
  + unfold hygienic, rearmed, setTimeout, settle.
    cbn [snd set_idleTimer set_timers timers nextTimer scrollTimeout resizeTimeout
         idleTimer].
    fold (settle (logEvent "user_active" "session" (h_body (page w2)) (activeInfo w2)) w2).
    rewrite Et, Ex, Es, Er.
    unfold w2. cbn [set_st timers nextTimer scrollTimeout resizeTimeout].
    rewrite timers_clearTimeout.
    replace (nextTimer (settle (clearTimeout (idleTimer w)) w)) with (nextTimer w)
      by (destruct (idleTimer w); reflexivity).
    replace (scrollTimeout (settle (clearTimeout (idleTimer w)) w)) with (scrollTimeout w)
      by (destruct (idleTimer w); reflexivity).
    replace (resizeTimeout (settle (clearTimeout (idleTimer w)) w)) with (resizeTimeout w)
      by (destruct (idleTimer w); reflexivity).
    apply ordered_rearm_idle, H.
  + apply hygienic_logEvent. apply (hygienic_cleared (idleTimer w)), H.
- apply hygienic_rearmed, H.
Qed.

Lemma hygienic_onScroll (w : world) : hygienic w -> hygienic (settle onScroll w).
Proof.
intro H. rewrite settle_onScroll. cbv zeta.
unfold hygienic, setTimeout, settle.
cbn [snd set_scrollTimeout set_timers timers nextTimer scrollTimeout resizeTimeout
     idleTimer].
fold (settle (clearTimeout (scrollTimeout w)) w).
rewrite timers_clearTimeout.
replace (nextTimer (settle (clearTimeout (scrollTimeout w)) w)) with (nextTimer w)
  by (destruct (scrollTimeout w); reflexivity).
replace (resizeTimeout (settle (clearTimeout (scrollTimeout w)) w)) with (resizeTimeout w)
  by (destruct (scrollTimeout w); reflexivity).
replace (idleTimer (settle (clearTimeout (scrollTimeout w)) w)) with (idleTimer w)
  by (destruct (scrollTimeout w); reflexivity).
apply ordered_rearm_scroll, H.
Qed.

Lemma hygienic_onResize (w : world) : hygienic w -> hygienic (settle onResize w).
Proof.
intro H. rewrite settle_onResize. cbv zeta.
unfold hygienic, setTimeout, settle.
cbn [snd set_resizeTimeout set_timers timers nextTimer scrollTimeout resizeTimeout
     idleTimer].
fold (settle (clearTimeout (resizeTimeout w)) w).
rewrite timers_clearTimeout.
replace (nextTimer (settle (clearTimeout (resizeTimeout w)) w)) with (nextTimer w)
  by (destruct (resizeTimeout w); reflexivity).
replace (scrollTimeout (settle (clearTimeout (resizeTimeout w)) w)) with (scrollTimeout w)
  by (destruct (resizeTimeout w); reflexivity).
replace (idleTimer (settle (clearTimeout (resizeTimeout w)) w)) with (idleTimer w)
  by (destruct (resizeTimeout w); reflexivity).
apply ordered_rearm_resize, H.
Qed.

Lemma hygienic_observerCallback (entries : list entry) (w : world) :
hygienic w -> hygienic (settle (observerCallback entries) w).
Proof.
unfold observerCallback. revert w.
induction entries as [|en r IH]; intros w H; [exact H|].
rewrite settle_forEach_cons.
assert (H1 : hygienic (settle (observerEntry en) w)).
{ rewrite settle_observerEntry. destruct (_ && _)%bool; [|exact H].
  apply hygienic_logEvent. exact H. }
destruct (fst _); [apply IH|]; exact H1.
Qed.

Lemma awake_logEvent (ty ob : string) (el : option element) (info : obj) (w : world) :
isIdle (st (settle (logEvent ty ob el info) w)) = false.
Proof. rewrite logEvent_st. reflexivity. Qed.

Lemma calm_logEvent (ty ob : string) (el : option element) (info : obj) (w : world) :
calm w -> calm (settle (logEvent ty ob el info) w).
Proof. intros [H _]. split; [apply hygienic_logEvent, H | apply awake_logEvent]. Qed.

Lemma calm_resetIdleTimer (w : world) : calm w -> calm (settle resetIdleTimer w).
Proof.
intros [H Hi]. split; [apply hygienic_resetIdleTimer, H|].
destruct (resetIdleTimer_when_active w Hi) as (-> & _). exact Hi.
Qed.

Lemma calm_idleCallback (w : world) : calm w -> calm (settle idleCallback w).
Proof.
intros [H _]. rewrite settle_idleCallback. cbv zeta.
split; [apply hygienic_logEvent, H | apply awake_logEvent].
Qed.

Lemma calm_onScroll (w : world) : calm w -> calm (settle onScroll w).
Proof.
intros [H Hi]. split; [apply hygienic_onScroll, H|].
rewrite settle_onScroll. cbv zeta. destruct (scrollTimeout w); exact Hi.
Qed.

Lemma calm_scrollCallback (w : world) : calm w -> calm (settle scrollCallback w).
Proof.
intros [H _]. rewrite settle_scrollCallback.
split; [|apply awake_logEvent]. apply hygienic_logEvent.
unfold scrolled. cbv zeta. destruct (JsNum.gt _ _); exact H.
Qed.

Lemma calm_onResize (w : world) : calm w -> calm (settle onResize w).
Proof.
intros [H Hi]. split; [apply hygienic_onResize, H|].
rewrite settle_onResize. cbv zeta. destruct (resizeTimeout w); exact Hi.
Qed.

Lemma calm_onMouseMove (e : event) (w : world) :
calm w -> calm (settle (onMouseMove e) w).
Proof.
intros [H Hi]. rewrite settle_onMouseMove. cbv zeta.
destruct (_ <? _); [|split; assumption].
split; [apply hygienic_logEvent, H | apply awake_logEvent].
Qed.

Lemma calm_observerCallback (entries : list entry) (w : world) :
calm w -> calm (settle (observerCallback entries) w).
Proof.
unfold observerCallback. revert w.
induction entries as [|en r IH]; intros w H; [exact H|].
rewrite settle_forEach_cons.
assert (H1 : calm (settle (observerEntry en) w)).
{ rewrite settle_observerEntry. destruct (_ && _)%bool; [|exact H].
  apply calm_logEvent. exact H. }
destruct (fst _); [apply IH|]; exact H1.
Qed.

Lemma calm_unqueue (f : timer -> bool) (w : world) :
calm w -> calm (set_timers (filter f (timers w)) (nextTimer w) w).
Proof. intros [H Hi]. split; [apply (ordered_filter f), H | exact Hi]. Qed.

End Hygiene.

(** Picks the lemma for one premise of [run_keeps] by the shape of the
    goal. *)
Ltac calm_premise :=
  intros;
  lazymatch goal with
  | |- calm (settle (logEvent _ _ _ _) _) => apply calm_logEvent; assumption
  | |- calm (settle resetIdleTimer _) => apply calm_resetIdleTimer; assumption
  | |- calm (settle idleCallback _) => apply calm_idleCallback; assumption
  | |- calm (settle onScroll _) => apply calm_onScroll; assumption
  | |- calm (settle scrollCallback _) => apply calm_scrollCallback; assumption
  | |- calm (settle onResize _) => apply calm_onResize; assumption
  | |- calm (settle (onMouseMove _) _) => apply calm_onMouseMove; assumption
  | |- calm (settle (observerCallback _) _) => apply calm_observerCallback; assumption
  | |- calm (set_timers _ _ _) => apply calm_unqueue; assumption
  | |- calm _ => assumption
  end.

Lemma calm_run (l : list timed) (w : world) : calm w -> calm (run l w).
Proof.
  apply (run_keeps calm anyPage);
    [ | | | | | | | | | | | | apply pagesIn_any ]; calm_premise.
Qed.

Lemma calm_fire (x : timer) (w : world) : calm w -> calm (fire x w).
Proof. apply (fire_keeps calm); calm_premise. Qed.

Lemma calm_advance (t : Z) (w : world) : calm w -> calm (advance t w).
Proof. unfold advance. apply (advanceFuel_keeps calm); calm_premise. Qed.

Lemma calm_dispatch (s : signal) (w : world) : calm w -> calm (dispatch s w).
Proof.
  intro H. apply (dispatch_keeps calm anyPage); try calm_premise.
  destruct s; exact Logic.I.
Qed.

Lemma calm_boot (c : CONFIG) (h : host) (t0 : Z) : calm (boot c h t0).
Proof.
  unfold boot. cbv zeta. apply calm_resetIdleTimer.
  split; [|destruct (trackVisibility c); reflexivity].
  destruct (trackVisibility c); unfold hygienic, ordered; simpl.
  - repeat split; try exact Logic.I.
    + constructor; [simpl; lia | constructor].
    + constructor; [intros [] | constructor].
    + intros t [<-|[]] Hc. contradiction Hc. reflexivity.
  - repeat split; try exact Logic.I; try constructor. intros t [].
Qed.

(** In an ordered queue every source has at most one pending timer. *)
Lemma same_id_once (l : list timer) (i : nat) :
  NoDup (map tm_id l) -> (forall t, In t l -> tm_id t = i) ->
  (List.length l <= 1)%nat.
Proof.
  intros N A. destruct l as [|a [|b r]]; simpl; try lia.
  exfalso. inversion N as [|x xs Hn _]; subst. apply Hn. left.
  rewrite (A a), (A b); [reflexivity | right; left; reflexivity | left; reflexivity].
Qed.

Lemma pendingFor_once (cb : callback) (w : world) :
  hygienic w -> cb <> CbObserve -> (List.length (pendingFor cb w) <= 1)%nat.
Proof.
  intros (_ & N & O & _) Hcb. unfold pendingFor.
  destruct (handleIn cb (scrollTimeout w) (resizeTimeout w) (idleTimer w)) as [i|] eqn:Hh.
  - apply (same_id_once _ i); [apply NoDup_map_filter, N|].
    intros t Ht. apply filter_In in Ht. destruct Ht as [Hin Hc].
    assert (E : tm_cb t = cb) by (destruct (tm_cb t), cb; try discriminate; reflexivity).
    specialize (O t Hin). rewrite E in O. specialize (O Hcb).
    rewrite Hh in O. injection O as ->. reflexivity.
  - destruct (filter _ (timers w)) as [|t r] eqn:Ef; [simpl; lia|].
    exfalso.
    assert (Ht : In t (filter (fun t => sameCallback (tm_cb t) cb) (timers w)))
      by (rewrite Ef; left; reflexivity).
    apply filter_In in Ht. destruct Ht as [Hin Hc].
    assert (E : tm_cb t = cb) by (destruct (tm_cb t), cb; try discriminate; reflexivity).
    specialize (O t Hin). rewrite E in O. specialize (O Hcb).
    rewrite Hh in O. discriminate.
Qed.


(** X16.  In every run, at every instant, at most one timer is pending for
    the scroll record, at most one for the resize record and at most one
    for the idle detection: each new timer of a source replaces the one
    before ([clearTimeout] then [setTimeout], lines 373-374, 455-456 and
    574-582). *)
Theorem one_pending_timer_per_source (c : CONFIG) (h : host) (t0 : Z) (l : list timed) :
  let w := run l (boot c h t0) in
  (List.length (pendingFor CbScroll w) <= 1
   /\ List.length (pendingFor CbResize w) <= 1
   /\ List.length (pendingFor CbIdle w) <= 1)%nat.
Proof.
  cbv zeta. destruct (calm_run l _ (calm_boot c h t0)) as [H _].
  repeat split; apply pendingFor_once; try exact H; discriminate.
Qed.

(** X25.  The session is never left idle: in every run, at any instant
    after its last delivery (the timers due by then called), the idle flag
    is down and [getStats] reports [is_idle: false]; and no [user_active]
    record has been emitted. *)
Theorem session_is_never_reported_idle (c : CONFIG) (h : host) (t0 : Z) (l : list timed)
    (t : Z) :
  let w := run l (boot c h t0) in
  JsObj.get "is_idle" (getStats (advance t w)) = VBool false
  /\ filter (hasType "user_active") (records w) = [].
Proof.
  cbv zeta.
  destruct (neverActive_run l (boot c h t0) (neverActive_boot c h t0)) as [_ Hn].
  destruct (calm_advance t _ (calm_run l _ (calm_boot c h t0))) as [_ Hi].
  split.
  - unfold getStats. cbn [JsObj.get String.eqb Ascii.eqb Bool.eqb]. rewrite Hi. reflexivity.
  - unfold records. rewrite filter_rev. unfold noneOfType in Hn. rewrite Hn. reflexivity.
Qed.

(** ** Budgets: what a run can owe *)

(** The lemma that shows a listener to do nothing but log. *)
Ltac logsOnly_of m :=
  lazymatch m with
  | onLoad => constr:(logsOnly_onLoad)
  | onClick ?e => constr:(logsOnly_onClick e)
  | onDblClick ?e => constr:(logsOnly_onDblClick e)
  | onContextMenu ?e => constr:(logsOnly_onContextMenu e)
  | onChange ?e => constr:(logsOnly_onChange e)
  | onInput ?e => constr:(logsOnly_onInput e)
  | onFocus ?e => constr:(logsOnly_onFocus e)
  | onBlur ?e => constr:(logsOnly_onBlur e)
  | onSubmit ?e => constr:(logsOnly_onSubmit e)
  | onKeyDown ?e => constr:(logsOnly_onKeyDown e)
  | onKeyUp ?e => constr:(logsOnly_onKeyUp e)
  | onMouseEnter ?e => constr:(logsOnly_onMouseEnter e)
  | onMouseLeave ?e => constr:(logsOnly_onMouseLeave e)
  | onCopy ?e => constr:(logsOnly_onCopy e)
  | onCut ?e => constr:(logsOnly_onCut e)
  | onPaste ?e => constr:(logsOnly_onPaste e)
  | onVisibilityChange => constr:(logsOnly_onVisibilityChange)
  | onConnection ?x => constr:(logsOnly_onConnection x)
  | onBeforeUnload => constr:(logsOnly_onBeforeUnload)
  | onPlay ?e => constr:(logsOnly_onPlay e)
  | onPause ?e => constr:(logsOnly_onPause e)
  | onEnded ?e => constr:(logsOnly_onEnded e)
  | onSelectionChange => constr:(logsOnly_onSelectionChange)
  | onDragStart ?e => constr:(logsOnly_onDragStart e)
  | onDragEnd ?e => constr:(logsOnly_onDragEnd e)
  | onDrop ?e => constr:(logsOnly_onDrop e)
  | resizeCallback => constr:(logsOnly_resizeCallback)
  end.

(** A property [I n] of the world, indexed by a budget [n], that the calls
    of [resetIdleTimer] and of the scroll listener keep at the price of
    [kr] and [ks] and that everything else keeps for free, holds after a
    run with the budget that the signals of the run add up to.  The
    premise on timers is asked of pending timers only. *)
Section Budget.

Variable I : nat -> world -> Prop.
Variables kr ks : nat.

Hypothesis B_log : forall n w ty ob el info,
In ty rawTypes -> plainInfo info = true ->
I n w -> I n (settle (logEvent ty ob el info) w).
Hypothesis B_resetIdleTimer : forall n w, I n w -> I (n + kr) (settle resetIdleTimer w).
Hypothesis B_onScroll : forall n w, I n w -> I (n + ks) (settle onScroll w).
Hypothesis B_onResize : forall n w, I n w -> I n (settle onResize w).
Hypothesis B_onMouseMove : forall n e w, I n w -> I n (settle (onMouseMove e) w).
Hypothesis B_observerCallback : forall n entries w,
I n w -> I n (settle (observerCallback entries) w).
Hypothesis B_page : forall n h w, I n w -> I n (set_page h w).
Hypothesis B_clock : forall n t w, I n w -> I n (set_now (Z.max (now w) t) w).
Hypothesis B_fire : forall n x w, In x (timers w) -> I n w -> I n (fire x w).

Lemma budget_logs (n : nat) (m : M unit) (w : world) :
logsOnly m -> I n w -> I n (settle m w).
Proof. exact (logsOnly_keeps (I n) (B_log n) m w). Qed.

Local Ltac quiet :=
lazymatch goal with
| |- I _ (settle ?m _) =>
    let L := logsOnly_of m in apply (budget_logs _ _ _ L); assumption
end.

Lemma budget_dispatch (n : nat) (s : signal) (w : world) :
I n w -> I (n + cost kr ks s) (dispatch s w).
Proof.
intro H. unfold dispatch.
destruct s; cbn [listenersOf cost];
  repeat match goal with
         | |- context [when ?b _] => destruct b; unfold when
         end;
  rewrite ?runListeners_two, ?runListeners_one, ?runListeners_nil, ?Nat.add_0_r;
  try assumption;
  try quiet;
  try (apply B_resetIdleTimer; assumption).
- apply B_page; assumption.
- apply B_resetIdleTimer. quiet.
- rewrite Nat.add_assoc. apply B_onScroll, B_resetIdleTimer, H.
- apply B_onMouseMove, B_resetIdleTimer, H.
- apply B_onResize, H.
- apply B_observerCallback, H.
Qed.

Lemma budget_advanceFuel (n fuel : nat) (t : Z) (w : world) :
I n w -> I n (advanceFuel fuel t w).
Proof.
revert w. induction fuel as [|fuel IH]; intros w H; simpl; [exact H|].
destruct (nextDue t (timers w)) as [x|] eqn:E; [|exact H].
apply IH, B_fire; [|exact H]. apply (nextDue_In _ _ _ E).
Qed.

Lemma budget_deliver (n : nat) (x : timed) (w : world) :
I n w -> I (n + cost kr ks (at_signal x)) (deliver x w).
Proof.
intro H. unfold deliver. cbv zeta. apply budget_dispatch, B_clock.
unfold advance. apply budget_advanceFuel, H.
Qed.

Lemma budget_run (n : nat) (l : list timed) (w : world) :
I n w -> I (n + budget kr ks l) (run l w).
Proof.
unfold run. revert n w. induction l as [|x l IH]; intros n w H; simpl.
- rewrite Nat.add_0_r. exact H.
- rewrite Nat.add_assoc. apply IH, budget_deliver, H.
Qed.

End Budget.

(** ** Every record of a timer is paid for by a signal *)

Section Counting.

Lemma recordsOfType_same (ty : string) (w w' : world) :
emitted w' = emitted w -> recordsOfType ty w' = recordsOfType ty w.
Proof. intro E. unfold recordsOfType, records. rewrite E. reflexivity. Qed.

Lemma pendingFor_same (cb : callback) (w w' : world) :
timers w' = timers w -> pendingFor cb w' = pendingFor cb w.
Proof. intro E. unfold pendingFor. rewrite E. reflexivity. Qed.

Lemma recordsOfType_logEvent_le (ty' ty ob : string) (el : option element)
  (info : obj) (w : world) :
(List.length (recordsOfType ty' (settle (logEvent ty ob el info) w))
 <= S (List.length (recordsOfType ty' w)))%nat.
Proof.
rewrite !recordsOfType_rev, !length_rev.
destruct (settle_logEvent_cases ty ob el info w) as [[_ ->]|(d & _ & ->)].
- change (emitted (touched w)) with (emitted w). lia.
- change (emitted (push_emitted (mkEmission el d) (touched w)))
    with (mkEmission el d :: emitted w).
  cbn [filter]. destruct (hasType ty' (mkEmission el d)); simpl; lia.
Qed.

Lemma pending_filter_le (cb : callback) (g : timer -> bool) (ts : list timer) :
(List.length (filter (fun t => sameCallback (tm_cb t) cb) (filter g ts))
 <= List.length (filter (fun t => sameCallback (tm_cb t) cb) ts))%nat.
Proof.
induction ts as [|t r IH]; simpl; [lia|].
destruct (g t); simpl; destruct (sameCallback (tm_cb t) cb); simpl; lia.
Qed.

Lemma pending_cleared_le (cb : callback) (h : option nat) (ts : list timer) :
(List.length (filter (fun t => sameCallback (tm_cb t) cb) (cleared h ts))
 <= List.length (filter (fun t => sameCallback (tm_cb t) cb) ts))%nat.
Proof. destruct h; [apply pending_filter_le | apply Nat.le_refl]. Qed.

Lemma pending_armed_le (cb : callback) (h : option nat) (ts : list timer) (x : timer) :
(List.length (filter (fun t => sameCallback (tm_cb t) cb) (cleared h ts ++ [x]))
 <= List.length (filter (fun t => sameCallback (tm_cb t) cb) ts)
    + (if sameCallback (tm_cb x) cb then 1 else 0))%nat.
Proof.
rewrite filter_app, length_app.
pose proof (pending_cleared_le cb h ts).
cbn [filter]. destruct (sameCallback (tm_cb x) cb); simpl; lia.
Qed.

Lemma pending_unqueue_lt (cb : callback) (x : timer) (ts : list timer) :
In x ts -> sameCallback (tm_cb x) cb = true ->
(List.length (filter (fun t => sameCallback (tm_cb t) cb)
                (filter (fun y => negb (Nat.eqb (tm_id y) (tm_id x))) ts))
 < List.length (filter (fun t => sameCallback (tm_cb t) cb) ts))%nat.
Proof.
intros Hin Hc. induction ts as [|t r IH]; [contradiction|].
destruct Hin as [->|Hin].
- cbn [filter]. rewrite Nat.eqb_refl, Hc. cbn [negb List.length].
  pose proof (pending_filter_le cb (fun y => negb (Nat.eqb (tm_id y) (tm_id x))) r).
  lia.
- specialize (IH Hin). cbn [filter].
  destruct (negb (Nat.eqb (tm_id t) (tm_id x))); cbn [filter];
    destruct (sameCallback (tm_cb t) cb); simpl; lia.
Qed.

Lemma timers_onScroll (w : world) :
timers (settle onScroll w)
  = (cleared (scrollTimeout w) (timers w)
     ++ [mkTimer (nextTimer w) (now w + Z.max 0 (scrollThrottle (cfg w))) CbScroll])%list.
Proof. rewrite settle_onScroll. destruct (scrollTimeout w); reflexivity. Qed.

Lemma timers_onResize (w : world) :
timers (settle onResize w)
  = (cleared (resizeTimeout w) (timers w)
     ++ [mkTimer (nextTimer w) (now w + Z.max 0 (resizeThrottle (cfg w))) CbResize])%list.
Proof. rewrite settle_onResize. destruct (resizeTimeout w); reflexivity. Qed.

Lemma emitted_onScroll (w : world) : emitted (settle onScroll w) = emitted w.
Proof. rewrite settle_onScroll. destruct (scrollTimeout w); reflexivity. Qed.

Lemma emitted_onResize (w : world) : emitted (settle onResize w) = emitted w.
Proof. rewrite settle_onResize. destruct (resizeTimeout w); reflexivity. Qed.

Lemma timers_rearmed (u : world) :
timers (rearmed u)
  = (timers u ++ [mkTimer (nextTimer u) (now u + Z.max 0 (idleTimeout (cfg u))) CbIdle])%list.
Proof. reflexivity. Qed.

(** What [resetIdleTimer] does to the queue and to the records: the idle
  handle is cleared and, unless the [logEvent] of line 577 threw, one
  idle timer is set. *)
Lemma resetIdleTimer_effect (w : world) :
(forall ty, ty <> "user_active" ->
   recordsOfType ty (settle resetIdleTimer w) = recordsOfType ty w)
/\ (timers (settle resetIdleTimer w) = cleared (idleTimer w) (timers w)
    \/ exists due,
         timers (settle resetIdleTimer w)
           = (cleared (idleTimer w) (timers w)
              ++ [mkTimer (nextTimer w) due CbIdle])%list).
Proof.
rewrite settle_resetIdleTimer. cbv zeta.
set (w1 := settle (clearTimeout (idleTimer w)) w).
assert (Et : timers w1 = cleared (idleTimer w) (timers w))
  by apply timers_clearTimeout.
assert (En : nextTimer w1 = nextTimer w) by (unfold w1; destruct (idleTimer w); reflexivity).
assert (Ee : emitted w1 = emitted w) by (unfold w1; destruct (idleTimer w); reflexivity).
destruct (isIdle (st w1)).
- rewrite settle_then_modify.
  set (w2 := set_st (with_isIdle false) w1).
  destruct (logEvent_frame "user_active" "session" (h_body (page w2)) (activeInfo w2) w2)
    as (_ & _ & _ & Ft & Fn & _).
  assert (R : forall ty, ty <> "user_active" ->
            recordsOfType ty
              (settle (logEvent "user_active" "session" (h_body (page w2))
                         (activeInfo w2)) w2) = recordsOfType ty w).
  { intros ty Hty. rewrite recordsOfType_logEvent_other;
      [apply recordsOfType_same, Ee | reflexivity | congruence]. }
  destruct (fst _).
  + split; [intros ty Hty; rewrite <- (R ty Hty); apply recordsOfType_same; reflexivity|].
    right. eexists. rewrite timers_rearmed.
    rewrite Ft, Fn. change (timers w2) with (timers w1).
    change (nextTimer w2) with (nextTimer w1). rewrite Et, En. reflexivity.
  + split; [exact R|]. left. rewrite Ft. exact Et.
- split; [intros ty _; apply recordsOfType_same; exact Ee|].
  right. eexists. rewrite timers_rearmed, Et, En. reflexivity.
Qed.

Lemma observerCallback_effect (ty : string) (entries : list entry) (w : world) :
ty <> "view" ->
recordsOfType ty (settle (observerCallback entries) w) = recordsOfType ty w
/\ timers (settle (observerCallback entries) w) = timers w.
Proof.
intro Hty. unfold observerCallback. revert w.
induction entries as [|en r IH]; intro w; [split; reflexivity|].
rewrite settle_forEach_cons.
assert (H1 : recordsOfType ty (settle (observerEntry en) w) = recordsOfType ty w
             /\ timers (settle (observerEntry en) w) = timers w).
{ rewrite settle_observerEntry. destruct (_ && _)%bool; [|split; reflexivity].
  split.
  - rewrite recordsOfType_logEvent_other; [reflexivity | reflexivity | congruence].
  - match goal with
    | |- timers (settle (logEvent ?a ?b ?c ?d) ?u) = _ =>
        destruct (logEvent_frame a b c d u) as (_ & _ & _ & -> & _)
    end. reflexivity. }
destruct (fst _); [|exact H1].
destruct (IH (settle (observerEntry en) w)) as [-> ->]. exact H1.
Qed.

Variable cb : callback.
Variable ty : string.

Hypothesis ty_raw : includes rawTypes ty = false.
Hypothesis ty_active : ty <> "user_active".
Hypothesis ty_view : ty <> "view".
Hypothesis ty_move : ty <> "mouse_move".
Hypothesis cb_resize : sameCallback CbResize cb = false.
Hypothesis cb_logs : forall c w,
(List.length (recordsOfType ty (settle (callbackOf c) w))
 <= List.length (recordsOfType ty w) + (if sameCallback c cb then 1 else 0))%nat.

Lemma owed_logEvent (n : nat) (w : world) (ty' ob : string) (el : option element)
  (info : obj) :
In ty' rawTypes -> plainInfo info = true ->
(owed cb ty w <= n)%nat ->
(owed cb ty (settle (logEvent ty' ob el info) w) <= n)%nat.
Proof.
intros Hin Hp H. unfold owed in *.
rewrite recordsOfType_logEvent_other;
  [| exact Hp | apply rawTypes_not; assumption].
rewrite (pendingFor_same cb w); [exact H|].
destruct (logEvent_frame ty' ob el info w) as (_ & _ & _ & -> & _). reflexivity.
Qed.

Lemma owed_resetIdleTimer (n : nat) (w : world) :
(owed cb ty w <= n)%nat ->
(owed cb ty (settle resetIdleTimer w) <= n + armCost CbIdle cb)%nat.
Proof.
intro H. unfold owed in *.
destruct (resetIdleTimer_effect w) as [R [T|[due T]]];
  rewrite (R ty ty_active); unfold pendingFor; rewrite T.
- pose proof (pending_cleared_le cb (idleTimer w) (timers w)).
  unfold pendingFor in H. lia.
- pose proof (pending_armed_le cb (idleTimer w) (timers w)
                (mkTimer (nextTimer w) due CbIdle)) as P.
  cbn [tm_cb] in P. unfold pendingFor in H. unfold armCost. lia.
Qed.

Lemma owed_onScroll (n : nat) (w : world) :
(owed cb ty w <= n)%nat ->
(owed cb ty (settle onScroll w) <= n + armCost CbScroll cb)%nat.
Proof.
intro H. unfold owed in *.
rewrite (recordsOfType_same ty w) by apply emitted_onScroll.
unfold pendingFor. rewrite timers_onScroll.
match goal with
| |- context [(cleared ?h ?ts ++ [?x])%list] =>
    pose proof (pending_armed_le cb h ts x) as P
end.
cbn [tm_cb] in P. unfold pendingFor in H. unfold armCost. lia.
Qed.

Lemma owed_onResize (n : nat) (w : world) :
(owed cb ty w <= n)%nat -> (owed cb ty (settle onResize w) <= n)%nat.
Proof.
intro H. unfold owed in *.
rewrite (recordsOfType_same ty w) by apply emitted_onResize.
unfold pendingFor. rewrite timers_onResize.
match goal with
| |- context [(cleared ?h ?ts ++ [?x])%list] =>
    pose proof (pending_armed_le cb h ts x) as P
end.
cbn [tm_cb] in P. rewrite cb_resize in P. unfold pendingFor in H. lia.
Qed.

Lemma owed_onMouseMove (n : nat) (e : event) (w : world) :
(owed cb ty w <= n)%nat -> (owed cb ty (settle (onMouseMove e) w) <= n)%nat.
Proof.
intro H. unfold owed in *. rewrite settle_onMouseMove. cbv zeta.
destruct (_ <? _); [|exact H].
rewrite recordsOfType_logEvent_other; [| reflexivity | congruence].
match goal with
| |- context [settle (logEvent ?a ?b ?c ?d) ?u] =>
    destruct (logEvent_frame a b c d u) as (_ & _ & _ & Et & _);
    rewrite (pendingFor_same cb u) by exact Et
end.
exact H.
Qed.

Lemma owed_observerCallback (n : nat) (entries : list entry) (w : world) :
(owed cb ty w <= n)%nat ->
(owed cb ty (settle (observerCallback entries) w) <= n)%nat.
Proof.
intro H. unfold owed in *.
destruct (observerCallback_effect ty entries w ty_view) as [-> Et].
rewrite (pendingFor_same cb w) by exact Et. exact H.
Qed.

Lemma owed_fire (n : nat) (x : timer) (w : world) :
In x (timers w) -> (owed cb ty w <= n)%nat -> (owed cb ty (fire x w) <= n)%nat.
Proof.
intros Hin H. unfold owed in *.
assert (P : pendingFor cb (fire x w)
            = filter (fun t => sameCallback (tm_cb t) cb)
                (filter (fun y => negb (Nat.eqb (tm_id y) (tm_id x))) (timers w))).
{ unfold pendingFor. rewrite timers_fire. reflexivity. }
rewrite P. unfold fire. cbv zeta.
match goal with
| |- context [settle (callbackOf ?c) ?u] =>
    pose proof (cb_logs c u) as L;
    rewrite (recordsOfType_same ty w u) in L by reflexivity
end.
unfold pendingFor in H.
destruct (sameCallback (tm_cb x) cb) eqn:Hc.
- pose proof (pending_unqueue_lt cb x (timers w) Hin Hc). lia.
- pose proof (pending_filter_le cb
                (fun y => negb (Nat.eqb (tm_id y) (tm_id x))) (timers w)). lia.
Qed.

Lemma owed_run (n : nat) (l : list timed) (w : world) :
(owed cb ty w <= n)%nat ->
(owed cb ty (run l w) <= n + budget (armCost CbIdle cb) (armCost CbScroll cb) l)%nat.
Proof.
apply (budget_run (fun n w => (owed cb ty w <= n)%nat)
         (armCost CbIdle cb) (armCost CbScroll cb)).
- intros; apply owed_logEvent; assumption.
- intros; apply owed_resetIdleTimer; assumption.
- intros; apply owed_onScroll; assumption.
- intros; apply owed_onResize; assumption.
- intros; apply owed_onMouseMove; assumption.
- intros; apply owed_observerCallback; assumption.
- intros; assumption.
- intros; assumption.
- intros; apply owed_fire; assumption.
Qed.

End Counting.

Lemma budget_resets (l : list timed) : budget 1 0 l = resets l.
Proof.
  unfold resets. induction l as [|x l IH]; [reflexivity|].
  cbn [budget fold_right filter]. fold (budget 1 0 l). rewrite IH.
  destruct (at_signal x); reflexivity.
Qed.

Lemma budget_viewportScrolls (l : list timed) : budget 0 1 l = viewportScrolls l.
Proof.
  unfold viewportScrolls. induction l as [|x l IH]; [reflexivity|].
  cbn [budget fold_right filter]. fold (budget 0 1 l). rewrite IH.
  destruct (at_signal x); reflexivity.
Qed.

Lemma idle_callbacks_log (c : callback) (w : world) :
  (List.length (recordsOfType "user_idle" (settle (callbackOf c) w))
   <= List.length (recordsOfType "user_idle" w)
      + (if sameCallback c CbIdle then 1 else 0))%nat.
Proof.
  destruct c; cbn [callbackOf sameCallback].
  - rewrite settle_scrollCallback.
    rewrite recordsOfType_logEvent_other; [| reflexivity | discriminate].
    rewrite (recordsOfType_same _ w); [lia|].
    unfold scrolled. cbv zeta. destruct (JsNum.gt _ _); reflexivity.
  - destruct (logsOnly_resizeCallback w) as [->|(ty & ob & el & info & Hin & Hp & ->)];
      [lia|].
    rewrite recordsOfType_logEvent_other;
      [lia | exact Hp | apply rawTypes_not; [exact Hin | reflexivity]].
  - rewrite settle_idleCallback. cbv zeta.
    match goal with
    | |- context [settle (logEvent ?a ?b ?c ?d) ?u] =>
        pose proof (recordsOfType_logEvent_le "user_idle" a b c d u) as L;
        rewrite (recordsOfType_same "user_idle" w u) in L by reflexivity
    end.
    lia.
  - rewrite (recordsOfType_same _ w) by reflexivity. lia.
Qed.

Lemma scroll_callbacks_log (c : callback) (w : world) :
  (List.length (recordsOfType "scroll" (settle (callbackOf c) w))
   <= List.length (recordsOfType "scroll" w)
      + (if sameCallback c CbScroll then 1 else 0))%nat.
Proof.
  destruct c; cbn [callbackOf sameCallback].
  - rewrite settle_scrollCallback.
    match goal with
    | |- context [settle (logEvent ?a ?b ?c ?d) ?u] =>
        pose proof (recordsOfType_logEvent_le "scroll" a b c d u) as L;
        rewrite (recordsOfType_same "scroll" w u) in L
          by (unfold scrolled; cbv zeta; destruct (JsNum.gt _ _); reflexivity)
    end.
    lia.
  - destruct (logsOnly_resizeCallback w) as [->|(ty & ob & el & info & Hin & Hp & ->)];
      [lia|].
    rewrite recordsOfType_logEvent_other;
      [lia | exact Hp | apply rawTypes_not; [exact Hin | reflexivity]].
  - rewrite settle_idleCallback. cbv zeta.
    rewrite recordsOfType_logEvent_other; [| reflexivity | discriminate].
    rewrite (recordsOfType_same _ w) by reflexivity. lia.
  - rewrite (recordsOfType_same _ w) by reflexivity. lia.
Qed.

(** X24.  A [user_idle] record is emitted at most once for each time the
    idle timer was set: once for the start of the script and once for each
    signal that calls [resetIdleTimer] (click, keypress, scroll,
    mousemove, mousedown, touchstart).  A silence of any length gives one
    record, not one per [idleTimeout]. *)
Theorem user_idle_at_most_once_per_reset (c : CONFIG) (h : host) (t0 : Z)
    (l : list timed) :
  (List.length (recordsOfType "user_idle" (run l (boot c h t0))) <= 1 + resets l)%nat.
Proof.
  pose proof (owed_run CbIdle "user_idle" eq_refl ltac:(discriminate)
                ltac:(discriminate) ltac:(discriminate) eq_refl idle_callbacks_log
                1 l (boot c h t0)) as H.
  cbn [armCost sameCallback] in H. rewrite budget_resets in H.
  unfold owed in H.
  assert (B : (List.length (recordsOfType "user_idle" (boot c h t0))
               + List.length (pendingFor CbIdle (boot c h t0)) <= 1)%nat)
    by (unfold boot; destruct (trackVisibility c); vm_compute; lia).
  specialize (H B). lia.
Qed.

(** X19.  Every [scroll] record is paid for by a scroll of the viewport: a
    run never holds more [scroll] records than scroll signals, however the
    timers fall. *)
Theorem scroll_records_at_most_scroll_signals (c : CONFIG) (h : host) (t0 : Z)
    (l : list timed) :
  (List.length (recordsOfType "scroll" (run l (boot c h t0))) <= viewportScrolls l)%nat.
Proof.
  pose proof (owed_run CbScroll "scroll" eq_refl ltac:(discriminate)
                ltac:(discriminate) ltac:(discriminate) eq_refl scroll_callbacks_log
                0 l (boot c h t0)) as H.
  cbn [armCost sameCallback] in H. rewrite budget_viewportScrolls in H.
  unfold owed in H.
  assert (B : (List.length (recordsOfType "scroll" (boot c h t0))
               + List.length (pendingFor CbScroll (boot c h t0)) <= 0)%nat)
    by (unfold boot; destruct (trackVisibility c); vm_compute; lia).
  specialize (H B). lia.
Qed.

(** ** The idle deadline *)

Section IdleDeadline.

Lemma sameCallback_eq (a b : callback) : sameCallback a b = true -> a = b.
Proof. destruct a, b; try discriminate; reflexivity. Qed.

(** Clearing the handle of one source leaves the pending timers of the
  others. *)
Lemma pending_kept (cb : callback) (h : option nat) (ts : list timer) (n : nat)
  (hs hr hi : option nat) :
ordered ts n hs hr hi -> cb <> CbObserve -> apart h (handleIn cb hs hr hi) ->
filter (fun t => sameCallback (tm_cb t) cb) (cleared h ts)
  = filter (fun t => sameCallback (tm_cb t) cb) ts.
Proof.
intros (_ & _ & O & _) Hcb A. destruct h as [i|]; [|reflexivity]. cbn [cleared].
assert (G : forall l, (forall t, In t l -> In t ts) ->
          filter (fun t => sameCallback (tm_cb t) cb)
            (filter (fun t => negb (Nat.eqb (tm_id t) i)) l)
          = filter (fun t => sameCallback (tm_cb t) cb) l).
{ induction l as [|t l IH]; intro Sub; [reflexivity|].
  assert (IH' := IH (fun t' Ht' => Sub t' (or_intror Ht'))).
  cbn [filter]. destruct (sameCallback (tm_cb t) cb) eqn:Hc.
  - assert (E : tm_cb t = cb) by (apply sameCallback_eq, Hc).
    pose proof (O t (Sub t (or_introl eq_refl))) as Ot.
    rewrite E in Ot. specialize (Ot Hcb). rewrite Ot in A. cbn [apart] in A.
    assert (Ne : Nat.eqb (tm_id t) i = false) by (apply Nat.eqb_neq; congruence).
    rewrite Ne. cbn [negb filter]. rewrite Hc, IH'. reflexivity.
  - destruct (negb (Nat.eqb (tm_id t) i)); cbn [filter]; [rewrite Hc|]; exact IH'. }
apply G. trivial.
Qed.

Lemma pending_none (cb : callback) (l : list timer) :
(forall t, In t l -> tm_cb t <> cb) ->
filter (fun t => sameCallback (tm_cb t) cb) l = [].
Proof.
induction l as [|t l IH]; intro H; [reflexivity|]. cbn [filter].
destruct (sameCallback (tm_cb t) cb) eqn:Hc.
- exfalso. apply (H t (or_introl eq_refl)). apply sameCallback_eq, Hc.
- apply IH. intros t' Ht'. apply H. right. exact Ht'.
Qed.

(** While the session is active, [resetIdleTimer] leaves exactly one idle
  timer pending, due [idleTimeout] ms from now. *)
Lemma resetIdleTimer_deadline (w : world) :
calm w ->
let w' := settle resetIdleTimer w in
pendingFor CbIdle w'
  = [mkTimer (nextTimer w) (now w + Z.max 0 (idleTimeout (cfg w))) CbIdle]
/\ calm w' /\ now w' = now w /\ cfg w' = cfg w.
Proof.
intros [H Hi]. cbv zeta.
destruct (resetIdleTimer_when_active w Hi) as (_ & _ & Ec & _ & En & _).
split; [|split; [apply calm_resetIdleTimer; split; assumption | split; assumption]].
rewrite settle_resetIdleTimer. cbv zeta.
replace (isIdle (st (settle (clearTimeout (idleTimer w)) w))) with false
  by (destruct (idleTimer w); symmetry; exact Hi).
unfold pendingFor. rewrite timers_rearmed, timers_clearTimeout, filter_app.
rewrite (pending_none CbIdle (cleared (idleTimer w) (timers w)))
  by (apply (cleared_none_left CbIdle _ _ _ _ _ H); discriminate).
destruct (idleTimer w); reflexivity.
Qed.

(** The listeners that only log leave the clock, the settings and the
  queue as they are. *)
Lemma logsOnly_calm (m : M unit) (w : world) :
logsOnly m -> calm w ->
let w' := settle m w in
calm w' /\ now w' = now w /\ cfg w' = cfg w /\ timers w' = timers w.
Proof.
intros L H. cbv zeta.
destruct (L w) as [->|(ty & ob & el & info & _ & _ & ->)]; [repeat split; apply H|].
destruct (logEvent_frame ty ob el info w) as (Ec & _ & En & Et & _).
split; [apply calm_logEvent, H | repeat split; assumption].
Qed.

Lemma onMouseMove_frame (e : event) (w : world) :
let w' := settle (onMouseMove e) w in
now w' = now w /\ cfg w' = cfg w /\ timers w' = timers w.
Proof.
cbv zeta. rewrite settle_onMouseMove. cbv zeta.
destruct (_ <? _); [|repeat split; reflexivity].
match goal with
| |- context [settle (logEvent ?a ?b ?c ?d) ?u] =>
    destruct (logEvent_frame a b c d u) as (Ec & _ & En & Et & _)
end.
rewrite Ec, En, Et. repeat split; reflexivity.
Qed.

Lemma onScroll_keeps_idle (w : world) :
hygienic w -> pendingFor CbIdle (settle onScroll w) = pendingFor CbIdle w.
Proof.
intro H. unfold pendingFor. rewrite timers_onScroll, filter_app.
cbn [filter tm_cb sameCallback]. rewrite app_nil_r.
apply (pending_kept CbIdle _ _ _ _ _ _ H); [discriminate|].
cbn [handleIn]. apply H.
Qed.

Lemma onResize_keeps_idle (w : world) :
hygienic w -> pendingFor CbIdle (settle onResize w) = pendingFor CbIdle w.
Proof.
intro H. unfold pendingFor. rewrite timers_onResize, filter_app.
cbn [filter tm_cb sameCallback]. rewrite app_nil_r.
apply (pending_kept CbIdle _ _ _ _ _ _ H); [discriminate|].
cbn [handleIn]. apply H.
Qed.

Lemma now_onScroll (w : world) :
now (settle onScroll w) = now w /\ cfg (settle onScroll w) = cfg w.
Proof. rewrite settle_onScroll. destruct (scrollTimeout w); split; reflexivity. Qed.

(** After the listeners of a signal that resets the idle timer, one idle
  timer is pending, due [idleTimeout] ms after the signal. *)
Lemma dispatch_deadline (s : signal) (w : world) :
calm w -> resetsIdle s = true ->
let w' := dispatch s w in
map tm_due (pendingFor CbIdle w') = [now w + Z.max 0 (idleTimeout (cfg w))]
/\ now w' = now w /\ cfg w' = cfg w.
Proof.
intros H Hs. cbv zeta. unfold dispatch.
destruct s; try discriminate Hs; cbn [listenersOf];
  repeat match goal with
         | |- context [when ?b _] => destruct b; unfold when
         end;
  rewrite ?runListeners_two, ?runListeners_one;
  try (destruct (resetIdleTimer_deadline w H) as (-> & _ & -> & ->);
       repeat split; reflexivity).
- (* a click *)
  destruct (logsOnly_calm (onClick e) w (logsOnly_onClick e) H) as (H1 & En & Ec & _).
  destruct (resetIdleTimer_deadline _ H1) as (-> & _ & -> & ->).
  rewrite En, Ec. repeat split; reflexivity.
- (* a scroll of the viewport *)
  destruct (resetIdleTimer_deadline w H) as (P & [H1 _] & En & Ec).
  rewrite (onScroll_keeps_idle _ H1), P.
  destruct (now_onScroll (settle resetIdleTimer w)) as [-> ->].
  rewrite En, Ec. repeat split; reflexivity.
- (* a mouse move with its listener *)
  destruct (resetIdleTimer_deadline w H) as (P & _ & En & Ec).
  destruct (onMouseMove_frame e (settle resetIdleTimer w)) as (-> & -> & Et).
  rewrite (pendingFor_same CbIdle _ _ Et), P, En, Ec. repeat split; reflexivity.
Qed.

Lemma cfg_logEvent (ty ob : string) (el : option element) (info : obj) (w : world) :
cfg (settle (logEvent ty ob el info) w) = cfg w.
Proof. apply logEvent_frame. Qed.

Lemma cfg_resetIdleTimer (w : world) :
calm w -> cfg (settle resetIdleTimer w) = cfg w.
Proof. intros [_ Hi]. apply (resetIdleTimer_when_active w Hi). Qed.

Lemma cfg_idleCallback (w : world) : cfg (settle idleCallback w) = cfg w.
Proof. rewrite settle_idleCallback. cbv zeta. rewrite cfg_logEvent. reflexivity. Qed.

Lemma cfg_scrollCallback (w : world) : cfg (settle scrollCallback w) = cfg w.
Proof.
rewrite settle_scrollCallback, cfg_logEvent.
unfold scrolled. cbv zeta. destruct (JsNum.gt _ _); reflexivity.
Qed.

Lemma cfg_onResize (w : world) : cfg (settle onResize w) = cfg w.
Proof. rewrite settle_onResize. destruct (resizeTimeout w); reflexivity. Qed.

Lemma cfg_observerCallback (entries : list entry) (w : world) :
cfg (settle (observerCallback entries) w) = cfg w.
Proof.
unfold observerCallback. revert w.
induction entries as [|en r IH]; intro w; [reflexivity|].
rewrite settle_forEach_cons.
assert (E1 : cfg (settle (observerEntry en) w) = cfg w).
{ rewrite settle_observerEntry. destruct (_ && _)%bool; [|reflexivity].
  rewrite cfg_logEvent. reflexivity. }
destruct (fst _); [|exact E1]. rewrite IH. exact E1.
Qed.

End IdleDeadline.

Ltac cfg_step :=
  lazymatch goal with
  | |- cfg (settle (logEvent _ _ _ _) _) = _ => apply cfg_logEvent
  | |- cfg (settle resetIdleTimer _) = _ => apply cfg_resetIdleTimer; assumption
  | |- cfg (settle idleCallback _) = _ => apply cfg_idleCallback
  | |- cfg (settle onScroll _) = _ => apply now_onScroll
  | |- cfg (settle scrollCallback _) = _ => apply cfg_scrollCallback
  | |- cfg (settle onResize _) = _ => apply cfg_onResize
  | |- cfg (settle (onMouseMove _) _) = _ => apply onMouseMove_frame
  | |- cfg (settle (observerCallback _) _) = _ => apply cfg_observerCallback
  | |- _ => reflexivity
  end.

(** The premises of [run_keeps] for: the queue is in order, the idle flag
    is down and the settings are [c]. *)
Ltac steady_premise :=
  intros;
  lazymatch goal with
  | H : calm ?u /\ cfg ?u = _ |- calm _ /\ cfg _ = _ =>
      let E := fresh "E" in
      destruct H as [H E]; split; [calm_premise | rewrite <- E; cfg_step]
  end.

Lemma steady_run (c : CONFIG) (l : list timed) (w : world) :
  calm w /\ cfg w = c -> calm (run l w) /\ cfg (run l w) = c.
Proof.
  apply (run_keeps (fun w => calm w /\ cfg w = c) anyPage);
    [ | | | | | | | | | | | | apply pagesIn_any ]; steady_premise.
Qed.

Lemma steady_advance (c : CONFIG) (t : Z) (w : world) :
  calm w /\ cfg w = c -> calm (advance t w) /\ cfg (advance t w) = c.
Proof.
  intro H. unfold advance.
  apply (advanceFuel_keeps (fun w => calm w /\ cfg w = c));
    try exact H; steady_premise.
Qed.

Lemma steady_boot (c : CONFIG) (h : host) (t0 : Z) :
  calm (boot c h t0) /\ cfg (boot c h t0) = c.
Proof.
  split; [apply calm_boot|]. unfold boot. destruct (trackVisibility c); reflexivity.
Qed.

(** X20.  After a click, keypress, scroll, mousemove, mousedown or
    touchstart, in every run, exactly one idle timer is pending and it is
    due [idleTimeout] ms after the instant of that signal: each of these
    signals postpones [user_idle] by the full timeout (a negative timeout
    counts as 0). *)
Theorem idle_deadline_follows_last_activity (c : CONFIG) (h : host) (t0 : Z)
    (l : list timed) (t : Z) (s : signal) :
  resetsIdle s = true ->
  let w := run (l ++ [At t s])%list (boot c h t0) in
  map tm_due (pendingFor CbIdle w) = [now w + Z.max 0 (idleTimeout c)].
Proof.
  intro Hs. cbv zeta. rewrite run_app.
  pose proof (steady_run c l (boot c h t0) (steady_boot c h t0)) as H.
  set (w := run l (boot c h t0)) in *.
  apply (steady_advance c t) in H. destruct H as [H Hc].
  change (run [At t s] w)
    with (dispatch s (set_now (Z.max (now (advance t w)) t) (advance t w))).
  set (w1 := set_now (Z.max (now (advance t w)) t) (advance t w)).
  assert (H1 : calm w1) by exact H.
  destruct (dispatch_deadline s w1 H1 Hs) as (-> & -> & _).
  change (cfg w1) with (cfg (advance t w)). rewrite Hc. reflexivity.
Qed.

Lemma idle_deadline_follows_last_activity_witness :
  let w := run silenceThenClick (start somePage 0) in
  map tm_due (pendingFor CbIdle w) = [now w + Z.max 0 (idleTimeout defaultCONFIG)].
Proof.
  exact (idle_deadline_follows_last_activity defaultCONFIG somePage 0 [] 31000
           (SClick (eventOn buttonNode [])) eq_refl).
Defined.

Section QuietSignals.

Variable P : list timer.

Lemma quiet_dispatch (s : signal) (w : world) :
hygienic w -> pendingFor CbIdle w = P ->
hygienic (dispatch s w)
/\ (resetsIdle s = false -> pendingFor CbIdle (dispatch s w) = P).
Proof.
intros H E.
assert (K : idleKept P (0 + cost 1 0 s) (dispatch s w)).
{ apply (budget_dispatch (idleKept P) 1 0); unfold idleKept.
  - intros n w0 ty ob el info _ _ [H0 E0]. split; [apply hygienic_logEvent, H0|].
    intro Hn. rewrite <- (E0 Hn). apply pendingFor_same.
    destruct (logEvent_frame ty ob el info w0) as (_ & _ & _ & -> & _). reflexivity.
  - intros n w0 [H0 _]. split; [apply hygienic_resetIdleTimer, H0 | lia].
  - intros n w0 [H0 E0]. split; [apply hygienic_onScroll, H0|].
    intro Hn. rewrite onScroll_keeps_idle by exact H0. apply E0. lia.
  - intros n w0 [H0 E0]. split; [apply hygienic_onResize, H0|].
    intro Hn. rewrite onResize_keeps_idle by exact H0. apply E0, Hn.
  - intros n e w0 [H0 E0].
    destruct (onMouseMove_frame e w0) as (_ & _ & Et).
    split; [|intro Hn; rewrite (pendingFor_same CbIdle _ _ Et); apply E0, Hn].
    rewrite settle_onMouseMove. cbv zeta.
    destruct (_ <? _); [apply hygienic_logEvent|]; exact H0.
  - intros n entries w0 [H0 E0]. split; [apply hygienic_observerCallback, H0|].
    intro Hn.
    destruct (observerCallback_effect "scroll" entries w0 ltac:(discriminate))
      as [_ Et].
    rewrite (pendingFor_same CbIdle _ _ Et). apply E0, Hn.
  - intros n h w0 K. exact K.
  - split; [exact H | intros _; exact E]. }
destruct K as [K1 K2]. split; [exact K1|].
intro Hs. apply K2. destruct s; try discriminate Hs; reflexivity.
Qed.

End QuietSignals.

(** X21.  Only the six signals of line 591 postpone [user_idle]: the
    listeners of every other signal (a resize, a key going down, a focus,
    a copy, ...) leave the pending idle timer as it is, in every run. *)
Theorem other_signals_do_not_postpone_idleness (c : CONFIG) (h : host) (t0 : Z)
    (l : list timed) (s : signal) :
  resetsIdle s = false ->
  let w := run l (boot c h t0) in
  pendingFor CbIdle (dispatch s w) = pendingFor CbIdle w.
Proof.
  intro Hs. cbv zeta.
  destruct (calm_run l _ (calm_boot c h t0)) as [H _].
  apply (quiet_dispatch _ s _ H eq_refl), Hs.
Qed.

Lemma other_signals_do_not_postpone_idleness_witness :
  pendingFor CbIdle (dispatch SResize (run silenceThenClick (start somePage 0)))
    = pendingFor CbIdle (run silenceThenClick (start somePage 0)).
Proof.
  exact (other_signals_do_not_postpone_idleness defaultCONFIG somePage 0
           silenceThenClick SResize eq_refl).
Defined.

(** ** The types of the records *)

Section Typed.

Local Ltac in_own := simpl; repeat (first [left; reflexivity | right]).

Local Ltac one_call :=
right; eexists _, _, _, _;
split; [|split; [|first [reflexivity | apply settle_then_ret]]];
[in_own | reflexivity].

Local Ltac logs_as :=
intro w; cbv zeta; rewrite ?settle_gets; cbv beta;
first [one_call | left; reflexivity].

Lemma logsAs_onLoad : logsAs ["page_view"] onLoad.
Proof. unfold onLoad. logs_as. Qed.

Lemma logsAs_onClick e : logsAs ["click"] (onClick e).
Proof. unfold onClick. logs_as. Qed.

Lemma logsAs_onDblClick e : logsAs ["double_click"] (onDblClick e).
Proof. unfold onDblClick. logs_as. Qed.

Lemma logsAs_onContextMenu e : logsAs ["right_click"] (onContextMenu e).
Proof. unfold onContextMenu. logs_as. Qed.

Lemma logsAs_onChange e : logsAs ["change"] (onChange e).
Proof. unfold onChange. logs_as. Qed.

Lemma logsAs_onInput e : logsAs ["input"] (onInput e).
Proof. unfold onInput. logs_as. Qed.

Lemma logsAs_onFocusLike e kind : logsAs [kind] (onFocusLike e kind).
Proof.
intro w. unfold onFocusLike. cbv zeta. rewrite settle_lowerTag.
destruct (el_tagName (ev_target e)) as [t|]; [|left; reflexivity].
match goal with |- context [if ?c then _ else _] => destruct c end;
  [|left; reflexivity].
right. eexists _, _, _, _. split; [left; reflexivity|].
split; [|apply settle_then_ret]. reflexivity.
Qed.

Lemma logsAs_onFocus e : logsAs ["focus"] (onFocus e).
Proof. apply logsAs_onFocusLike. Qed.

Lemma logsAs_onBlur e : logsAs ["blur"] (onBlur e).
Proof. apply logsAs_onFocusLike. Qed.

Lemma logsAs_onSubmit e : logsAs ["submit"] (onSubmit e).
Proof. unfold onSubmit. logs_as. Qed.

Lemma logsAs_onKeyDown e : logsAs ["keyboard"] (onKeyDown e).
Proof. unfold onKeyDown. logs_as. Qed.

Lemma logsAs_onKeyUp e : logsAs ["keyboard"] (onKeyUp e).
Proof. unfold onKeyUp. logs_as. Qed.

Lemma logsAs_onMouseEnterLike e kind : logsAs [kind] (onMouseEnterLike e kind).
Proof.
intro w. unfold onMouseEnterLike. cbv zeta.
match goal with |- context [if ?c then _ else _] => destruct c end;
  [|left; reflexivity].
right. eexists _, _, _, _. split; [left; reflexivity|].
split; [|apply settle_then_ret]. reflexivity.
Qed.

Lemma logsAs_onMouseEnter e : logsAs ["mouse_enter"] (onMouseEnter e).
Proof. apply logsAs_onMouseEnterLike. Qed.

Lemma logsAs_onMouseLeave e : logsAs ["mouse_leave"] (onMouseLeave e).
Proof. apply logsAs_onMouseEnterLike. Qed.

Lemma logsAs_onCopyLike e kind : logsAs [kind] (onCopyLike e kind).
Proof.
intro w. unfold onCopyLike. cbv zeta. rewrite settle_gets.
right. eexists _, _, _, _. split; [left; reflexivity|].
split; [|apply settle_then_ret]. reflexivity.
Qed.

Lemma logsAs_onCopy e : logsAs ["copy"] (onCopy e).
Proof. apply logsAs_onCopyLike. Qed.

Lemma logsAs_onCut e : logsAs ["cut"] (onCut e).
Proof. apply logsAs_onCopyLike. Qed.

Lemma logsAs_onPaste e : logsAs ["paste"] (onPaste e).
Proof. unfold onPaste. logs_as. Qed.

Lemma logsAs_resizeCallback : logsAs ["resize"] resizeCallback.
Proof. unfold resizeCallback. logs_as. Qed.

Lemma logsAs_onVisibilityChange : logsAs ["visibility_change"] onVisibilityChange.
Proof. unfold onVisibilityChange. logs_as. Qed.

Lemma logsAs_onConnection which : logsAs ["connection"] (onConnection which).
Proof. unfold onConnection. logs_as. Qed.

Lemma logsAs_onBeforeUnload : logsAs ["page_exit"] onBeforeUnload.
Proof. unfold onBeforeUnload. logs_as. Qed.

Lemma logsAs_onMedia e kind info :
plainInfo info = true -> logsAs [kind] (onMedia e kind info).
Proof.
intros Hp w. unfold onMedia. cbv zeta.
destruct (isMedia (ev_target e)); [|left; reflexivity].
rewrite settle_lowerTag.
destruct (el_tagName (ev_target e)) as [t|]; [|left; reflexivity].
right. eexists _, _, _, _. split; [left; reflexivity|].
split; [|apply settle_then_ret]. exact Hp.
Qed.

Lemma logsAs_onPlay e : logsAs ["media_play"] (onPlay e).
Proof. apply logsAs_onMedia. reflexivity. Qed.

Lemma logsAs_onPause e : logsAs ["media_pause"] (onPause e).
Proof. apply logsAs_onMedia. reflexivity. Qed.

Lemma logsAs_onEnded e : logsAs ["media_ended"] (onEnded e).
Proof. apply logsAs_onMedia. reflexivity. Qed.

Lemma logsAs_onSelectionChange : logsAs ["text_selection"] onSelectionChange.
Proof.
intro w. unfold onSelectionChange. rewrite settle_gets. cbv zeta.
destruct (Nat.ltb 0 (String.length (h_selectionText (page w))));
  [|left; reflexivity].
one_call.
Qed.

Lemma logsAs_onDragStart e : logsAs ["drag_start"] (onDragStart e).
Proof. unfold onDragStart. logs_as. Qed.

Lemma logsAs_onDragEnd e : logsAs ["drag_end"] (onDragEnd e).
Proof. unfold onDragEnd. logs_as. Qed.

Lemma logsAs_onDrop e : logsAs ["drop"] (onDrop e).
Proof. unfold onDrop. logs_as. Qed.

End Typed.

(** The lemma that gives the type a listener logs with. *)
Ltac logsAs_of m :=
  lazymatch m with
  | onLoad => constr:(logsAs_onLoad)
  | onClick ?e => constr:(logsAs_onClick e)
  | onDblClick ?e => constr:(logsAs_onDblClick e)
  | onContextMenu ?e => constr:(logsAs_onContextMenu e)
  | onChange ?e => constr:(logsAs_onChange e)
  | onInput ?e => constr:(logsAs_onInput e)
  | onFocus ?e => constr:(logsAs_onFocus e)
  | onBlur ?e => constr:(logsAs_onBlur e)
  | onSubmit ?e => constr:(logsAs_onSubmit e)
  | onKeyDown ?e => constr:(logsAs_onKeyDown e)
  | onKeyUp ?e => constr:(logsAs_onKeyUp e)
  | onMouseEnter ?e => constr:(logsAs_onMouseEnter e)
  | onMouseLeave ?e => constr:(logsAs_onMouseLeave e)
  | onCopy ?e => constr:(logsAs_onCopy e)
  | onCut ?e => constr:(logsAs_onCut e)
  | onPaste ?e => constr:(logsAs_onPaste e)
  | onVisibilityChange => constr:(logsAs_onVisibilityChange)
  | onConnection ?x => constr:(logsAs_onConnection x)
  | onBeforeUnload => constr:(logsAs_onBeforeUnload)
  | onPlay ?e => constr:(logsAs_onPlay e)
  | onPause ?e => constr:(logsAs_onPause e)
  | onEnded ?e => constr:(logsAs_onEnded e)
  | onSelectionChange => constr:(logsAs_onSelectionChange)
  | onDragStart ?e => constr:(logsAs_onDragStart e)
  | onDragEnd ?e => constr:(logsAs_onDragEnd e)
  | onDrop ?e => constr:(logsAs_onDrop e)
  end.

Section Vocabulary.

Variable tys : list string.
Variable E0 : list emission.

Lemma grows_same (w w' : world) :
emitted w' = emitted w -> grows tys E0 w -> grows tys E0 w'.
Proof. intros E (new & En & Hn). exists new. rewrite E. split; assumption. Qed.

Lemma grows_logEvent (ty ob : string) (el : option element) (info : obj) (w : world) :
In ty tys -> plainInfo info = true ->
grows tys E0 w -> grows tys E0 (settle (logEvent ty ob el info) w).
Proof.
intros Hin Hp (new & En & Hn).
destruct (settle_logEvent_cases ty ob el info w) as [[_ ->]|(d & Hd & ->)].
- exists new. split; assumption.
- exists (mkEmission el d :: new). split.
  + change (emitted (push_emitted (mkEmission el d) (touched w)))
      with (mkEmission el d :: emitted w).
    rewrite En. reflexivity.
  + cbn [forallb]. rewrite Hn, Bool.andb_true_r.
    unfold typedIn. apply existsb_exists. exists ty. split; [exact Hin|].
    rewrite (hasType_record ty Hp Hd). apply String.eqb_refl.
Qed.

Lemma K_logEvent (ty ob : string) (el : option element) (info : obj) (w : world) :
In ty tys -> plainInfo info = true ->
grows tys E0 w -> typedSince tys E0 (settle (logEvent ty ob el info) w).
Proof.
intros Hin Hp G. split; [apply awake_logEvent | apply grows_logEvent; assumption].
Qed.

Lemma K_logsAs (own : list string) (m : M unit) (w : world) :
logsAs own m -> incl own tys -> typedSince tys E0 w -> typedSince tys E0 (settle m w).
Proof.
intros L Hi HK. destruct (L w) as [->|(ty & ob & el & info & Hin & Hp & ->)];
  [exact HK|].
apply K_logEvent; [apply Hi, Hin | exact Hp | apply HK].
Qed.

Lemma K_resetIdleTimer (w : world) :
typedSince tys E0 w -> typedSince tys E0 (settle resetIdleTimer w).
Proof.
intros [Hi G]. destruct (resetIdleTimer_when_active w Hi) as (Es & Ee & _).
split; [rewrite Es; exact Hi | apply (grows_same w); assumption].
Qed.

Lemma K_onScroll (w : world) : typedSince tys E0 w -> typedSince tys E0 (settle onScroll w).
Proof.
intros [Hi G]. split; [|apply (grows_same w); [apply emitted_onScroll | exact G]].
rewrite settle_onScroll. destruct (scrollTimeout w); exact Hi.
Qed.

Lemma K_onResize (w : world) : typedSince tys E0 w -> typedSince tys E0 (settle onResize w).
Proof.
intros [Hi G]. split; [|apply (grows_same w); [apply emitted_onResize | exact G]].
rewrite settle_onResize. destruct (resizeTimeout w); exact Hi.
Qed.

Lemma K_onMouseMove (e : event) (w : world) :
In "mouse_move" tys -> typedSince tys E0 w -> typedSince tys E0 (settle (onMouseMove e) w).
Proof.
intros Hin [Hi G]. rewrite settle_onMouseMove. cbv zeta.
destruct (_ <? _); [|split; [exact Hi | apply (grows_same w); [reflexivity | exact G]]].
apply K_logEvent; [exact Hin | reflexivity |].
apply (grows_same w); [reflexivity | exact G].
Qed.

Lemma K_observerCallback (entries : list entry) (w : world) :
In "view" tys -> typedSince tys E0 w -> typedSince tys E0 (settle (observerCallback entries) w).
Proof.
intro Hin. unfold observerCallback. revert w.
induction entries as [|en r IH]; intros w H; [exact H|].
rewrite settle_forEach_cons.
assert (H1 : typedSince tys E0 (settle (observerEntry en) w)).
{ rewrite settle_observerEntry. destruct (_ && _)%bool; [|exact H].
  apply K_logEvent; [exact Hin | reflexivity |].
  destruct H as [Hi G]. apply (grows_same w); [reflexivity | exact G]. }
destruct (fst _); [apply IH|]; exact H1.
Qed.

Local Ltac own_listener Hincl :=
lazymatch goal with
| |- typedSince tys E0 (settle ?m _) =>
    let L := logsAs_of m in
    apply (K_logsAs _ _ _ L); [exact Hincl | assumption]
end.

(** The listeners of a signal emit only records of the signal's own
  types. *)
Lemma typed_dispatch (s : signal) (w : world) :
incl (ownTypes (registered w) (observing w) s) tys ->
typedSince tys E0 w -> typedSince tys E0 (dispatch s w).
Proof.
intros Hincl H. unfold dispatch.
destruct s; cbn [listenersOf ownTypes] in *;
  repeat match goal with
         | |- context [when ?b _] => destruct b; unfold when
         end;
  rewrite ?runListeners_two, ?runListeners_one, ?runListeners_nil;
  try assumption;
  try own_listener Hincl;
  try (apply K_resetIdleTimer; assumption).
- apply K_resetIdleTimer. own_listener Hincl.
- apply K_onScroll, K_resetIdleTimer, H.
- apply K_onMouseMove; [apply Hincl; left; reflexivity|].
  apply K_resetIdleTimer, H.
- apply K_onResize, H.
- apply K_observerCallback; [apply Hincl; left; reflexivity | exact H].
Qed.

Lemma K_fire (x : timer) (w : world) :
incl timerTypes tys -> typedSince tys E0 w -> typedSince tys E0 (fire x w).
Proof.
intros Hincl [Hi G]. unfold fire. cbv zeta.
match goal with
| |- typedSince tys E0 (settle _ ?u) =>
    assert (Hu : typedSince tys E0 u)
      by (split; [exact Hi | apply (grows_same w); [reflexivity | exact G]]);
    generalize dependent u
end.
intros u Hu. destruct (tm_cb x); cbn [callbackOf].
- rewrite settle_scrollCallback.
  apply K_logEvent; [apply Hincl; left; reflexivity | reflexivity |].
  apply (grows_same u); [apply scrolled_frame | apply Hu].
- apply (K_logsAs ["resize"]); [apply logsAs_resizeCallback | | exact Hu].
  intros ty [<-|[]]. apply Hincl. right. left. reflexivity.
- rewrite settle_idleCallback. cbv zeta.
  apply K_logEvent; [apply Hincl; right; right; left; reflexivity | reflexivity |].
  apply (grows_same u); [reflexivity | apply Hu].
- exact Hu.
Qed.

End Vocabulary.

Lemma hasType_unique (ty ty' : string) (m : emission) :
  hasType ty m = true -> hasType ty' m = true -> ty = ty'.
Proof.
  unfold hasType. destruct (typeOf (em_data m)); try discriminate.
  intros E E'. apply String.eqb_eq in E. apply String.eqb_eq in E'. congruence.
Qed.

(** No listener logs with the type of a timer. *)
Lemma timer_types_not_own (r : listeners) (observes : bool) (s : signal) (ty : string) :
  In ty timerTypes -> ~ In ty (ownTypes r observes s).
Proof.
  intros Hty Hin.
  assert (B : forallb (fun ty' => negb (includes timerTypes ty'))
                (ownTypes r observes s) = true).
  { destruct s; cbn [ownTypes];
      destruct (onKeyboard r), (onMouseMovement r), (onClipboard r), (onVisibility r),
               observes; reflexivity. }
  eapply forallb_forall in B; [|exact Hin].
  unfold includes in B. apply Bool.negb_true_iff in B.
  assert (T : existsb (String.eqb ty) timerTypes = true)
    by (apply existsb_exists; exists ty; split; [exact Hty | apply String.eqb_refl]).
  rewrite T in B. discriminate.
Qed.

(** On a session that is not idle, no listener emits a record with the
    type of a timer. *)
Lemma listeners_leave_timer_types (ty : string) (s : signal) (w : world) :
  In ty timerTypes -> isIdle (st w) = false ->
  recordsOfType ty (dispatch s w) = recordsOfType ty w.
Proof.
  intros Hty Hi.
  assert (K0 : typedSince (ownTypes (registered w) (observing w) s) (emitted w) w)
    by (split; [exact Hi | exists []; split; reflexivity]).
  destruct (typed_dispatch (ownTypes (registered w) (observing w) s) (emitted w) s w
              (incl_refl _) K0) as [_ (new & En & Hn)].
  assert (N : filter (hasType ty) new = []).
  { clear En. induction new as [|m new IH]; [reflexivity|].
    cbn [forallb] in Hn. apply Bool.andb_true_iff in Hn. destruct Hn as [Hm Hn].
    cbn [filter]. destruct (hasType ty m) eqn:E; [|apply IH, Hn].
    exfalso. unfold typedIn in Hm. apply existsb_exists in Hm.
    destruct Hm as (ty' & Hin & E').
    rewrite <- (hasType_unique _ _ _ E E') in Hin.
    exact (timer_types_not_own _ _ _ _ Hty Hin). }
  rewrite !recordsOfType_rev, En, filter_app, N. reflexivity.
Qed.

(** ** No record before its delay has passed *)

(** The records of type [ty] come from the timers that call [cb] and from
    nowhere else. *)
Section Patience.

Variable cb : callback.
Variable ty : string.

Hypothesis ty_timer : In ty timerTypes.
Hypothesis cb_others : forall c w,
sameCallback c cb = false ->
recordsOfType ty (settle (callbackOf c) w) = recordsOfType ty w.

(** While every pending timer of [cb] is due after [t], the timers called
  by [t] emit no record of type [ty]. *)
Lemma advanceFuel_waits (fuel : nat) (t : Z) (w : world) :
(forall x, In x (pendingFor cb w) -> t < tm_due x) ->
recordsOfType ty (advanceFuel fuel t w) = recordsOfType ty w.
Proof.
revert w. induction fuel as [|fuel IH]; intros w H; simpl; [reflexivity|].
destruct (nextDue t (timers w)) as [x|] eqn:E; [|reflexivity].
destruct (nextDue_In _ _ _ E) as [Hin Hdue].
assert (Hc : sameCallback (tm_cb x) cb = false).
{ destruct (sameCallback (tm_cb x) cb) eqn:Hc; [|reflexivity].
  exfalso. assert (t < tm_due x); [|lia].
  apply H. unfold pendingFor. apply filter_In. split; assumption. }
rewrite IH.
- unfold fire. cbv zeta. rewrite (cb_others _ _ Hc). reflexivity.
- intros y Hy. apply H. unfold pendingFor in *. rewrite timers_fire in Hy.
  apply filter_In in Hy. destruct Hy as [Hy1 Hy2].
  apply filter_In in Hy1. apply filter_In. split; [apply Hy1 | exact Hy2].
Qed.

Lemma deliver_waits (x : timed) (w : world) :
calm w ->
(forall y, In y (pendingFor cb w) -> at_time x < tm_due y) ->
recordsOfType ty (deliver x w) = recordsOfType ty w.
Proof.
intros Hc H. unfold deliver. cbv zeta.
rewrite (listeners_leave_timer_types ty _ _ ty_timer)
  by (apply (calm_advance (at_time x) w Hc)).
rewrite (recordsOfType_same ty (advance (at_time x) w)) by reflexivity.
apply advanceFuel_waits, H.
Qed.

End Patience.

Lemma scroll_others_silent (c : callback) (w : world) :
  sameCallback c CbScroll = false ->
  recordsOfType "scroll" (settle (callbackOf c) w) = recordsOfType "scroll" w.
Proof.
  destruct c; cbn [callbackOf sameCallback]; intro Hc; try discriminate Hc.
  - destruct (logsOnly_resizeCallback w) as [->|(ty & ob & el & info & Hin & Hp & ->)];
      [reflexivity|].
    apply recordsOfType_logEvent_other;
      [exact Hp | apply rawTypes_not; [exact Hin | reflexivity]].
  - rewrite settle_idleCallback. cbv zeta.
    rewrite recordsOfType_logEvent_other; [reflexivity | reflexivity | discriminate].
  - reflexivity.
Qed.

Lemma idle_others_silent (c : callback) (w : world) :
  sameCallback c CbIdle = false ->
  recordsOfType "user_idle" (settle (callbackOf c) w) = recordsOfType "user_idle" w.
Proof.
  destruct c; cbn [callbackOf sameCallback]; intro Hc; try discriminate Hc.
  - rewrite settle_scrollCallback.
    rewrite recordsOfType_logEvent_other; [| reflexivity | discriminate].
    apply recordsOfType_same. unfold scrolled. cbv zeta.
    destruct (JsNum.gt _ _); reflexivity.
  - destruct (logsOnly_resizeCallback w) as [->|(ty & ob & el & info & Hin & Hp & ->)];
      [reflexivity|].
    apply recordsOfType_logEvent_other;
      [exact Hp | apply rawTypes_not; [exact Hin | reflexivity]].
  - reflexivity.
Qed.

(** After the listeners of a scroll of the viewport, one scroll timer is
    pending, due [scrollThrottle] ms after the signal. *)
Lemma scroll_deadline (w : world) :
  calm w ->
  let w' := dispatch SScroll w in
  map tm_due (pendingFor CbScroll w') = [now w + Z.max 0 (scrollThrottle (cfg w))]
  /\ now w' = now w.
Proof.
  intro H. cbv zeta. unfold dispatch. cbn [listenersOf].
  rewrite runListeners_two.
  destruct (resetIdleTimer_deadline w H) as (_ & [H1 _] & En & Ec).
  set (w1 := settle resetIdleTimer w) in *.
  destruct (now_onScroll w1) as [-> _]. split; [|exact En].
  unfold pendingFor. rewrite timers_onScroll, filter_app.
  rewrite (pending_none CbScroll (cleared (scrollTimeout w1) (timers w1)))
    by (apply (cleared_none_left CbScroll _ _ _ _ _ H1); discriminate).
  rewrite En, Ec. reflexivity.
Qed.

Lemma due_after (l : list timer) (d t : Z) :
  map tm_due l = [d] -> t < d -> forall y, In y l -> t < tm_due y.
Proof.
  intros E Ht y Hy. destruct l as [|a [|b r]]; try discriminate E.
  destruct Hy as [<-|[]]. injection E as ->. exact Ht.
Qed.

(** X17.  The scroll listener is a trailing debounce, not a throttle: a
    scroll of the viewport at [t1] sets the one scroll timer anew, and no
    [scroll] record is emitted by a signal delivered sooner than
    [scrollThrottle] ms after it.  While the page is scrolled without a
    pause of that length, no [scroll] record is emitted at all. *)
Theorem no_scroll_record_while_scrolling (c : CONFIG) (h : host) (t0 : Z)
    (l : list timed) (t1 t2 : Z) (s : signal) :
  t2 < t1 + scrollThrottle c ->
  let w := run (l ++ [At t1 SScroll])%list (boot c h t0) in
  recordsOfType "scroll" (deliver (At t2 s) w) = recordsOfType "scroll" w.
Proof.
  intro Ht. cbv zeta. rewrite run_app.
  pose proof (steady_run c l (boot c h t0) (steady_boot c h t0)) as H.
  set (w := run l (boot c h t0)) in *.
  apply (steady_advance c t1) in H. destruct H as [H Hc].
  change (run [At t1 SScroll] w)
    with (dispatch SScroll (set_now (Z.max (now (advance t1 w)) t1) (advance t1 w))).
  set (w1 := set_now (Z.max (now (advance t1 w)) t1) (advance t1 w)).
  assert (H1 : calm w1) by exact H.
  destruct (scroll_deadline w1 H1) as (P & _).
  apply (deliver_waits CbScroll "scroll" (or_introl eq_refl) scroll_others_silent);
    [apply calm_dispatch, H1|].
  apply (due_after _ _ _ P).
  change (cfg w1) with (cfg (advance t1 w)). rewrite Hc.
  change (now w1) with (Z.max (now (advance t1 w)) t1).
  cbn [at_time]. lia.
Qed.

Lemma no_scroll_record_while_scrolling_witness :
  recordsOfType "scroll"
    (deliver (At 1100 SScroll) (run [At 1000 SScroll] (start somePage 0)))
  = recordsOfType "scroll" (run [At 1000 SScroll] (start somePage 0)).
Proof.
  exact (no_scroll_record_while_scrolling defaultCONFIG somePage 0 [] 1000 1100
           SScroll eq_refl).
Defined.

(** X22.  No [user_idle] record is emitted sooner than [idleTimeout] ms
    after a click, keypress, scroll, mousemove, mousedown or touchstart,
    whatever is delivered in between. *)
Theorem no_user_idle_before_timeout (c : CONFIG) (h : host) (t0 : Z)
    (l : list timed) (t1 t2 : Z) (s1 s : signal) :
  resetsIdle s1 = true ->
  t2 < t1 + idleTimeout c ->
  let w := run (l ++ [At t1 s1])%list (boot c h t0) in
  recordsOfType "user_idle" (deliver (At t2 s) w) = recordsOfType "user_idle" w.
Proof.
  intros Hs Ht. cbv zeta. rewrite run_app.
  pose proof (steady_run c l (boot c h t0) (steady_boot c h t0)) as H.
  set (w := run l (boot c h t0)) in *.
  apply (steady_advance c t1) in H. destruct H as [H Hc].
  change (run [At t1 s1] w)
    with (dispatch s1 (set_now (Z.max (now (advance t1 w)) t1) (advance t1 w))).
  set (w1 := set_now (Z.max (now (advance t1 w)) t1) (advance t1 w)).
  assert (H1 : calm w1) by exact H.
  destruct (dispatch_deadline s1 w1 H1 Hs) as (P & _).
  apply (deliver_waits CbIdle "user_idle" (or_intror (or_intror (or_introl eq_refl)))
           idle_others_silent);
    [apply calm_dispatch, H1|].
  apply (due_after _ _ _ P).
  change (cfg w1) with (cfg (advance t1 w)). rewrite Hc.
  change (now w1) with (Z.max (now (advance t1 w)) t1).
  cbn [at_time]. lia.
Qed.

Lemma no_user_idle_before_timeout_witness :
  recordsOfType "user_idle"
    (deliver (At 60000 SResize) (run silenceThenClick (start somePage 0)))
  = recordsOfType "user_idle" (run silenceThenClick (start somePage 0)).
Proof.
  exact (no_user_idle_before_timeout defaultCONFIG somePage 0 [] 31000 60000
           (SClick (eventOn buttonNode [])) SResize eq_refl eq_refl).
Defined.

(** ** The record comes once the delay has passed *)

Lemma page_callbackOf (c : callback) (w : world) :
  page (settle (callbackOf c) w) = page w.
Proof.
  destruct c; cbn [callbackOf].
  - rewrite settle_scrollCallback.
    match goal with
    | |- page (settle (logEvent ?a ?b ?c ?d) ?u) = _ =>
        destruct (logEvent_frame a b c d u) as (_ & -> & _)
    end.
    apply scrolled_frame.
  - destruct (logsOnly_resizeCallback w) as [->|(ty & ob & el & info & _ & _ & ->)];
      [reflexivity|].
    apply logEvent_frame.
  - rewrite settle_idleCallback. cbv zeta.
    match goal with
    | |- page (settle (logEvent ?a ?b ?c ?d) ?u) = _ =>
        destruct (logEvent_frame a b c d u) as (_ & -> & _)
    end.
    reflexivity.
  - reflexivity.
Qed.

Lemma page_fire (x : timer) (w : world) : page (fire x w) = page w.
Proof. unfold fire. cbv zeta. rewrite page_callbackOf. reflexivity. Qed.

Lemma page_advanceFuel (fuel : nat) (t : Z) (w : world) :
  page (advanceFuel fuel t w) = page w.
Proof.
  revert w. induction fuel as [|fuel IH]; intro w; simpl; [reflexivity|].
  destruct (nextDue t (timers w)); [|reflexivity]. rewrite IH. apply page_fire.
Qed.

Lemma filter_swap {A : Type} (f g : A -> bool) (l : list A) :
  filter f (filter g l) = filter g (filter f l).
Proof.
  induction l as [|a l IH]; [reflexivity|]. cbn [filter].
  destruct (f a) eqn:Hf, (g a) eqn:Hg; cbn [filter]; rewrite ?Hf, ?Hg, IH; reflexivity.
Qed.

Lemma same_id_same_timer (ts : list timer) (x y : timer) :
  NoDup (map tm_id ts) -> In x ts -> In y ts -> tm_id x = tm_id y -> x = y.
Proof.
  induction ts as [|a ts IH]; intros N Hx Hy E; [contradiction|].
  inversion N as [|i ids Hn Hr]; subst.
  destruct Hx as [->|Hx], Hy as [->|Hy].
  - reflexivity.
  - exfalso. apply Hn. rewrite E. apply in_map, Hy.
  - exfalso. apply Hn. rewrite <- E. apply in_map, Hx.
  - apply IH; assumption.
Qed.

Section Ripening.

Variable cb : callback.
Variable ty : string.
Variable Good : host -> emission -> Prop.

Hypothesis ty_timer : In ty timerTypes.
Hypothesis cb_others : forall c w,
sameCallback c cb = false ->
recordsOfType ty (settle (callbackOf c) w) = recordsOfType ty w.
Hypothesis cb_emits : forall w,
bodyOk (page w) ->
exists r,
  recordsOfType ty (settle (callbackOf cb) w) = (recordsOfType ty w ++ [r])%list
  /\ Good (page w) r.

(** Calling a pending timer while the one timer [x] of [cb] is pending:
  either it is another timer and nothing changes, or it is [x] and the
  record is emitted. *)
Lemma fire_ripens (x y : timer) (w : world) :
calm w -> bodyOk (page w) -> pendingFor cb w = [x] -> In y (timers w) ->
(y <> x /\ pendingFor cb (fire y w) = [x]
 /\ recordsOfType ty (fire y w) = recordsOfType ty w)
\/ (y = x /\ pendingFor cb (fire y w) = []
    /\ exists r, recordsOfType ty (fire y w) = (recordsOfType ty w ++ [r])%list
                 /\ Good (page w) r).
Proof.
intros [H _] Hb P Hy.
assert (Hx : In x (timers w) /\ sameCallback (tm_cb x) cb = true).
{ apply (filter_In (fun t => sameCallback (tm_cb t) cb) x (timers w)).
  fold (pendingFor cb w). rewrite P. left. reflexivity. }
assert (Q : pendingFor cb (fire y w)
            = filter (fun z => negb (Nat.eqb (tm_id z) (tm_id y))) [x]).
{ unfold pendingFor. rewrite timers_fire, filter_swap.
  fold (pendingFor cb w). rewrite P. reflexivity. }
destruct (sameCallback (tm_cb y) cb) eqn:Hc.
- right.
  assert (E : y = x).
  { assert (In y (pendingFor cb w)) as Hin by (apply filter_In; split; assumption).
    rewrite P in Hin. destruct Hin as [<-|[]]. reflexivity. }
  subst y. split; [reflexivity|]. split.
  + rewrite Q. cbn [filter]. rewrite Nat.eqb_refl. reflexivity.
  + unfold fire. cbv zeta. rewrite (sameCallback_eq _ _ Hc).
    match goal with
    | |- context [settle (callbackOf cb) ?u] =>
        destruct (cb_emits u Hb) as (r & Er & Gr)
    end.
    exists r. split; [exact Er | exact Gr].
- left.
  assert (Ne : y <> x) by (intros ->; destruct Hx as [_ Hx]; congruence).
  split; [exact Ne|]. split.
  + rewrite Q. cbn [filter].
    destruct (Nat.eqb (tm_id x) (tm_id y)) eqn:Ei; [|reflexivity].
    exfalso. apply Ne. symmetry.
    apply (same_id_same_timer (timers w)); [apply H | apply Hx | exact Hy |].
    apply Nat.eqb_eq, Ei.
  + unfold fire. cbv zeta. rewrite (cb_others _ _ Hc). reflexivity.
Qed.

Lemma advanceFuel_ripe (fuel : nat) (t : Z) (w : world) :
pendingFor cb w = [] ->
recordsOfType ty (advanceFuel fuel t w) = recordsOfType ty w
/\ pendingFor cb (advanceFuel fuel t w) = [].
Proof.
intro P. split.
- apply (advanceFuel_waits cb ty cb_others). rewrite P. intros x [].
- revert w P. induction fuel as [|fuel IH]; intros w P; simpl; [exact P|].
  destruct (nextDue t (timers w)) as [y|]; [|exact P].
  apply IH. unfold pendingFor. rewrite timers_fire, filter_swap.
  fold (pendingFor cb w). rewrite P. reflexivity.
Qed.

Lemma advanceFuel_ripens (fuel : nat) (t : Z) (x : timer) (w : world) :
calm w -> bodyOk (page w) -> pendingFor cb w = [x] ->
(pendingFor cb (advanceFuel fuel t w) = [x]
 /\ recordsOfType ty (advanceFuel fuel t w) = recordsOfType ty w)
\/ (pendingFor cb (advanceFuel fuel t w) = []
    /\ exists r,
         recordsOfType ty (advanceFuel fuel t w) = (recordsOfType ty w ++ [r])%list
         /\ Good (page w) r).
Proof.
revert w. induction fuel as [|fuel IH]; intros w H Hb P; simpl;
  [left; split; [exact P | reflexivity]|].
destruct (nextDue t (timers w)) as [y|] eqn:E;
  [|left; split; [exact P | reflexivity]].
destruct (nextDue_In _ _ _ E) as [Hy _].
destruct (fire_ripens x y w H Hb P Hy)
  as [(_ & P1 & R1)|(_ & P1 & r & R1 & G1)].
- assert (Hb1 : bodyOk (page (fire y w))) by (rewrite page_fire; exact Hb).
  destruct (IH (fire y w) (calm_fire y w H) Hb1 P1)
    as [[P2 R2]|(P2 & r & R2 & G2)].
  + left. split; [exact P2 | rewrite R2; exact R1].
  + right. split; [exact P2|]. exists r. rewrite R2, R1.
    split; [reflexivity | rewrite page_fire in G2; exact G2].
- right. destruct (advanceFuel_ripe fuel t (fire y w) P1) as [R2 P2].
  split; [exact P2|]. exists r. rewrite R2. split; assumption.
Qed.

(** The one pending timer of [cb] is due by [t]: the delivery at [t]
  emits its record, once. *)
Lemma deliver_ripens (t : Z) (s : signal) (x : timer) (w : world) :
calm w -> bodyOk (page w) -> pendingFor cb w = [x] -> tm_due x <= t ->
exists r,
  recordsOfType ty (deliver (At t s) w) = (recordsOfType ty w ++ [r])%list
  /\ Good (page w) r.
Proof.
intros H Hb P Hd. unfold deliver. cbv zeta. cbn [at_time at_signal].
rewrite (listeners_leave_timer_types ty _ _ ty_timer)
  by (apply (calm_advance t w H)).
rewrite (recordsOfType_same ty (advance t w)) by reflexivity.
unfold advance.
destruct (advanceFuel_ripens (List.length (timers w)) t x w H Hb P)
  as [[P2 _]|(_ & r & R2 & G2)]; [|exists r; split; assumption].
exfalso.
pose proof (advance_complete t w) as C. unfold advance in C.
assert (Hin : In x (timers (advanceFuel (List.length (timers w)) t w))).
{ assert (In x (pendingFor cb (advanceFuel (List.length (timers w)) t w))) as K
    by (rewrite P2; left; reflexivity).
  apply filter_In in K. apply K. }
eapply Forall_forall in C; [|exact Hin]. lia.
Qed.

End Ripening.

Lemma one_due (l : list timer) (d : Z) :
  map tm_due l = [d] -> exists x, l = [x] /\ tm_due x = d.
Proof.
  intro E. destruct l as [|a [|b r]]; try discriminate E.
  injection E as E. exists a. split; [reflexivity | exact E].
Qed.

Lemma scrollCallback_appends (w : world) :
  bodyOk (page w) ->
  exists r,
    recordsOfType "scroll" (settle (callbackOf CbScroll) w)
      = (recordsOfType "scroll" w ++ [r])%list
    /\ pctOf r = scroll_percentage (getScrollInfo (page w)).
Proof.
  intro Hb. cbn [callbackOf].
  destruct (scrollCallback_emits w Hb) as (d & Hw & Hty & Hp & _).
  cbv zeta in *. exists (mkEmission (h_body (page w)) d). split; [|exact Hp].
  rewrite Hw. unfold recordsOfType. rewrite records_push, filter_app.
  cbn [filter]. rewrite Hty.
  change (records (touched (scrolled w))) with (rev (emitted (scrolled w))).
  destruct (scrolled_frame w) as (_ & -> & _). reflexivity.
Qed.

Lemma idleCallback_appends (w : world) :
  bodyOk (page w) ->
  exists r,
    recordsOfType "user_idle" (settle (callbackOf CbIdle) w)
      = (recordsOfType "user_idle" w ++ [r])%list
    /\ em_element r = h_body (page w).
Proof.
  intro Hb. cbn [callbackOf]. rewrite settle_idleCallback. cbv zeta.
  set (w1 := set_st (with_isIdle true) w).
  destruct (settle_logEvent_cases "user_idle" "session" (h_body (page w1)) (idleInfo w1) w1)
    as [[Hn _]|(d & Hd & ->)].
  - exfalso.
    edestruct (recordOf_loggable "user_idle" "session" (h_body (page w1))
                 (idleInfo w1) (touched w1)) as [d Hd];
      [|rewrite Hd in Hn; discriminate].
    exact Hb.
  - exists (mkEmission (h_body (page w1)) d). split; [|reflexivity].
    unfold recordsOfType. rewrite records_push, filter_app. cbn [filter].
    rewrite (hasType_record "user_idle" (eq_refl : plainInfo (idleInfo w1) = true) Hd).
    reflexivity.
Qed.

(** X18.  Once [scrollThrottle] ms have passed after a scroll of the
    viewport with no further scroll, the next delivery finds exactly one
    new [scroll] record, and its percentage is that of the page as it is
    then (the body of the page being absent or an element). *)
Theorem scroll_record_after_the_pause (c : CONFIG) (h : host) (t0 : Z)
    (l : list timed) (t1 t2 : Z) (s : signal) :
  let w := run (l ++ [At t1 SScroll])%list (boot c h t0) in
  bodyOk (page w) ->
  now w + Z.max 0 (scrollThrottle c) <= t2 ->
  exists r,
    recordsOfType "scroll" (deliver (At t2 s) w) = (recordsOfType "scroll" w ++ [r])%list
    /\ pctOf r = scroll_percentage (getScrollInfo (page w)).
Proof.
  cbv zeta. intros Hb Ht.
  destruct (steady_run c (l ++ [At t1 SScroll])%list (boot c h t0) (steady_boot c h t0))
    as [Hw _].
  revert Hb Ht Hw. rewrite run_app.
  pose proof (steady_run c l (boot c h t0) (steady_boot c h t0)) as H.
  set (w := run l (boot c h t0)) in *.
  apply (steady_advance c t1) in H. destruct H as [H Hc].
  change (run [At t1 SScroll] w)
    with (dispatch SScroll (set_now (Z.max (now (advance t1 w)) t1) (advance t1 w))).
  set (w1 := set_now (Z.max (now (advance t1 w)) t1) (advance t1 w)).
  assert (H1 : calm w1) by exact H.
  destruct (scroll_deadline w1 H1) as (P & En).
  intros Hb Ht Hw. destruct (one_due _ _ P) as (x & Px & Dx).
  apply (deliver_ripens CbScroll "scroll"
           (fun pg r => pctOf r = scroll_percentage (getScrollInfo pg))
           (or_introl eq_refl) scroll_others_silent scrollCallback_appends t2 s x);
    try assumption.
  rewrite Dx. rewrite En in Ht.
  change (cfg w1) with (cfg (advance t1 w)). rewrite Hc. exact Ht.
Qed.

Lemma scroll_record_after_the_pause_witness :
  exists r,
    recordsOfType "scroll"
      (deliver (At 2000 SResize) (run [At 1000 SScroll] (start (pageAt 250 1000 500) 0)))
    = (recordsOfType "scroll" (run [At 1000 SScroll] (start (pageAt 250 1000 500) 0))
       ++ [r])%list
    /\ pctOf r = JsNum.of_Z 50.
Proof.
  pose proof (scroll_record_after_the_pause defaultCONFIG (pageAt 250 1000 500) 0 []
                1000 2000 SResize) as H.
  cbv zeta in H.
  destruct H as (r & Hr & Hp); [vm_compute; reflexivity | vm_compute; discriminate|].
  exists r. split; [exact Hr|]. rewrite Hp. vm_compute. reflexivity.
Defined.

(** X23.  Once [idleTimeout] ms have passed after a click, keypress,
    scroll, mousemove, mousedown or touchstart with none of these in
    between, the next delivery finds exactly one new [user_idle] record,
    logged on the body of the page (the body being absent or an
    element). *)
Theorem user_idle_after_the_timeout (c : CONFIG) (h : host) (t0 : Z)
    (l : list timed) (t1 t2 : Z) (s1 s : signal) :
  resetsIdle s1 = true ->
  let w := run (l ++ [At t1 s1])%list (boot c h t0) in
  bodyOk (page w) ->
  now w + Z.max 0 (idleTimeout c) <= t2 ->
  exists r,
    recordsOfType "user_idle" (deliver (At t2 s) w)
      = (recordsOfType "user_idle" w ++ [r])%list
    /\ em_element r = h_body (page w).
Proof.
  intro Hs. cbv zeta. intros Hb Ht.
  destruct (steady_run c (l ++ [At t1 s1])%list (boot c h t0) (steady_boot c h t0))
    as [Hw _].
  revert Hb Ht Hw. rewrite run_app.
  pose proof (steady_run c l (boot c h t0) (steady_boot c h t0)) as H.
  set (w := run l (boot c h t0)) in *.
  apply (steady_advance c t1) in H. destruct H as [H Hc].
  change (run [At t1 s1] w)
    with (dispatch s1 (set_now (Z.max (now (advance t1 w)) t1) (advance t1 w))).
  set (w1 := set_now (Z.max (now (advance t1 w)) t1) (advance t1 w)).
  assert (H1 : calm w1) by exact H.
  destruct (dispatch_deadline s1 w1 H1 Hs) as (P & En & _).
  intros Hb Ht Hw. destruct (one_due _ _ P) as (x & Px & Dx).
  apply (deliver_ripens CbIdle "user_idle" (fun pg r => em_element r = h_body pg)
           (or_intror (or_intror (or_introl eq_refl)))
           idle_others_silent idleCallback_appends t2 s x);
    try assumption.
  rewrite Dx. rewrite En in Ht.
  change (cfg w1) with (cfg (advance t1 w)). rewrite Hc. exact Ht.
Qed.

Lemma user_idle_after_the_timeout_witness :
  exists r,
    recordsOfType "user_idle"
      (deliver (At 62000 SResize) (run silenceThenClick (start somePage 0)))
    = (recordsOfType "user_idle" (run silenceThenClick (start somePage 0)) ++ [r])%list
    /\ em_element r = h_body somePage.
Proof.
  pose proof (user_idle_after_the_timeout defaultCONFIG somePage 0 []
                31000 62000 (SClick (eventOn buttonNode [])) SResize eq_refl) as H.
  cbv zeta in H.
  destruct H as (r & Hr & Hp); [vm_compute; reflexivity | vm_compute; discriminate|].
  exists r. split; [exact Hr | exact Hp].
Defined.


(** ** The listeners stay as they were registered *)

Lemma registered_logEvent (ty ob : string) (el : option element) (info : obj) (w : world) :
  registered (settle (logEvent ty ob el info) w) = registered w.
Proof. apply logEvent_frame. Qed.

Lemma registered_resetIdleTimer (w : world) :
  calm w -> registered (settle resetIdleTimer w) = registered w.
Proof. intros [_ Hi]. apply (resetIdleTimer_when_active w Hi). Qed.

Lemma registered_idleCallback (w : world) :
  registered (settle idleCallback w) = registered w.
Proof.
  rewrite settle_idleCallback. cbv zeta. rewrite registered_logEvent. reflexivity.
Qed.

Lemma registered_onScroll (w : world) : registered (settle onScroll w) = registered w.
Proof. rewrite settle_onScroll. destruct (scrollTimeout w); reflexivity. Qed.

Lemma registered_scrollCallback (w : world) :
  registered (settle scrollCallback w) = registered w.
Proof.
  rewrite settle_scrollCallback, registered_logEvent.
  unfold scrolled. cbv zeta. destruct (JsNum.gt _ _); reflexivity.
Qed.

Lemma registered_onResize (w : world) : registered (settle onResize w) = registered w.
Proof. rewrite settle_onResize. destruct (resizeTimeout w); reflexivity. Qed.

Lemma registered_onMouseMove (e : event) (w : world) :
  registered (settle (onMouseMove e) w) = registered w.
Proof.
  rewrite settle_onMouseMove. cbv zeta. destruct (_ <? _); [|reflexivity].
  rewrite registered_logEvent. reflexivity.
Qed.

Lemma registered_observerCallback (entries : list entry) (w : world) :
  registered (settle (observerCallback entries) w) = registered w.
Proof.
  unfold observerCallback. revert w.
  induction entries as [|en r IH]; intro w; [reflexivity|].
  rewrite settle_forEach_cons.
  assert (E1 : registered (settle (observerEntry en) w) = registered w).
  { rewrite settle_observerEntry. destruct (_ && _)%bool; [|reflexivity].
    rewrite registered_logEvent. reflexivity. }
  destruct (fst _); [|exact E1]. rewrite IH. exact E1.
Qed.

Ltac registered_step :=
  lazymatch goal with
  | |- registered (settle (logEvent _ _ _ _) _) = _ => apply registered_logEvent
  | |- registered (settle resetIdleTimer _) = _ =>
      apply registered_resetIdleTimer; assumption
  | |- registered (settle idleCallback _) = _ => apply registered_idleCallback
  | |- registered (settle onScroll _) = _ => apply registered_onScroll
  | |- registered (settle scrollCallback _) = _ => apply registered_scrollCallback
  | |- registered (settle onResize _) = _ => apply registered_onResize
  | |- registered (settle (onMouseMove _) _) = _ => apply registered_onMouseMove
  | |- registered (settle (observerCallback _) _) = _ =>
      apply registered_observerCallback
  | |- _ => reflexivity
  end.

Ltac listening_premise :=
  intros;
  lazymatch goal with
  | H : calm ?u /\ registered ?u = _ |- calm _ /\ registered _ = _ =>
      let E := fresh "E" in
      destruct H as [H E]; split; [calm_premise | rewrite <- E; registered_step]
  end.

Lemma listening_fire (r : listeners) (x : timer) (w : world) :
  calm w /\ registered w = r -> calm (fire x w) /\ registered (fire x w) = r.
Proof.
  intro H. apply (fire_keeps (fun w => calm w /\ registered w = r));
    try exact H; listening_premise.
Qed.

Lemma listening_dispatch (r : listeners) (s : signal) (w : world) :
  calm w /\ registered w = r -> calm (dispatch s w) /\ registered (dispatch s w) = r.
Proof.
  intro H. apply (dispatch_keeps (fun w => calm w /\ registered w = r) anyPage);
    try exact H; try (destruct s; exact Logic.I); listening_premise.
Qed.

Lemma listening_boot (c : CONFIG) (h : host) (t0 : Z) :
  calm (boot c h t0) /\ registered (boot c h t0) = flagsOf c.
Proof.
  split; [apply calm_boot|]. unfold boot. destruct (trackVisibility c) eqn:E;
    unfold flagsOf; rewrite E; reflexivity.
Qed.

Lemma own_in_vocabulary (c : CONFIG) (observes : bool) (s : signal) :
  incl (ownTypes (flagsOf c) observes s) (vocabulary c).
Proof.
  assert (B : forallb (fun ty => includes (vocabulary c) ty)
                (ownTypes (flagsOf c) observes s) = true).
  { unfold vocabulary, flagsOf.
    destruct s; cbn [ownTypes onKeyboard onMouseMovement onClipboard onVisibility];
      destruct (trackKeyboard c), (trackMouseMovement c), (trackClipboard c),
               (trackVisibility c), observes; reflexivity. }
  intros ty Hin. eapply forallb_forall in B; [|exact Hin].
  unfold includes in B. apply existsb_exists in B. destruct B as (ty' & Hin' & E).
  apply String.eqb_eq in E. subst ty'. exact Hin'.
Qed.

Lemma timers_in_vocabulary (c : CONFIG) : incl timerTypes (vocabulary c).
Proof.
  intros ty Hin. unfold vocabulary. apply in_or_app. right.
  apply in_or_app. left. exact Hin.
Qed.

(** The three facts that every delivery keeps. *)
Lemma vocabulary_run (c : CONFIG) (l : list timed) (w : world) :
  (calm w /\ registered w = flagsOf c) /\ grows (vocabulary c) [] w ->
  (calm (run l w) /\ registered (run l w) = flagsOf c)
  /\ grows (vocabulary c) [] (run l w).
Proof.
  unfold run. revert w. induction l as [|x l IH]; intros w H; [exact H|].
  cbn [fold_left]. apply IH. unfold deliver. cbv zeta.
  set (t := at_time x).
  assert (A : forall fuel w0,
            (calm w0 /\ registered w0 = flagsOf c) /\ grows (vocabulary c) [] w0 ->
            (calm (advanceFuel fuel t w0)
             /\ registered (advanceFuel fuel t w0) = flagsOf c)
            /\ grows (vocabulary c) [] (advanceFuel fuel t w0)).
  { induction fuel as [|fuel IHf]; intros w0 H0; [exact H0|]. simpl.
    destruct (nextDue t (timers w0)) as [y|]; [|exact H0].
    apply IHf. destruct H0 as [H1 H2]. split; [apply listening_fire, H1|].
    apply (K_fire (vocabulary c) [] y w0 (timers_in_vocabulary c)).
    split; [apply H1 | exact H2]. }
  specialize (A (List.length (timers w)) w H). fold (advance t w) in A.
  destruct A as [A1 A2].
  set (w1 := set_now (Z.max (now (advance t w)) t) (advance t w)).
  assert (B1 : calm w1 /\ registered w1 = flagsOf c) by exact A1.
  split; [apply listening_dispatch, B1|].
  apply (typed_dispatch (vocabulary c) []).
  - destruct B1 as [_ ->]. apply own_in_vocabulary.
  - split; [apply B1 | exact A2].
Qed.

Lemma grows_records (tys : list string) (w : world) :
  grows tys [] w -> forallb (typedIn tys) (records w) = true.
Proof.
  intros (new & En & Hn). unfold records. rewrite En, app_nil_r.
  apply forallb_forall. intros m Hm. apply in_rev in Hm.
  eapply forallb_forall in Hn; [exact Hn | exact Hm].
Qed.

Lemma grows_boot (c : CONFIG) (h : host) (t0 : Z) (tys : list string) :
  grows tys [] (boot c h t0).
Proof.
  exists []. split; [|reflexivity]. unfold boot.
  destruct (trackVisibility c); reflexivity.
Qed.

(** X8.  Every record of every run has one of the types of the
    configuration the script started with: the types of the listeners that
    are always registered, [scroll], [resize] and [user_idle] of the
    timers, and [keyboard], [mouse_move], [copy], [cut], [paste] and
    [view] only where the switch of the configuration is on.  No
    [additionalInfo] of the script overrides [type_of_event]. *)
Theorem records_stay_in_vocabulary (c : CONFIG) (h : host) (t0 : Z) (l : list timed) :
  forallb (typedIn (vocabulary c)) (records (run l (boot c h t0))) = true.
Proof.
  apply grows_records.
  apply (vocabulary_run c l (boot c h t0)).
  split; [apply listening_boot | apply grows_boot].
Qed.

(** X9.  A tracking switch that is off when the script starts keeps its
    records out of the whole session: a type outside the vocabulary of the
    configuration ([keyboard] without [trackKeyboard], [mouse_move]
    without [trackMouseMovement], [copy], [cut], [paste] without
    [trackClipboard], [view] without [trackVisibility]) is never
    emitted. *)
Theorem switched_off_types_are_never_logged (c : CONFIG) (h : host) (t0 : Z)
    (l : list timed) (ty : string) :
  includes (vocabulary c) ty = false ->
  recordsOfType ty (run l (boot c h t0)) = [].
Proof.
  intro Hn.
  pose proof (grows_records _ _
                (proj2 (vocabulary_run c l (boot c h t0)
                          (conj (listening_boot c h t0) (grows_boot c h t0 _))))) as V.
  unfold recordsOfType.
  destruct (filter (hasType ty) (records (run l (boot c h t0)))) as [|m r] eqn:E;
    [reflexivity|].
  exfalso.
  assert (Hm : In m (filter (hasType ty) (records (run l (boot c h t0)))))
    by (rewrite E; left; reflexivity).
  apply filter_In in Hm. destruct Hm as [Hin Hty].
  eapply forallb_forall in V; [|exact Hin].
  unfold typedIn in V. apply existsb_exists in V. destruct V as (ty' & Hin' & Hty').
  rewrite (hasType_unique _ _ _ Hty Hty') in Hn.
  unfold includes in Hn.
  assert (T : existsb (String.eqb ty') (vocabulary c) = true)
    by (apply existsb_exists; exists ty'; split; [exact Hin' | apply String.eqb_refl]).
  rewrite T in Hn. discriminate.
Qed.

Lemma switched_off_types_are_never_logged_witness :
  recordsOfType "keyboard"
    (run [At 10 (SKeyDown (eventOn buttonNode [("key", VStr "a")]))]
         (boot (withSwitches true false true true) somePage 0)) = [].
Proof.
  exact (switched_off_types_are_never_logged (withSwitches true false true true)
           somePage 0 [At 10 (SKeyDown (eventOn buttonNode [("key", VStr "a")]))]
           "keyboard" eq_refl).
Defined.

(** X10.  On a session that is not idle, the listeners of a signal emit only
    records of the signal's own type: a click gives [click] records, a key
    going down [keyboard] records where the keyboard is tracked and none
    where it is not, a scroll or a resize none at once, and so on for the
    36 signals; the records emitted before stay. *)
Theorem signal_records_carry_own_type (s : signal) (w : world) :
  isIdle (st w) = false ->
  grows (ownTypes (registered w) (observing w) s) (emitted w) (dispatch s w).
Proof.
  intro Hi.
  apply (typed_dispatch (ownTypes (registered w) (observing w) s) (emitted w) s w).
  - apply incl_refl.
  - split; [exact Hi|]. exists []. split; reflexivity.
Qed.

Lemma signal_records_carry_own_type_witness :
  grows ["click"] (emitted (start somePage 0))
    (dispatch (SClick (eventOn buttonNode [])) (start somePage 0)).
Proof.
  exact (signal_records_carry_own_type (SClick (eventOn buttonNode []))
           (start somePage 0) eq_refl).
Defined.

(** ** The path of an element *)

Section Paths.

Import JsString.

Lemma string_app_assoc (a b c : string) : ((a ++ b) ++ c = a ++ (b ++ c))%string.
Proof. induction a as [|ch a IH]; simpl; [reflexivity | rewrite IH; reflexivity]. Qed.

Lemma join_snoc (sep : string) (l : list string) (x : string) :
l <> [] -> join sep (l ++ [x]) = (join sep l ++ sep ++ x)%string.
Proof.
induction l as [|a [|b r] IH]; intro H; [contradiction | reflexivity|].
change (join sep ((a :: b :: r) ++ [x])) with (a ++ sep ++ join sep ((b :: r) ++ [x]))%string.
rewrite IH by discriminate.
change (join sep (a :: b :: r)) with (a ++ sep ++ join sep (b :: r))%string.
rewrite !string_app_assoc. reflexivity.
Qed.

Lemma pathLevels_not_nil (body : option element) (e : element) (l : list string) :
isBody body e = false -> pathLevels body e = Some l -> l <> [].
Proof.
intros Hb H. destruct e as [ref tg ty ro ce id cl nm tx ds pr pa].
cbn [pathLevels] in H. rewrite Hb in H.
destruct (pathSegment _) as [seg|]; [|discriminate].
cbn [el_parentElement] in H. destruct pa as [p|].
- destruct (pathLevels body p) as [above|]; [|discriminate].
  injection H as <-. intro E. apply app_eq_nil in E. destruct E. discriminate.
- injection H as <-. discriminate.
Qed.

Lemma pathLevels_step (body : option element) (e : element) :
pathLevels body e =
  if isBody body e then Some [] else
  match pathSegment e with
  | None => None
  | Some seg =>
      match el_parentElement e with
      | None => Some [seg]
      | Some p =>
          match pathLevels body p with
          | None => None
          | Some above => Some (above ++ [seg])%list
          end
      end
  end.
Proof. destruct e; reflexivity. Qed.

End Paths.

(** X2.  [getElementPath] names the ancestors from the outermost one down
    to the element, [document.body] left out: the path of the body itself
    is the empty string (so the records logged on the body, such as
    [scroll], [resize] and [user_idle], have a blank [element_path]); the
    path of a child of the body is its own level [tag#id.class]; and the
    path of a deeper element is the path of its parent, [" > "], and its
    own level.  It fails exactly where a level has no tag name. *)
Theorem element_path_stops_below_body (body : option element) (e p : element) :
  (isBody body e = true -> getElementPath body e = Some EmptyString)
  /\ (isBody body e = false -> el_parentElement e = Some p -> isBody body p = true ->
      getElementPath body e = pathSegment e)
  /\ (isBody body e = false -> el_parentElement e = Some p -> isBody body p = false ->
      getElementPath body e =
        match getElementPath body p, pathSegment e with
        | Some above, Some seg => Some (above ++ " > " ++ seg)%string
        | _, _ => None
        end).
Proof.
  unfold getElementPath. rewrite (pathLevels_step body e).
  split; [intros ->; reflexivity|]. split.
  - intros -> -> Hp. rewrite (pathLevels_step body p), Hp.
    destruct (pathSegment e); reflexivity.
  - intros -> -> Hp.
    destruct (pathLevels body p) as [above|] eqn:E.
    + destruct (pathSegment e) as [seg|]; [|reflexivity].
      rewrite join_snoc by (apply (pathLevels_not_nil body p above Hp E)).
      reflexivity.
    + destruct (pathSegment e); reflexivity.
Qed.

Lemma element_path_stops_below_body_witness :
  getElementPath (Some bodyNode) bodyNode = Some EmptyString
  /\ getElementPath (Some bodyNode) buttonNode = Some "button"
  /\ getElementPath (Some bodyNode) spanInButton = Some "button > span".
Proof.
  split; [|split].
  - exact (proj1 (element_path_stops_below_body (Some bodyNode) bodyNode bodyNode)
             eq_refl).
  - exact (proj1 (proj2 (element_path_stops_below_body (Some bodyNode) buttonNode
                           bodyNode)) eq_refl eq_refl eq_refl).
  - exact (proj2 (proj2 (element_path_stops_below_body (Some bodyNode) spanInButton
                           buttonNode)) eq_refl eq_refl eq_refl).
Defined.

(** ** Text selection *)

(** X13.  The selection listener logs nothing, and uses no sequence number,
    while the selection is empty; a selection that is not empty gives one
    [text_selection] record with the full length of the selection and its
    first 100 characters at most, logged on the parent of the anchor node
    (on no element where the anchor is absent). *)
Theorem selection_record_is_bounded (w : world) :
  let selection := h_selectionText (page w) in
  (selection = EmptyString -> dispatch SSelectionChange w = w)
  /\ (selection <> EmptyString ->
      loggableOpt (h_body (page w)) (h_selectionAnchorParent (page w)) = true ->
      exists d preview,
        emitted (dispatch SSelectionChange w)
          = mkEmission (h_selectionAnchorParent (page w)) d :: emitted w
        /\ typeOf d = VStr "text_selection"
        /\ JsObj.get "selection_length" d = VInt (Z.of_nat (String.length selection))
        /\ JsObj.get "selected_text" d = VStr preview
        /\ String.prefix preview selection = true
        /\ String.length preview = Nat.min 100 (String.length selection)).
Proof.
  cbv zeta. unfold dispatch. cbn [listenersOf]. rewrite runListeners_one.
  unfold onSelectionChange. rewrite settle_gets. cbv zeta. split.
  - intros ->. reflexivity.
  - intros Hne L.
    assert (Hl : Nat.ltb 0 (String.length (h_selectionText (page w))) = true)
      by (destruct (h_selectionText (page w)); [contradiction | reflexivity]).
    rewrite Hl, settle_then_ret.
    set (info := [ ("selected_text", VStr (JsString.prefix 100 (h_selectionText (page w))));
                   ("selection_length",
                     VInt (Z.of_nat (String.length (h_selectionText (page w))))) ]).
    destruct (recordOf_loggable "text_selection" "text"
                (h_selectionAnchorParent (page w)) info (touched w) L) as [d Hd].
    exists d, (JsString.prefix 100 (h_selectionText (page w))).
    rewrite settle_logEvent, Hd.
    split; [reflexivity|].
    split; [apply (recordOf_typeOf (eq_refl : plainInfo info = true) Hd)|].
    destruct (recordOf_get "selection_length" Hd) as (i1 & t1 & p1 & ->).
    destruct (recordOf_get "selected_text" Hd) as (i2 & t2 & p2 & ->).
    repeat split; [apply prefix_is_prefix | apply prefix_length].
Qed.

Lemma selection_record_is_bounded_witness :
  dispatch SSelectionChange (start somePage 0) = start somePage 0
  /\ exists d preview,
       emitted (dispatch SSelectionChange (start (pageSelecting "hello") 0))
         = mkEmission (Some buttonNode) d :: emitted (start (pageSelecting "hello") 0)
       /\ typeOf d = VStr "text_selection"
       /\ JsObj.get "selection_length" d = VInt 5
       /\ JsObj.get "selected_text" d = VStr preview
       /\ String.prefix preview "hello" = true
       /\ String.length preview = 5%nat.
Proof.
  split.
  - exact (proj1 (selection_record_is_bounded (start somePage 0)) eq_refl).
  - apply (proj2 (selection_record_is_bounded (start (pageSelecting "hello") 0)));
      [discriminate | reflexivity].
Defined.

(** ** The resize record *)

Lemma resize_others_silent (c : callback) (w : world) :
  sameCallback c CbResize = false ->
  recordsOfType "resize" (settle (callbackOf c) w) = recordsOfType "resize" w.
Proof.
  destruct c; cbn [callbackOf sameCallback]; intro Hc; try discriminate Hc.
  - rewrite settle_scrollCallback.
    rewrite recordsOfType_logEvent_other; [| reflexivity | discriminate].
    apply recordsOfType_same. unfold scrolled. cbv zeta.
    destruct (JsNum.gt _ _); reflexivity.
  - rewrite settle_idleCallback. cbv zeta.
    rewrite recordsOfType_logEvent_other; [reflexivity | reflexivity | discriminate].
  - reflexivity.
Qed.

(** On a page whose body can be logged the resize callback emits one
    record, with the viewport of the page. *)
Lemma resizeCallback_appends (w : world) :
  bodyOk (page w) ->
  exists r,
    recordsOfType "resize" (settle (callbackOf CbResize) w)
      = (recordsOfType "resize" w ++ [r])%list
    /\ JsObj.get "viewport" (em_data r)
         = VObj [ ("width", h_prop (page w) "innerWidth");
                  ("height", VNum (h_innerHeight (page w))) ].
Proof.
  intro Hb. cbn [callbackOf]. unfold resizeCallback.
  rewrite settle_gets, settle_then_ret.
  match goal with
  | |- context [settle (logEvent ?a ?b ?c ?d) w] => set (info := d)
  end.
  destruct (settle_logEvent_cases "resize" "window" (h_body (page w)) info w)
    as [[Hn _]|(d & Hd & ->)].
  - exfalso.
    edestruct (recordOf_loggable "resize" "window" (h_body (page w)) info (touched w))
      as [d Hd]; [|rewrite Hd in Hn; discriminate].
    exact Hb.
  - exists (mkEmission (h_body (page w)) d). split.
    + unfold recordsOfType. rewrite records_push, filter_app. cbn [filter].
      rewrite (hasType_record "resize" (eq_refl : plainInfo info = true) Hd).
      reflexivity.
    + cbn [em_data]. destruct (recordOf_get "viewport" Hd) as (i & t & p & ->).
      reflexivity.
Qed.

(** After the listener of a resize, one resize timer is pending, due
    [resizeThrottle] ms after the signal. *)
Lemma resize_deadline (w : world) :
  calm w ->
  let w' := dispatch SResize w in
  map tm_due (pendingFor CbResize w') = [now w + Z.max 0 (resizeThrottle (cfg w))]
  /\ now w' = now w /\ page w' = page w.
Proof.
  intros [H _]. cbv zeta. unfold dispatch. cbn [listenersOf].
  rewrite runListeners_one. split.
  - unfold pendingFor. rewrite timers_onResize, filter_app.
    rewrite (pending_none CbResize (cleared (resizeTimeout w) (timers w)))
      by (apply (cleared_none_left CbResize _ _ _ _ _ H); discriminate).
    reflexivity.
  - rewrite settle_onResize. destruct (resizeTimeout w); split; reflexivity.
Qed.

(** X27.  The resize listener is a trailing debounce too: after a resize
    delivered at [t1], a delivery sooner than [resizeThrottle] ms after
    [t1] emits no [resize] record, whatever its signal; and once
    [resizeThrottle] ms have passed, the next delivery finds exactly one
    new [resize] record, with the viewport of the page as it is then (the
    body being absent or an element). *)
Theorem resize_record_waits_for_the_pause (c : CONFIG) (h : host) (t0 : Z)
    (l : list timed) (t1 t2 : Z) (s : signal) :
  let w := run (l ++ [At t1 SResize])%list (boot c h t0) in
  (t2 < t1 + resizeThrottle c ->
   recordsOfType "resize" (deliver (At t2 s) w) = recordsOfType "resize" w)
  /\ (bodyOk (page w) ->
      now w + Z.max 0 (resizeThrottle c) <= t2 ->
      exists r,
        recordsOfType "resize" (deliver (At t2 s) w)
          = (recordsOfType "resize" w ++ [r])%list
        /\ JsObj.get "viewport" (em_data r)
             = VObj [ ("width", h_prop (page w) "innerWidth");
                      ("height", VNum (h_innerHeight (page w))) ]).
Proof.
  cbv zeta. rewrite run_app.
  pose proof (steady_run c l (boot c h t0) (steady_boot c h t0)) as H.
  set (w := run l (boot c h t0)) in *.
  apply (steady_advance c t1) in H. destruct H as [H Hc].
  change (run [At t1 SResize] w)
    with (dispatch SResize (set_now (Z.max (now (advance t1 w)) t1) (advance t1 w))).
  set (w1 := set_now (Z.max (now (advance t1 w)) t1) (advance t1 w)).
  assert (H1 : calm w1) by exact H.
  destruct (resize_deadline w1 H1) as (P & En & _).
  assert (Hd : calm (dispatch SResize w1)) by (apply calm_dispatch, H1).
  assert (Ec : cfg w1 = c) by exact Hc.
  assert (En1 : t1 <= now w1)
    by (change (now w1) with (Z.max (now (advance t1 w)) t1); lia).
  split.
  - intro Ht.
    apply (deliver_waits CbResize "resize" (or_intror (or_introl eq_refl))
             resize_others_silent); [exact Hd|].
    apply (due_after _ _ _ P). rewrite Ec. cbn [at_time]. lia.
  - intros Hb Ht. destruct (one_due _ _ P) as (x & Px & Dx).
    apply (deliver_ripens CbResize "resize"
             (fun pg r => JsObj.get "viewport" (em_data r)
                          = VObj [ ("width", h_prop pg "innerWidth");
                                   ("height", VNum (h_innerHeight pg)) ])
             (or_intror (or_introl eq_refl)) resize_others_silent
             resizeCallback_appends t2 s x);
      try assumption.
    rewrite Dx, Ec. rewrite En in Ht. exact Ht.
Qed.

Lemma resize_record_waits_for_the_pause_witness :
  let w := run ([] ++ [At 1000 SResize])%list (boot defaultCONFIG somePage 0) in
  recordsOfType "resize" (deliver (At 1400 SResize) w) = recordsOfType "resize" w
  /\ exists r,
       recordsOfType "resize" (deliver (At 2000 (SClick (eventOn buttonNode []))) w)
         = (recordsOfType "resize" w ++ [r])%list
       /\ JsObj.get "viewport" (em_data r)
            = VObj [ ("width", h_prop (page w) "innerWidth");
                     ("height", VNum (h_innerHeight (page w))) ].
Proof.
  cbv zeta. split.
  - exact (proj1 (resize_record_waits_for_the_pause defaultCONFIG somePage 0 []
                    1000 1400 SResize) eq_refl).
  - apply (proj2 (resize_record_waits_for_the_pause defaultCONFIG somePage 0 []
                    1000 2000 (SClick (eventOn buttonNode [])))).
    + vm_compute. reflexivity.
    + vm_compute. discriminate.
Defined.
